(** * skibidi_manga_backend: catalog consistency and engagement tracking

    A shallow embedding of the service layer of the manga backend
    (src/services/*.service.js and the controllers that duplicate it) and
    the properties of its counters, guards and derived views.

    Conventions.
    - The Prisma client is embedded as operations on a [Store] whose tables
      are lists of rows in insertion order.  A service function is a
      computation [M A := Store -> Result A * Store]: it returns a value or
      the error it throws, together with the store the writes made so far
      have produced.
    - [await]ed calls run one after the other; a whole service call is one
      uninterrupted run (single-threaded view).
    - What the runtime supplies during a call is an explicit argument: the
      instant [new Date()] returns, the id the database generates for a new
      row, the indices drawn through [Math.random].
    - Third-party code is a parameter of the development: the [slugify]
      package, [parseFloat], [JSON.parse] and the Cloudinary upload. *)

From Stdlib Require Import ZArith QArith List String Ascii Bool Lia.
From Stdlib Require Import Permutation Sorted.
From Stdlib Require Import PrimFloat FloatOps SpecFloat Uint63.
Import ListNotations.

Local Open Scope string_scope.
Local Open Scope Z_scope.

(** ** Data model (prisma schema, as used by the services) *)

Definition Id := string.
Definition Date := Z.

Inductive Role := USER | UPLOADER | ADMIN.
Inductive ApprovalStatus := PENDING | APPROVED | REJECTED.
Inductive MangaStatus := ONGOING | COMPLETED | HIATUS | CANCELLED.
Inductive ChapterStatus := DRAFT | PUBLISHED.

Definition Role_eqb (a b : Role) : bool :=
  match a, b with
  | USER, USER | UPLOADER, UPLOADER | ADMIN, ADMIN => true
  | _, _ => false
  end.

Definition ApprovalStatus_eqb (a b : ApprovalStatus) : bool :=
  match a, b with
  | PENDING, PENDING | APPROVED, APPROVED | REJECTED, REJECTED => true
  | _, _ => false
  end.

Record Manga := mkManga {
  m_id : Id;
  m_title : string;
  m_slug : string;
  m_alternativeTitles : list string;
  m_description : option string;
  m_thumbnail : option string;
  m_coverImage : option string;
  m_status : MangaStatus;
  m_releaseYear : option Z;
  m_approvalStatus : ApprovalStatus;
  m_uploaderId : Id;
  m_totalChapters : Z;
  m_totalViews : Z;
  m_lastChapterAt : option Date
}.

Record Chapter := mkChapter {
  c_id : Id;
  c_mangaId : Id;
  c_chapterNumber : Q;
  c_title : string;
  c_slug : string;
  c_images : list string;
  c_totalImages : Z;
  c_totalViews : Z;
  c_status : ChapterStatus;
  c_publishedAt : Date
}.

Record Bookmark := mkBookmark {
  b_id : Id;
  b_userId : Id;
  b_mangaId : Id;
  b_createdAt : Date
}.

Record ReadingHistory := mkReadingHistory {
  h_id : Id;
  h_userId : Id;
  h_chapterId : Id;
  h_mangaId : Id;
  h_currentPage : Z;
  h_totalPages : Z;
  h_progressPercent : Z;
  h_isCompleted : bool;
  h_lastReadAt : Date
}.

Record ChapterView := mkChapterView {
  v_id : Id;
  v_chapterId : Id;
  v_userId : Id
}.

(** Author and Genre rows have the same columns. *)
Record Named := mkNamed {
  n_id : Id;
  n_name : string;
  n_slug : string
}.

(** A row of a join table (MangaAuthor, MangaGenre). *)
Record Join := mkJoin {
  j_mangaId : Id;
  j_otherId : Id
}.

Record Store := mkStore {
  mangas : list Manga;
  chapters : list Chapter;
  bookmarks : list Bookmark;
  histories : list ReadingHistory;
  chapterViews : list ChapterView;
  authors : list Named;
  genres : list Named;
  mangaAuthors : list Join;
  mangaGenres : list Join
}.

Definition emptyStore : Store := mkStore [] [] [] [] [] [] [] [] [].

(** ** Errors and the service monad *)

Inductive Error :=
| AppError (message : string) (statusCode : Z)
| PrismaError (code : string)
| TypeError
| SyntaxError
| JsError (message : string).

Inductive Result (A : Type) :=
| Ok (a : A)
| Err (e : Error).
Arguments Ok {A} a.
Arguments Err {A} e.

Definition M (A : Type) := Store -> Result A * Store.

Definition ret {A} (a : A) : M A := fun s => (Ok a, s).
Definition throw {A} (e : Error) : M A := fun s => (Err e, s).
Definition bind {A B} (m : M A) (k : A -> M B) : M B :=
  fun s => match m s with
           | (Ok a, s') => k a s'
           | (Err e, s') => (Err e, s')
           end.
Definition get : M Store := fun s => (Ok s, s).
Definition read {A} (f : Store -> A) : M A := fun s => (Ok (f s), s).

Declare Scope svc_scope.
Delimit Scope svc_scope with svc.
Notation "x <- m ;; k" := (bind m (fun x => k))
  (at level 61, m at next level, right associativity) : svc_scope.
Notation "m ;;; k" := (bind m (fun _ => k))
  (at level 61, right associativity) : svc_scope.

(** ** JavaScript numbers

    A JS number is an IEEE-754 binary64 value: Rocq's primitive [float].
    Page numbers reach the service as integers (the route validates them
    with isInt); [number_of_Z] is their value as a JS number, rounded to
    the nearest double when it has more than 53 significant bits. *)

Definition number_of_Z (z : Z) : float :=
  SF2Prim (binary_normalize prec emax z 0 false).

(** [Math.round x]: the integer closest to [x], ties towards +infinity,
    computed on the exact value [m * 2^e] of the float: floor (x + 1/2).
    [None] stands for NaN and the infinities, which Math.round returns
    unchanged. *)
Definition Math_round (x : float) : option Z :=
  match Prim2SF x with
  | S754_zero _ => Some 0
  | S754_finite sign m e =>
      let v := if sign then Zneg m else Zpos m in
      if 0 <=? e then Some (v * 2 ^ e)
      else Some ((2 * v + 2 ^ (- e)) / 2 ^ (- e + 1))
  | _ => None
  end.

(** [totalPages > 0 ? Math.round((currentPage / totalPages) * 100) : 0] *)
Definition progressPercentOf (currentPage totalPages : Z) : option Z :=
  if 0 <? totalPages
  then Math_round
         (PrimFloat.mul
            (PrimFloat.div (number_of_Z currentPage) (number_of_Z totalPages))
            (number_of_Z 100))
  else Some 0.

(** The formula of the design, on exact rationals with ties rounded up:
    round (100 * currentPosition / totalPositions) = floor (100c/t + 1/2). *)
Definition spec_progressPercent (currentPosition totalPositions : Z) : Z :=
  if 0 <? totalPositions
  then (200 * currentPosition + totalPositions) / (2 * totalPositions)
  else 0.

(** ** Strings *)

Definition is_space (c : ascii) : bool :=
  let n := nat_of_ascii c in
  (Nat.eqb n 32 || (Nat.leb 9 n && Nat.leb n 13))%bool.

Fixpoint ltrim (s : string) : string :=
  match s with
  | String c r => if is_space c then ltrim r else s
  | EmptyString => EmptyString
  end.

Fixpoint rev_string (acc s : string) : string :=
  match s with
  | String c r => rev_string (String c acc) r
  | EmptyString => acc
  end.

(** [s.trim()] on texts of ASCII characters: the white space removed is the
    space and the characters 9 to 13.  String.prototype.trim also removes
    U+00A0, U+FEFF and the other Unicode spaces, which these strings do not
    represent. *)
Definition trim (s : string) : string :=
  rev_string "" (ltrim (rev_string "" (ltrim s))).

(** [s.split(',')] *)
Fixpoint split_comma (cur s : string) : list string :=
  match s with
  | EmptyString => [rev_string "" cur]
  | String c r =>
      if Ascii.eqb c ","%char
      then rev_string "" cur :: split_comma "" r
      else split_comma (String c cur) r
  end.

Definition nonEmpty (s : string) : bool :=
  match s with EmptyString => false | _ => true end.

(** ** Collaborators outside the repository

    - [slugify text]: the slugify package called as createSlug calls it,
      [slugify(text, {lower: true, strict: true, remove: ...})];
    - [parseFloat], [None] being NaN;
    - [JSON_parse], the array JSON.parse returns when the text is a JSON
      array of strings, [None] otherwise; [JSON_throws] tells whether
      JSON.parse throws on the text (when it does not and [JSON_parse] is
      [None], the text holds another JSON value, which parses).  Where a
      service calls JSON.parse outside a try block, a text that is not a
      JSON array of strings stops the call before any write: with the
      SyntaxError of JSON.parse, or further on when the text parses to
      another value; the model reports the SyntaxError in both cases;
    - the two upload helpers of upload.service.js, which validate the files
      and hand them to Cloudinary: they return the stored URLs or throw. *)

Class Collaborators := {
  File : Type;
  slugify : string -> string;
  parseFloat : string -> option Q;
  JSON_parse : string -> option (list string);
  JSON_throws : string -> bool;
  uploadMultiple : list File -> string -> Result (list string);
  uploadSingleImage : File -> string -> Result string
}.

Definition lift {A} (r : Result A) : M A := fun s => (r, s).

(** ** The Prisma client on the store *)

Definition set_mangas (s : Store) (l : list Manga) : Store :=
  mkStore l (chapters s) (bookmarks s) (histories s) (chapterViews s)
          (authors s) (genres s) (mangaAuthors s) (mangaGenres s).
Definition set_chapters (s : Store) (l : list Chapter) : Store :=
  mkStore (mangas s) l (bookmarks s) (histories s) (chapterViews s)
          (authors s) (genres s) (mangaAuthors s) (mangaGenres s).
Definition set_bookmarks (s : Store) (l : list Bookmark) : Store :=
  mkStore (mangas s) (chapters s) l (histories s) (chapterViews s)
          (authors s) (genres s) (mangaAuthors s) (mangaGenres s).
Definition set_histories (s : Store) (l : list ReadingHistory) : Store :=
  mkStore (mangas s) (chapters s) (bookmarks s) l (chapterViews s)
          (authors s) (genres s) (mangaAuthors s) (mangaGenres s).
Definition set_chapterViews (s : Store) (l : list ChapterView) : Store :=
  mkStore (mangas s) (chapters s) (bookmarks s) (histories s) l
          (authors s) (genres s) (mangaAuthors s) (mangaGenres s).

Definition set_counters (m : Manga) (totalChapters totalViews : Z)
           (lastChapterAt : option Date) : Manga :=
  mkManga (m_id m) (m_title m) (m_slug m) (m_alternativeTitles m)
          (m_description m) (m_thumbnail m) (m_coverImage m) (m_status m)
          (m_releaseYear m) (m_approvalStatus m) (m_uploaderId m)
          totalChapters totalViews lastChapterAt.

Definition set_c_totalViews (c : Chapter) (v : Z) : Chapter :=
  mkChapter (c_id c) (c_mangaId c) (c_chapterNumber c) (c_title c) (c_slug c)
            (c_images c) (c_totalImages c) v (c_status c) (c_publishedAt c).

(** prisma.manga.findUnique({ where: { id } }) *)
Definition manga_findUnique (id : Id) (s : Store) : option Manga :=
  find (fun m => String.eqb (m_id m) id) (mangas s).

(** prisma.chapter.findUnique({ where: { id } }) *)
Definition chapter_findUnique (id : Id) (s : Store) : option Chapter :=
  find (fun c => String.eqb (c_id c) id) (chapters s).

(** prisma.chapter.findFirst({ where: { mangaId, chapterNumber } }) *)
Definition chapter_findFirst (mangaId : Id) (number : Q) (s : Store)
  : option Chapter :=
  find (fun c => String.eqb (c_mangaId c) mangaId
                 && Qeq_bool (c_chapterNumber c) number)%bool
       (chapters s).

(** prisma.manga.update({ where: { id }, data }) for the increments the
    services write: every row of that id (there is one, id being the primary
    key) is rewritten by [f]; P2025 when there is none. *)
Definition manga_update (id : Id) (f : Manga -> Manga) : M unit :=
  fun s =>
    match manga_findUnique id s with
    | None => (Err (PrismaError "P2025"), s)
    | Some _ =>
        (Ok tt,
         set_mangas s
           (map (fun m => if String.eqb (m_id m) id then f m else m)
                (mangas s)))
    end.

(** prisma.chapter.update({ where: { id }, data }) likewise. *)
Definition chapter_update (id : Id) (f : Chapter -> Chapter) : M unit :=
  fun s =>
    match chapter_findUnique id s with
    | None => (Err (PrismaError "P2025"), s)
    | Some _ =>
        (Ok tt,
         set_chapters s
           (map (fun c => if String.eqb (c_id c) id then f c else c)
                (chapters s)))
    end.

(** prisma.chapter.create({ data }): the row is appended unless a constraint
    refuses it: the primary key, the foreign key to the title (P2003), and
    the unique slug.
    Modelled from the spec: schema.prisma is not among the sources; section 3
    of the design gives a Chapter a unique id, a required owning Title and a
    unique slug. *)
Definition chapter_create (c : Chapter) : M Chapter :=
  fun s =>
    if existsb (fun x => String.eqb (c_id x) (c_id c)) (chapters s)
    then (Err (PrismaError "P2002"), s)
    else if existsb (fun x => String.eqb (c_slug x) (c_slug c)) (chapters s)
    then (Err (PrismaError "P2002"), s)
    else match manga_findUnique (c_mangaId c) s with
         | None => (Err (PrismaError "P2003"), s)
         | Some _ => (Ok c, set_chapters s (chapters s ++ [c]))
         end.

(** prisma.chapter.delete({ where: { id } }): P2025 when absent; the rows
    that reference the chapter go with it.
    Modelled from the spec: schema.prisma is not among the sources; section 8
    of the design has deletion succeed while progress records still reference
    the chapter, and a later progress query find none. *)
Definition chapter_delete (id : Id) : M unit :=
  fun s =>
    match chapter_findUnique id s with
    | None => (Err (PrismaError "P2025"), s)
    | Some _ =>
        (Ok tt,
         mkStore (mangas s)
           (filter (fun c => negb (String.eqb (c_id c) id)) (chapters s))
           (bookmarks s)
           (filter (fun h => negb (String.eqb (h_chapterId h) id)) (histories s))
           (filter (fun v => negb (String.eqb (v_chapterId v) id)) (chapterViews s))
           (authors s) (genres s) (mangaAuthors s) (mangaGenres s))
    end.

(** prisma.chapterView.create({ data: { chapterId, userId } }) *)
Definition chapterView_create (newId chapterId userId : Id) : M unit :=
  fun s =>
    if existsb (fun v => String.eqb (v_id v) newId) (chapterViews s)
    then (Err (PrismaError "P2002"), s)
    else (Ok tt, set_chapterViews s
                   (chapterViews s ++ [mkChapterView newId chapterId userId])).

(** ** chapter.service.js *)

Inductive ImagesInput :=
| ImagesUndefined
| ImagesText (text : string)
| ImagesArray (urls : list string).

(** req.body of a chapter creation: chapterNumber as the text the template
    literals print, title, images. *)
Record ChapterData := mkChapterData {
  cd_chapterNumber : string;
  cd_title : option string;
  cd_images : ImagesInput
}.

(** The data of a chapter update ([data: updateData] / [req.body]),
    likewise an object of plain values for scalar columns; a write through
    a relation ([manga: { connect: { id } }]) is outside this type. *)
Record ChapterPatch := mkChapterPatch {
  cp_mangaId : option Id;
  cp_chapterNumber : option Q;
  cp_title : option string;
  cp_slug : option string;
  cp_images : option (list string);
  cp_totalImages : option Z;
  cp_totalViews : option Z;
  cp_status : option ChapterStatus;
  cp_publishedAt : option Date
}.

Definition upd {A} (o : option A) (old : A) : A :=
  match o with Some v => v | None => old end.

Definition patch_chapter (p : ChapterPatch) (c : Chapter) : Chapter :=
  mkChapter (c_id c)
            (upd (cp_mangaId p) (c_mangaId c))
            (upd (cp_chapterNumber p) (c_chapterNumber c))
            (upd (cp_title p) (c_title c))
            (upd (cp_slug p) (c_slug c))
            (upd (cp_images p) (c_images c))
            (upd (cp_totalImages p) (c_totalImages c))
            (upd (cp_totalViews p) (c_totalViews c))
            (upd (cp_status p) (c_status c))
            (upd (cp_publishedAt p) (c_publishedAt c)).

(** prisma.chapter.update({ where: { id }, data: updateData }): P2025 when
    absent, P2002 when the new slug belongs to another chapter, P2003 when
    the new mangaId names no title. *)
Definition chapter_update_data (id : Id) (p : ChapterPatch) : M Chapter :=
  fun s =>
    match chapter_findUnique id s with
    | None => (Err (PrismaError "P2025"), s)
    | Some c =>
        let c' := patch_chapter p c in
        if existsb (fun x => negb (String.eqb (c_id x) id)
                             && String.eqb (c_slug x) (c_slug c'))%bool
                   (chapters s)
        then (Err (PrismaError "P2002"), s)
        else match manga_findUnique (c_mangaId c') s with
             | None => (Err (PrismaError "P2003"), s)
             | Some _ =>
                 (Ok c',
                  set_chapters s
                    (map (fun x => if String.eqb (c_id x) id
                                   then patch_chapter p x else x)
                         (chapters s)))
             end
    end.

Section ChapterService.
Context {X : Collaborators}.
Local Open Scope svc_scope.

Definition createSlug (text : string) : string := slugify text.

(** incrementChapterViews(chapterId, mangaId, userId = null) *)
Definition incrementChapterViews (chapterId mangaId : Id)
           (userId : option Id) (newId : Id) : M unit :=
  chapter_update chapterId
    (fun c => set_c_totalViews c (c_totalViews c + 1)) ;;;
  manga_update mangaId
    (fun m => set_counters m (m_totalChapters m) (m_totalViews m + 1)
                           (m_lastChapterAt m)) ;;;
  match userId with
  | Some userId => chapterView_create newId chapterId userId
  | None => ret tt
  end.

(** createChapter(mangaId, chapterData, files, userId, userRole).
    [newId] is the id the database gives the row, [now1] and [now2] the two
    readings of the clock.  A chapterNumber that parses to NaN cannot be
    sent to the database: the findFirst query fails Prisma's validation. *)
Definition createChapter (mangaId : Id) (chapterData : ChapterData)
           (files : option (list File)) (userId : Id) (userRole : Role)
           (newId : Id) (now1 now2 : Date) : M Chapter :=
  let chapterNumber := cd_chapterNumber chapterData in
  let title := cd_title chapterData in
  manga <- read (manga_findUnique mangaId) ;;
  match manga with
  | None => throw (AppError "Manga not found" 404)
  | Some manga =>
    if (negb (String.eqb (m_uploaderId manga) userId)
        && negb (Role_eqb userRole ADMIN))%bool
    then throw (AppError "Not authorized to add chapters to this manga" 403)
    else
      match parseFloat chapterNumber with
      | None => throw (PrismaError "validation")
      | Some number =>
        existingChapter <- read (chapter_findFirst mangaId number) ;;
        match existingChapter with
        | Some _ => throw (AppError "Chapter number already exists" 400)
        | None =>
          images <-
            match files with
            | Some (f :: fs) =>
                lift (uploadMultiple (f :: fs)
                        ("manga/" ++ mangaId ++ "/chapter-" ++ chapterNumber))
            | _ =>
                match cd_images chapterData with
                | ImagesUndefined => ret []
                | ImagesText "" => ret []
                | ImagesText text =>
                    match JSON_parse text with
                    | Some urls => ret urls
                    | None => throw SyntaxError
                    end
                | ImagesArray urls => ret urls
                end
            end ;;
          if Nat.eqb (List.length images) 0
          then throw (AppError "No images provided" 400)
          else
            let slug := createSlug (m_slug manga ++ "-ch-" ++ chapterNumber) in
            chapter <-
              chapter_create
                (mkChapter newId mangaId number
                   (match title with
                    | Some (String a t) => String a t
                    | _ => "Chapter " ++ chapterNumber
                    end)
                   slug images (Z.of_nat (List.length images)) 0 PUBLISHED now1) ;;
            manga_update mangaId
              (fun m => set_counters m (m_totalChapters m + 1)
                                     (m_totalViews m) (Some now2)) ;;;
            ret chapter
        end
      end
  end.

(** updateChapter(chapterId, updateData, userId, userRole); [chapter.manga]
    is null when the owning title is gone, and reading its uploaderId then
    throws a TypeError. *)
Definition updateChapter (chapterId : Id) (updateData : ChapterPatch)
           (userId : Id) (userRole : Role) : M Chapter :=
  chapter <- read (chapter_findUnique chapterId) ;;
  match chapter with
  | None => throw (AppError "Chapter not found" 404)
  | Some chapter =>
    manga <- read (manga_findUnique (c_mangaId chapter)) ;;
    match manga with
    | None => throw TypeError
    | Some manga =>
      if (negb (String.eqb (m_uploaderId manga) userId)
          && negb (Role_eqb userRole ADMIN))%bool
      then throw (AppError "Not authorized to update this chapter" 403)
      else chapter_update_data chapterId updateData
    end
  end.

(** deleteChapter(chapterId, userId, userRole) *)
Definition deleteChapter (chapterId userId : Id) (userRole : Role) : M bool :=
  chapter <- read (chapter_findUnique chapterId) ;;
  match chapter with
  | None => throw (AppError "Chapter not found" 404)
  | Some chapter =>
    manga <- read (manga_findUnique (c_mangaId chapter)) ;;
    match manga with
    | None => throw TypeError
    | Some manga =>
      if (negb (String.eqb (m_uploaderId manga) userId)
          && negb (Role_eqb userRole ADMIN))%bool
      then throw (AppError "Not authorized to delete this chapter" 403)
      else
        chapter_delete chapterId ;;;
        manga_update (c_mangaId chapter)
          (fun m => set_counters m (m_totalChapters m - 1)
                                 (m_totalViews m) (m_lastChapterAt m)) ;;;
        ret true
    end
  end.

End ChapterService.

(** ** manga.service.js and manga.controller.js *)

(** The data of a title update ([data: updateData] / [req.body]) as an
    object that gives plain values to scalar columns of the title: each
    field is absent or names the new value.  The services hand the caller's
    object to Prisma unfiltered; what Prisma accepts besides (a write
    through a relation such as [chapters: { deleteMany: {} }], an atomic
    operator such as [{ increment: 1 }]) is outside this type, and so
    outside every statement made over it. *)
Record MangaPatch := mkMangaPatch {
  mp_title : option string;
  mp_slug : option string;
  mp_alternativeTitles : option (list string);
  mp_description : option (option string);
  mp_thumbnail : option (option string);
  mp_coverImage : option (option string);
  mp_status : option MangaStatus;
  mp_releaseYear : option (option Z);
  mp_approvalStatus : option ApprovalStatus;
  mp_uploaderId : option Id;
  mp_totalChapters : option Z;
  mp_totalViews : option Z;
  mp_lastChapterAt : option (option Date)
}.

Definition patch_manga (p : MangaPatch) (m : Manga) : Manga :=
  mkManga (m_id m)
          (upd (mp_title p) (m_title m))
          (upd (mp_slug p) (m_slug m))
          (upd (mp_alternativeTitles p) (m_alternativeTitles m))
          (upd (mp_description p) (m_description m))
          (upd (mp_thumbnail p) (m_thumbnail m))
          (upd (mp_coverImage p) (m_coverImage m))
          (upd (mp_status p) (m_status m))
          (upd (mp_releaseYear p) (m_releaseYear m))
          (upd (mp_approvalStatus p) (m_approvalStatus m))
          (upd (mp_uploaderId p) (m_uploaderId m))
          (upd (mp_totalChapters p) (m_totalChapters m))
          (upd (mp_totalViews p) (m_totalViews m))
          (upd (mp_lastChapterAt p) (m_lastChapterAt m)).

(** prisma.manga.update({ where: { id }, data: updateData }): P2025 when
    absent, P2002 when the new slug belongs to another title (slug is the
    key of getMangaBySlug's findUnique). *)
Definition manga_update_data (id : Id) (p : MangaPatch) : M Manga :=
  fun s =>
    match manga_findUnique id s with
    | None => (Err (PrismaError "P2025"), s)
    | Some m =>
        let m' := patch_manga p m in
        if existsb (fun x => negb (String.eqb (m_id x) id)
                             && String.eqb (m_slug x) (m_slug m'))%bool
                   (mangas s)
        then (Err (PrismaError "P2002"), s)
        else (Ok m',
              set_mangas s
                (map (fun x => if String.eqb (m_id x) id
                               then patch_manga p x else x)
                     (mangas s)))
    end.

(** prisma.manga.delete({ where: { id } }): P2025 when absent; the chapters
    of the title and every row that references it or them go with it.
    Modelled from the spec: schema.prisma is not among the sources; section 8
    of the design has the deletion of a Title succeed while progress records
    still reference its chapters, and getMangaProgress answer null after. *)
Definition manga_delete (id : Id) : M unit :=
  fun s =>
    match manga_findUnique id s with
    | None => (Err (PrismaError "P2025"), s)
    | Some _ =>
        let gone (chapterId : Id) :=
          existsb (fun c => String.eqb (c_id c) chapterId
                            && String.eqb (c_mangaId c) id)%bool
                  (chapters s) in
        (Ok tt,
         mkStore
           (filter (fun m => negb (String.eqb (m_id m) id)) (mangas s))
           (filter (fun c => negb (String.eqb (c_mangaId c) id)) (chapters s))
           (filter (fun b => negb (String.eqb (b_mangaId b) id)) (bookmarks s))
           (filter (fun h => negb (String.eqb (h_mangaId h) id)) (histories s))
           (filter (fun v => negb (gone (v_chapterId v))) (chapterViews s))
           (authors s) (genres s)
           (filter (fun j => negb (String.eqb (j_mangaId j) id)) (mangaAuthors s))
           (filter (fun j => negb (String.eqb (j_mangaId j) id)) (mangaGenres s)))
    end.

Inductive ArrayInput :=
| ArrUndefined
| ArrText (text : string)
| ArrArray (items : list string).

(** The fields of a title-creation request; [md_releaseYear] is the value of
    [parseInt(releaseYear)] when the field is given. *)
Record MangaData := mkMangaData {
  md_title : option string;
  md_alternativeTitles : ArrayInput;
  md_description : option string;
  md_status : option MangaStatus;
  md_releaseYear : option Z;
  md_authorNames : ArrayInput;
  md_genreNames : ArrayInput;
  md_thumbnail : option string;
  md_coverImage : option string
}.

(** The manga of a response with its relations flattened:
    [{...m, authors: m.authors.map(a => a.author), genres: ...}]. *)
Record FormattedManga := mkFormattedManga {
  fm_manga : Manga;
  fm_authors : list (option Named);
  fm_genres : list (option Named)
}.

Definition related (table : list Named) (joins : list Join) (mangaId : Id)
  : list (option Named) :=
  map (fun j => find (fun a => String.eqb (n_id a) (j_otherId j)) table)
      (filter (fun j => String.eqb (j_mangaId j) mangaId) joins).

Definition formatManga (s : Store) (m : Manga) : FormattedManga :=
  mkFormattedManga m
    (related (authors s) (mangaAuthors s) (m_id m))
    (related (genres s) (mangaGenres s) (m_id m)).

(** *** The Fisher-Yates loop of getRandomManga *)

Fixpoint set_nth {A} (i : nat) (x : A) (l : list A) : list A :=
  match l, i with
  | [], _ => []
  | _ :: r, O => x :: r
  | y :: r, S i' => y :: set_nth i' x r
  end.

(** [[a[i], a[j]] = [a[j], a[i]]] for indices inside the array (the loop
    never leaves it: 0 <= j <= i < a.length). *)
Definition swap {A} (a : list A) (i j : nat) : list A :=
  match nth_error a i, nth_error a j with
  | Some x, Some y => set_nth j x (set_nth i y a)
  | _, _ => a
  end.

(** [for (let i = ...; i > 0; i--) { const j = Math.floor(Math.random() *
    (i + 1)); swap }], from index [i] down to 1; [draw i] is the [j] drawn
    at index [i]. *)
Fixpoint fisherYates {A} (draw : nat -> nat) (i : nat) (a : list A) : list A :=
  match i with
  | O => a
  | S i' => fisherYates draw i' (swap a i (draw i))
  end.

Definition shuffle {A} (draw : nat -> nat) (a : list A) : list A :=
  fisherYates draw (List.length a - 1) a.

(** getRandomManga(limit = 1); [limit] is [parseInt(limit)]. *)
Definition getRandomManga (limit : nat) (draw : nat -> nat) (s : Store)
  : list FormattedManga :=
  let approved m := ApprovalStatus_eqb (m_approvalStatus m) APPROVED in
  let totalCount := List.length (filter approved (mangas s)) in
  if Nat.eqb totalCount 0 then []
  else
    let allManga := map m_id (filter approved (mangas s)) in
    let shuffled := shuffle draw allManga in
    let selectedIds := firstn limit shuffled in
    let manga :=
      filter (fun m => existsb (String.eqb (m_id m)) selectedIds) (mangas s) in
    map (formatManga s) manga.

Section MangaService.
Context {X : Collaborators}.
Local Open Scope svc_scope.

Record MangaFiles := mkMangaFiles {
  mf_thumbnail : option File;
  mf_coverImage : option File
}.

(** [connectOrCreate: { where: { name }, create: { name, slug } }] on the
    Author or Genre table: the row of that name, created when absent.
    Modelled from the spec: schema.prisma is not among the sources; section 3
    of the design gives a Contributor and a Tag a unique id, name and slug. *)
Definition connectOrCreate (name : string) (newId : Id) (table : list Named)
  : Result (Named * list Named) :=
  match find (fun a => String.eqb (n_name a) name) table with
  | Some a => Ok (a, table)
  | None =>
      if existsb (fun a => String.eqb (n_id a) newId) table
      then Err (PrismaError "P2002")
      else if existsb (fun a => String.eqb (n_slug a) (createSlug name)) table
      then Err (PrismaError "P2002")
      else let a := mkNamed newId name (createSlug name) in
           Ok (a, (table ++ [a])%list)
  end.

(** The nested [create] of one relation: a join row per name, in order; the
    pair (mangaId, otherId) is the key of a join row.  [idOf k] is the k-th
    id the database generates during the call. *)
Fixpoint connectAll (mangaId : Id) (names : list string) (idOf : nat -> Id)
         (k : nat) (table : list Named) (joins : list Join)
  : Result (list Named * list Join * nat) :=
  match names with
  | [] => Ok (table, joins, k)
  | name :: rest =>
      match connectOrCreate name (idOf k) table with
      | Err e => Err e
      | Ok (a, table') =>
          if existsb (fun j => String.eqb (j_mangaId j) mangaId
                               && String.eqb (j_otherId j) (n_id a))%bool joins
          then Err (PrismaError "P2002")
          else connectAll mangaId rest idOf (S k) table'
                          (joins ++ [mkJoin mangaId (n_id a)])%list
      end
  end.

(** prisma.manga.create({ data: { ..., authors: { create }, genres:
    { create } } }): one nested write, all or nothing. *)
Definition manga_create (m : Manga) (authorNames genreNames : list string)
           (idOf : nat -> Id) : M Manga :=
  fun s =>
    if existsb (fun x => String.eqb (m_id x) (m_id m)) (mangas s)
    then (Err (PrismaError "P2002"), s)
    else if existsb (fun x => String.eqb (m_slug x) (m_slug m)) (mangas s)
    then (Err (PrismaError "P2002"), s)
    else
      match connectAll (m_id m) authorNames idOf 1 (authors s) (mangaAuthors s) with
      | Err e => (Err e, s)
      | Ok (authors', mangaAuthors', k) =>
          match connectAll (m_id m) genreNames idOf k (genres s) (mangaGenres s) with
          | Err e => (Err e, s)
          | Ok (genres', mangaGenres', _) =>
              (Ok m,
               mkStore (mangas s ++ [m]) (chapters s) (bookmarks s)
                       (histories s) (chapterViews s)
                       authors' genres' mangaAuthors' mangaGenres')
          end
      end.

(** [createSlug(title)]: slugify throws on anything but a string. *)
Definition createSlug_of (title : option string) : M string :=
  match title with
  | Some t => ret (createSlug t)
  | None => throw (JsError "slugify: string argument expected")
  end.

(** The thumbnail / cover of a creation request: the uploaded file's URL
    when a file came with it, the URL of the body otherwise. *)
Definition imageOf (file : option File) (url : option string)
  : M (option string) :=
  match file with
  | Some f => u <- lift (uploadSingleImage f "manga/covers") ;; ret (Some u)
  | None => ret url
  end.

(** [typeof v === 'string' ? JSON.parse(v) : v], [None] being undefined. *)
Definition parseNames (v : ArrayInput) : M (option (list string)) :=
  match v with
  | ArrUndefined => ret None
  | ArrText text =>
      match JSON_parse text with
      | Some l => ret (Some l)
      | None => throw SyntaxError
      end
  | ArrArray l => ret (Some l)
  end.

Definition newManga (id : Id) (title slug : string) (alt : list string)
           (mangaData : MangaData) (thumbnail coverImage : option string)
           (userId : Id) (userRole : Role) : Manga :=
  mkManga id title slug alt (md_description mangaData) thumbnail coverImage
          (match md_status mangaData with Some st => st | None => ONGOING end)
          (md_releaseYear mangaData)
          (if Role_eqb userRole ADMIN then APPROVED else PENDING)
          userId 0 0 None.

Definition createdMessage (userRole : Role) : string :=
  if Role_eqb userRole ADMIN
  then "Manga created successfully" else "Manga submitted for approval".

(** manga.service.js: createManga(mangaData, files, userId, userRole) *)
Definition createManga (mangaData : MangaData) (files : option MangaFiles)
           (userId : Id) (userRole : Role) (idOf : nat -> Id)
  : M (Manga * string) :=
  let title := md_title mangaData in
  thumbnail <- imageOf (match files with Some f => mf_thumbnail f | None => None end)
                       (md_thumbnail mangaData) ;;
  coverImage <- imageOf (match files with Some f => mf_coverImage f | None => None end)
                        (md_coverImage mangaData) ;;
  slug <- createSlug_of title ;;
  authorsArray <- parseNames (md_authorNames mangaData) ;;
  genresArray <- parseNames (md_genreNames mangaData) ;;
  altTitlesArray <-
    match md_alternativeTitles mangaData with
    | ArrUndefined => ret []
    | ArrText "" => ret []
    | v => a <- parseNames v ;; ret (match a with Some l => l | None => [] end)
    end ;;
  match authorsArray, genresArray with
  | Some authorsArray, Some genresArray =>
      manga <- manga_create
                 (newManga (idOf O) (match title with Some t => t | None => "" end)
                           slug altTitlesArray mangaData thumbnail coverImage
                           userId userRole)
                 authorsArray genresArray idOf ;;
      ret (manga, createdMessage userRole)
  | _, _ => throw TypeError
  end.

(** manga.controller.js: the local [parseToArray] of createManga.  A text
    that opens a JSON array and parses is returned as JSON.parse gives it:
    [None] stands for an array that holds a value that is not a string. *)
Definition parseToArray (value : ArrayInput) : option (list string) :=
  match value with
  | ArrUndefined => Some []
  | ArrText "" => Some []
  | ArrArray l => Some l
  | ArrText text =>
      if String.prefix "[" (trim text)
      then match JSON_parse text with
           | Some l => Some l
           | None => if JSON_throws text then Some [] else None
           end
      else Some (filter nonEmpty (map trim (split_comma "" text)))
  end.

(** manga.controller.js: exports.createManga, with [req.user.id] and
    [req.user.role] as [userId] and [userRole].  A name that is not a string
    stops the request at createSlug(name); alternative titles that are not
    strings are refused by Prisma. *)
Definition createManga_controller (body : MangaData) (files : option MangaFiles)
           (userId : Id) (userRole : Role) (idOf : nat -> Id)
  : M (Manga * string) :=
  let title := md_title body in
  thumbnail <- imageOf (match files with Some f => mf_thumbnail f | None => None end)
                       (md_thumbnail body) ;;
  coverImage <- imageOf (match files with Some f => mf_coverImage f | None => None end)
                        (md_coverImage body) ;;
  slug <- createSlug_of title ;;
  let authorsArray := parseToArray (md_authorNames body) in
  let genresArray := parseToArray (md_genreNames body) in
  let altTitlesArray := parseToArray (md_alternativeTitles body) in
  match authorsArray, genresArray with
  | Some authorsArray, Some genresArray =>
      match altTitlesArray with
      | Some altTitlesArray =>
          manga <- manga_create
                     (newManga (idOf O)
                               (match title with Some t => t | None => "" end)
                               slug altTitlesArray body thumbnail coverImage
                               userId userRole)
                     authorsArray genresArray idOf ;;
          ret (manga, createdMessage userRole)
      | None => throw (PrismaError "validation")
      end
  | _, _ => throw (JsError "slugify: string argument expected")
  end.

(** updateManga(mangaId, updateData, userId, userRole) *)
Definition updateManga (mangaId : Id) (updateData : MangaPatch)
           (userId : Id) (userRole : Role) : M Manga :=
  manga <- read (manga_findUnique mangaId) ;;
  match manga with
  | None => throw (AppError "Manga not found" 404)
  | Some manga =>
    if (negb (String.eqb (m_uploaderId manga) userId)
        && negb (Role_eqb userRole ADMIN))%bool
    then throw (AppError "Not authorized to update this manga" 403)
    else manga_update_data mangaId updateData
  end.

(** deleteManga(mangaId, userId, userRole) *)
Definition deleteManga (mangaId userId : Id) (userRole : Role) : M bool :=
  manga <- read (manga_findUnique mangaId) ;;
  match manga with
  | None => throw (AppError "Manga not found" 404)
  | Some manga =>
    if (negb (String.eqb (m_uploaderId manga) userId)
        && negb (Role_eqb userRole ADMIN))%bool
    then throw (AppError "Not authorized to delete this manga" 403)
    else manga_delete mangaId ;;; ret true
  end.

End MangaService.

(** ** bookmark.service.js *)

(** prisma.bookmark.findUnique({ where: { userId_mangaId } }) *)
Definition bookmark_findUnique (userId mangaId : Id) (s : Store)
  : option Bookmark :=
  find (fun b => String.eqb (b_userId b) userId
                 && String.eqb (b_mangaId b) mangaId)%bool
       (bookmarks s).

(** prisma.bookmark.delete({ where: { userId_mangaId } }) *)
Definition bookmark_delete (userId mangaId : Id) : M unit :=
  fun s =>
    match bookmark_findUnique userId mangaId s with
    | None => (Err (PrismaError "P2025"), s)
    | Some _ =>
        (Ok tt,
         set_bookmarks s
           (filter (fun b => negb (String.eqb (b_userId b) userId
                                   && String.eqb (b_mangaId b) mangaId))
                   (bookmarks s)))
    end.

(** prisma.bookmark.create({ data: { userId, mangaId } }): refused on a
    used id, on a second row for the pair (the compound key
    userId_mangaId), and on a missing title. *)
Definition bookmark_create (newId userId mangaId : Id) (now : Date)
  : M Bookmark :=
  fun s =>
    if existsb (fun b => String.eqb (b_id b) newId) (bookmarks s)
    then (Err (PrismaError "P2002"), s)
    else match bookmark_findUnique userId mangaId s with
         | Some _ => (Err (PrismaError "P2002"), s)
         | None =>
             match manga_findUnique mangaId s with
             | None => (Err (PrismaError "P2003"), s)
             | Some _ =>
                 let b := mkBookmark newId userId mangaId now in
                 (Ok b, set_bookmarks s (bookmarks s ++ [b]))
             end
         end.

Record ToggleResult := mkToggleResult {
  action : string;
  isBookmarked : bool
}.

Section BookmarkService.
Local Open Scope svc_scope.

(** checkBookmark(userId, mangaId): [{ isBookmarked, bookmarkId }] *)
Definition checkBookmark (userId mangaId : Id) : M (bool * option Id) :=
  bookmark <- read (bookmark_findUnique userId mangaId) ;;
  match bookmark with
  | Some b => ret (true, Some (b_id b))
  | None => ret (false, None)
  end.

(** toggleBookmark(userId, mangaId) *)
Definition toggleBookmark (userId mangaId : Id) (newId : Id) (now : Date)
  : M ToggleResult :=
  manga <- read (manga_findUnique mangaId) ;;
  match manga with
  | None => throw (AppError "Manga not found" 404)
  | Some _ =>
    existingBookmark <- read (bookmark_findUnique userId mangaId) ;;
    match existingBookmark with
    | Some _ =>
        bookmark_delete userId mangaId ;;;
        ret (mkToggleResult "removed" false)
    | None =>
        bookmark_create newId userId mangaId now ;;;
        ret (mkToggleResult "added" true)
    end
  end.

End BookmarkService.

(** ** readingHistory.service.js *)

Record ProgressData := mkProgressData {
  pd_currentPage : Z;
  pd_totalPages : Z;
  pd_isCompleted : option bool
}.

Definition history_findUnique (userId chapterId : Id) (s : Store)
  : option ReadingHistory :=
  find (fun h => String.eqb (h_userId h) userId
                 && String.eqb (h_chapterId h) chapterId)%bool
       (histories s).

(** prisma.readingHistory.upsert({ where: { userId_chapterId }, update,
    create }): the row of the pair is rewritten, or [create] is appended
    (refused on a used id and on a missing title). *)
Definition history_upsert (userId chapterId : Id)
           (update : ReadingHistory -> ReadingHistory)
           (create : ReadingHistory) : M ReadingHistory :=
  fun s =>
    match history_findUnique userId chapterId s with
    | Some h =>
        (Ok (update h),
         set_histories s
           (map (fun x => if (String.eqb (h_userId x) userId
                              && String.eqb (h_chapterId x) chapterId)%bool
                          then update x else x)
                (histories s)))
    | None =>
        if existsb (fun x => String.eqb (h_id x) (h_id create)) (histories s)
        then (Err (PrismaError "P2002"), s)
        else match manga_findUnique (h_mangaId create) s with
             | None => (Err (PrismaError "P2003"), s)
             | Some _ => (Ok create, set_histories s (histories s ++ [create]))
             end
    end.

(** [orderBy: { lastReadAt: 'desc' }]: a stable sort, rows of equal
    lastReadAt staying in table order. *)
Fixpoint insertDesc (x : ReadingHistory) (l : list ReadingHistory)
  : list ReadingHistory :=
  match l with
  | [] => [x]
  | y :: r =>
      if h_lastReadAt y <=? h_lastReadAt x then x :: y :: r
      else y :: insertDesc x r
  end.

Definition orderByLastReadAtDesc (l : list ReadingHistory)
  : list ReadingHistory :=
  fold_right insertDesc [] l.

(** [distinct: ['mangaId']]: Prisma keeps, in the order of the query, the
    first row of each mangaId. *)
Fixpoint distinctMangaId (seen : list Id) (l : list ReadingHistory)
  : list ReadingHistory :=
  match l with
  | [] => []
  | x :: r =>
      if existsb (String.eqb (h_mangaId x)) seen
      then distinctMangaId seen r
      else x :: distinctMangaId (h_mangaId x :: seen) r
  end.

(** An entry of the continue-reading list: the history row with its
    [manga] (relations flattened) and [chapter] includes. *)
Record HistoryItem := mkHistoryItem {
  hi_history : ReadingHistory;
  hi_manga : FormattedManga;
  hi_chapter : option Chapter
}.

(** [history.map(item => ({...item, manga: {...item.manga, authors:
    item.manga.authors.map(...), ...}}))]: reading [authors] of a null
    [item.manga] throws a TypeError. *)
Fixpoint formatHistory (s : Store) (l : list ReadingHistory)
  : Result (list HistoryItem) :=
  match l with
  | [] => Ok []
  | item :: r =>
      match manga_findUnique (h_mangaId item) s with
      | None => Err TypeError
      | Some m =>
          match formatHistory s r with
          | Err e => Err e
          | Ok items =>
              Ok (mkHistoryItem item (formatManga s m)
                    (chapter_findUnique (h_chapterId item) s) :: items)
          end
      end
  end.

Section ReadingHistoryService.
Local Open Scope svc_scope.

(** The rows the query of getContinueReading selects. *)
Definition continueReadingRows (userId : Id) (limit : nat) (s : Store)
  : list ReadingHistory :=
  firstn limit
    (distinctMangaId []
       (orderByLastReadAtDesc
          (filter (fun h => String.eqb (h_userId h) userId) (histories s)))).

(** getContinueReading(userId, limit = 10); [limit] is [parseInt(limit)]. *)
Definition getContinueReading (userId : Id) (limit : nat)
  : M (list HistoryItem) :=
  history <- read (continueReadingRows userId limit) ;;
  s <- get ;;
  lift (formatHistory s history).

(** saveProgress(userId, chapterId, progressData); a percentage that is
    not a finite number cannot be written and fails the upsert.  The page
    numbers are integers below 2^53, which parseInt and the double it
    returns represent exactly. *)
Definition saveProgress (userId chapterId : Id) (progressData : ProgressData)
           (newId : Id) (now : Date) : M ReadingHistory :=
  let currentPage := pd_currentPage progressData in
  let totalPages := pd_totalPages progressData in
  let isCompleted := pd_isCompleted progressData in
  chapter <- read (chapter_findUnique chapterId) ;;
  match chapter with
  | None => throw (AppError "Chapter not found" 404)
  | Some chapter =>
    match progressPercentOf currentPage totalPages with
    | None => throw (PrismaError "validation")
    | Some progressPercent =>
      let completed :=
        (match isCompleted with Some true => true | _ => false end
         || (100 <=? progressPercent))%bool in
      history <-
        history_upsert userId chapterId
          (fun h => mkReadingHistory (h_id h) (h_userId h) (h_chapterId h)
                      (h_mangaId h) currentPage totalPages progressPercent
                      completed now)
          (mkReadingHistory newId userId chapterId (c_mangaId chapter)
             currentPage totalPages progressPercent completed now) ;;
      chapter_update chapterId
        (fun c => set_c_totalViews c (c_totalViews c + 1)) ;;;
      manga_update (c_mangaId chapter)
        (fun m => set_counters m (m_totalChapters m) (m_totalViews m + 1)
                               (m_lastChapterAt m)) ;;;
      ret history
    end
  end.

End ReadingHistoryService.

(** ** A concrete set of collaborators, for the worked examples

    Stand-ins for the third-party functions, used by the worked examples
    only (the theorems hold for every [Collaborators]): slugify with
    createSlug's options on ASCII letters, digits and spaces, parseFloat on
    plain decimal literals, uploads that always succeed.  They are not the
    library functions (no exponent in a number, no transliteration of "&"
    in a slug); the examples stay on inputs where they agree with them, and
    pass arrays, never JSON text. *)

Definition is_alnum (c : ascii) : bool :=
  let n := nat_of_ascii c in
  ((Nat.leb 48 n && Nat.leb n 57) || (Nat.leb 65 n && Nat.leb n 90)
   || (Nat.leb 97 n && Nat.leb n 122))%bool.

Definition lower (c : ascii) : ascii :=
  let n := nat_of_ascii c in
  if (Nat.leb 65 n && Nat.leb n 90)%bool then ascii_of_nat (n + 32) else c.

(** The strict filter: letters and digits stay (lower-cased), white space
    and the replacement character become a space, the rest is removed. *)
Fixpoint slug_chars (s : string) : string :=
  match s with
  | EmptyString => EmptyString
  | String c r =>
      if is_alnum c then String (lower c) (slug_chars r)
      else if (is_space c || Ascii.eqb c "-"%char)%bool
           then String " "%char (slug_chars r)
           else slug_chars r
  end.

(** Runs of spaces become one "-". *)
Fixpoint dashes (inRun : bool) (s : string) : string :=
  match s with
  | EmptyString => EmptyString
  | String c r =>
      if is_space c
      then (if inRun then dashes true r else String "-"%char (dashes true r))
      else String c (dashes false r)
  end.

Definition slugify_ascii (text : string) : string :=
  dashes false (trim (slug_chars text)).

Definition digit_of (c : ascii) : option Z :=
  let n := nat_of_ascii c in
  if (Nat.leb 48 n && Nat.leb n 57)%bool then Some (Z.of_nat (n - 48)) else None.

(** Digits read into a numerator and a power of ten: [any] tells whether a
    digit was read, [afterPoint] whether the point was passed. *)
Fixpoint decimal (s : string) (num : Z) (den : positive)
         (any afterPoint : bool) : option Q :=
  match s with
  | EmptyString => if any then Some (Qmake num den) else None
  | String c r =>
      match digit_of c with
      | Some d =>
          decimal r (10 * num + d) (if afterPoint then 10 * den else den)%positive
                  true afterPoint
      | None =>
          if (Ascii.eqb c "."%char && negb afterPoint)%bool
          then decimal r num den any true
          else if any then Some (Qmake num den) else None
      end
  end.

Definition parseFloat_decimal (text : string) : option Q :=
  decimal (ltrim text) 0 1 false false.

Definition exampleCollaborators : Collaborators :=
  {| File := string;
     slugify := slugify_ascii;
     parseFloat := parseFloat_decimal;
     JSON_parse := fun _ => None;
     JSON_throws := fun _ => true;
     uploadMultiple := fun files folder =>
                         Ok (map (fun f => folder ++ "/" ++ f) files);
     uploadSingleImage := fun f folder => Ok (folder ++ "/" ++ f) |}.

(** A title with no chapters yet. *)
Definition exampleManga (id title slug uploaderId : string)
           (approval : ApprovalStatus) (totalChapters : Z) : Manga :=
  mkManga id title slug [] None None None ONGOING None approval uploaderId
          totalChapters 0 None.

Definition exampleChapter (id mangaId : Id) (number : Q) (slug : string)
  : Chapter :=
  mkChapter id mangaId number "Chapter" slug ["p1.png"] 1 0 PUBLISHED 1000.

(** One title of uploader "alice" with its chapter 1. *)
Definition storeA : Store :=
  mkStore [exampleManga "m1" "One Piece" "one-piece" "alice" APPROVED 1]
          [exampleChapter "c1" "m1" (1 # 1) "one-piece-ch-1"]
          [] [] [] [] [] [] [].

(** The reading list of user "bob": three progress records over two
    titles. *)
Definition storeB : Store :=
  mkStore [exampleManga "m1" "One Piece" "one-piece" "alice" APPROVED 2;
           exampleManga "m2" "Berserk" "berserk" "alice" APPROVED 1]
          [exampleChapter "c1" "m1" (1 # 1) "one-piece-ch-1";
           exampleChapter "c2" "m1" (2 # 1) "one-piece-ch-2";
           exampleChapter "c3" "m2" (1 # 1) "berserk-ch-1"]
          []
          [mkReadingHistory "h1" "bob" "c1" "m1" 10 10 100 true 100;
           mkReadingHistory "h2" "bob" "c3" "m2" 5 20 25 false 300;
           mkReadingHistory "h3" "bob" "c2" "m1" 3 10 30 false 200]
          [] [] [] [] [].

(** Five approved titles and one pending. *)
Definition storeC : Store :=
  mkStore [exampleManga "m1" "A" "a" "alice" APPROVED 0;
           exampleManga "m2" "B" "b" "alice" APPROVED 0;
           exampleManga "m3" "C" "c" "alice" PENDING 0;
           exampleManga "m4" "D" "d" "alice" APPROVED 0;
           exampleManga "m5" "E" "e" "alice" APPROVED 0;
           exampleManga "m6" "F" "f" "alice" APPROVED 0]
          [] [] [] [] [] [] [] [].

(** Update data that names one column. *)
Definition retitle (title : string) : MangaPatch :=
  mkMangaPatch (Some title) None None None None None None None None None
               None None None.

Definition retitleChapter (title : string) : ChapterPatch :=
  mkChapterPatch None None (Some title) None None None None None None.




(** * The rest of the services *)

(** ** Ordered and paged queries *)

Inductive SortOrder := Asc | Desc.

(** The [order] of an orderBy clause: Prisma accepts 'asc' and 'desc'. *)
Definition sortOrder_of (order : string) : option SortOrder :=
  if String.eqb order "asc" then Some Asc
  else if String.eqb order "desc" then Some Desc
  else None.

(** The database's order on a numeric or date column. *)
Definition byZ {A} (col : A -> Z) (o : SortOrder) (x y : A) : bool :=
  match o with
  | Asc => col x <=? col y
  | Desc => col y <=? col x
  end.

(** On a decimal column (chapterNumber). *)
Definition byQ {A} (col : A -> Q) (o : SortOrder) (x y : A) : bool :=
  match o with
  | Asc => Qle_bool (col x) (col y)
  | Desc => Qle_bool (col y) (col x)
  end.

(** A stable sort: [before x y] tells that row [x] may stand before row
    [y]; rows the order does not separate stay in table order. *)
Fixpoint insertBy {A} (before : A -> A -> bool) (x : A) (l : list A) : list A :=
  match l with
  | [] => [x]
  | y :: r => if before x y then x :: y :: r else y :: insertBy before x r
  end.

Definition sortRows {A} (before : A -> A -> bool) (l : list A) : list A :=
  fold_right (insertBy before) [] l.

(** [skip] and [take] of a findMany on the rows its where and orderBy
    select.  Prisma refuses a value that is not an integer (NaN) and a
    negative [skip]; a negative [take] counts from the end of the rows. *)
Definition page_of {A} (skip take : option Z) (rows : list A)
  : Result (list A) :=
  match skip, take with
  | Some skip, Some take =>
      if skip <? 0 then Err (PrismaError "validation")
      else if 0 <=? take
      then Ok (firstn (Z.to_nat take) (skipn (Z.to_nat skip) rows))
      else Ok (rev (firstn (Z.to_nat (- take))
                           (skipn (Z.to_nat skip) (rev rows))))
  | _, _ => Err (PrismaError "validation")
  end.

(** prisma.X.findMany({ where, skip, take, orderBy }); [orderBy] is [None]
    when Prisma refuses the clause. *)
Definition findMany {A} (where_ : A -> bool)
           (orderBy : option (A -> A -> bool)) (skip take : option Z)
           (table : list A) : Result (list A) :=
  match orderBy with
  | None => Err (PrismaError "validation")
  | Some before => page_of skip take (sortRows before (filter where_ table))
  end.

(** [Math.ceil x] on the exact value of the float; [None] stands for NaN
    and the infinities, which JSON prints as null. *)
Definition Math_ceil (x : float) : option Z :=
  match Prim2SF x with
  | S754_zero _ => Some 0
  | S754_finite sign m e =>
      let v := if sign then Zneg m else Zpos m in
      if 0 <=? e then Some (v * 2 ^ e)
      else Some (- ((- v) / 2 ^ (- e)))
  | _ => None
  end.

(** The query of a list request: each field absent (the default applies)
    or given; [q_page] and [q_limit] hold the value parseInt gives the text,
    [None] being NaN.  The integers are far below 2^53, where the
    arithmetic of JavaScript numbers is exact. *)
Record ListQuery := mkListQuery {
  q_page : option (option Z);
  q_limit : option (option Z);
  q_sortBy : option string;
  q_order : option string
}.

Record Pagination := mkPagination {
  pg_page : Z;
  pg_limit : Z;
  pg_total : Z;
  pg_pages : option Z
}.

(** [(parseInt(page) - 1) * parseInt(limit)] *)
Definition skipOf (page limit : option Z) : option Z :=
  match page, limit with
  | Some p, Some l => Some ((p - 1) * l)
  | _, _ => None
  end.

(** [{ page: parseInt(page), limit: parseInt(limit), total,
      pages: Math.ceil(total / parseInt(limit)) }]; a NaN page or limit has
    failed the query before. *)
Definition paginationOf (page limit : option Z) (total : Z)
  : Result Pagination :=
  match page, limit with
  | Some p, Some l =>
      Ok (mkPagination p l total
            (Math_ceil (PrimFloat.div (number_of_Z total) (number_of_Z l))))
  | _, _ => Err (PrismaError "validation")
  end.

(** An orderBy on a column that is text, or that the rows of this model do
    not carry: the order the database applies, [None] when Prisma refuses
    the name. *)
Class Database := {
  bookmark_otherOrder : string -> SortOrder -> option (Bookmark -> Bookmark -> bool);
  history_otherOrder :
    string -> SortOrder -> option (ReadingHistory -> ReadingHistory -> bool);
  chapter_otherOrder : string -> SortOrder -> option (Chapter -> Chapter -> bool)
}.

(** ** bookmark.service.js, the other functions *)

(** A bookmark of a response with its [manga] include, relations
    flattened. *)
Record BookmarkItem := mkBookmarkItem {
  bi_bookmark : Bookmark;
  bi_manga : FormattedManga
}.

(** [bookmarks.map(bookmark => ({...bookmark, manga: {...bookmark.manga,
    authors: bookmark.manga.authors.map(...), ...}}))]: a null
    [bookmark.manga] throws a TypeError. *)
Fixpoint formatBookmarks (s : Store) (l : list Bookmark)
  : Result (list BookmarkItem) :=
  match l with
  | [] => Ok []
  | bookmark :: r =>
      match manga_findUnique (b_mangaId bookmark) s with
      | None => Err TypeError
      | Some m =>
          match formatBookmarks s r with
          | Err e => Err e
          | Ok items => Ok (mkBookmarkItem bookmark (formatManga s m) :: items)
          end
      end
  end.

Section BookmarkServiceRest.
Context {D : Database}.
Local Open Scope svc_scope.

(** addBookmark(userId, mangaId); [newId] and [now] are the id and the
    createdAt the database gives the row. *)
Definition addBookmark (userId mangaId : Id) (newId : Id) (now : Date)
  : M BookmarkItem :=
  manga <- read (manga_findUnique mangaId) ;;
  match manga with
  | None => throw (AppError "Manga not found" 404)
  | Some _ =>
    existingBookmark <- read (bookmark_findUnique userId mangaId) ;;
    match existingBookmark with
    | Some _ => throw (AppError "Manga already bookmarked" 400)
    | None =>
        bookmark <- bookmark_create newId userId mangaId now ;;
        s <- get ;;
        items <- lift (formatBookmarks s [bookmark]) ;;
        match items with
        | item :: _ => ret item
        | [] => throw TypeError
        end
    end
  end.

(** removeBookmark(userId, mangaId) *)
Definition removeBookmark (userId mangaId : Id) : M bool :=
  bookmark <- read (bookmark_findUnique userId mangaId) ;;
  match bookmark with
  | None => throw (AppError "Bookmark not found" 404)
  | Some _ => bookmark_delete userId mangaId ;;; ret true
  end.

(** [orderBy: { [sortBy]: order }] on the Bookmark table. *)
Definition bookmark_orderBy (sortBy order : string)
  : option (Bookmark -> Bookmark -> bool) :=
  match sortOrder_of order with
  | None => None
  | Some o =>
      if String.eqb sortBy "createdAt" then Some (byZ b_createdAt o)
      else bookmark_otherOrder sortBy o
  end.

(** getUserBookmarks(userId, filters) *)
Definition getUserBookmarks (userId : Id) (filters : ListQuery)
  : M (list BookmarkItem * Pagination) :=
  let page := match q_page filters with Some v => v | None => Some 1 end in
  let limit := match q_limit filters with Some v => v | None => Some 20 end in
  let sortBy := match q_sortBy filters with Some v => v | None => "createdAt" end in
  let order := match q_order filters with Some v => v | None => "desc" end in
  let skip := skipOf page limit in
  let take := limit in
  let mine b := String.eqb (b_userId b) userId in
  total <- read (fun s => Z.of_nat (List.length (filter mine (bookmarks s)))) ;;
  s <- get ;;
  bookmarks <- lift (findMany mine (bookmark_orderBy sortBy order) skip take
                              (bookmarks s)) ;;
  formattedBookmarks <- lift (formatBookmarks s bookmarks) ;;
  pagination <- lift (paginationOf page limit total) ;;
  ret (formattedBookmarks, pagination).

End BookmarkServiceRest.

(** ** readingHistory.service.js, the other functions *)

(** prisma.readingHistory.findUnique({ where: { id } }) *)
Definition history_findById (id : Id) (s : Store) : option ReadingHistory :=
  find (fun h => String.eqb (h_id h) id) (histories s).

(** prisma.readingHistory.delete({ where: { id } }) *)
Definition history_delete (id : Id) : M unit :=
  fun s =>
    match history_findById id s with
    | None => (Err (PrismaError "P2025"), s)
    | Some _ =>
        (Ok tt,
         set_histories s
           (filter (fun h => negb (String.eqb (h_id h) id)) (histories s)))
    end.

(** prisma.readingHistory.deleteMany({ where }): no row is not an error. *)
Definition history_deleteMany (where_ : ReadingHistory -> bool) : M unit :=
  fun s =>
    (Ok tt, set_histories s (filter (fun h => negb (where_ h)) (histories s))).

(** A history row with its [chapter] include. *)
Definition HistoryWithChapter : Type := ReadingHistory * option Chapter.

(** What getMangaProgress answers when the user has read the title;
    [pr_progressPercent] is [None] for a number JSON cannot print. *)
Record MangaProgress := mkMangaProgress {
  pr_lastRead : HistoryWithChapter;
  pr_totalChapters : Z;
  pr_readChapters : Z;
  pr_progressPercent : option Z;
  pr_allHistory : list HistoryWithChapter
}.

Section ReadingHistoryServiceRest.
Context {D : Database}.
Local Open Scope svc_scope.

(** [orderBy: { [sortBy]: order }] on the ReadingHistory table. *)
Definition history_orderBy (sortBy order : string)
  : option (ReadingHistory -> ReadingHistory -> bool) :=
  match sortOrder_of order with
  | None => None
  | Some o =>
      if String.eqb sortBy "lastReadAt" then Some (byZ h_lastReadAt o)
      else if String.eqb sortBy "currentPage" then Some (byZ h_currentPage o)
      else if String.eqb sortBy "totalPages" then Some (byZ h_totalPages o)
      else if String.eqb sortBy "progressPercent"
      then Some (byZ h_progressPercent o)
      else history_otherOrder sortBy o
  end.

(** getReadingHistory(userId, filters); [mangaId] is the filter of that
    name, which counts when it is a non-empty text. *)
Definition getReadingHistory (userId : Id) (filters : ListQuery)
           (mangaId : option Id) : M (list HistoryItem * Pagination) :=
  let page := match q_page filters with Some v => v | None => Some 1 end in
  let limit := match q_limit filters with Some v => v | None => Some 20 end in
  let sortBy := match q_sortBy filters with Some v => v | None => "lastReadAt" end in
  let order := match q_order filters with Some v => v | None => "desc" end in
  let skip := skipOf page limit in
  let take := limit in
  let where_ h :=
    match mangaId with
    | Some (String a t) =>
        (String.eqb (h_userId h) userId
         && String.eqb (h_mangaId h) (String a t))%bool
    | _ => String.eqb (h_userId h) userId
    end in
  total <- read (fun s => Z.of_nat (List.length (filter where_ (histories s)))) ;;
  s <- get ;;
  history <- lift (findMany where_ (history_orderBy sortBy order) skip take
                            (histories s)) ;;
  formattedHistory <- lift (formatHistory s history) ;;
  pagination <- lift (paginationOf page limit total) ;;
  ret (formattedHistory, pagination).

(** getMangaProgress(userId, mangaId): null when the user has no record
    for the title. *)
Definition getMangaProgress (userId mangaId : Id) : M (option MangaProgress) :=
  history <-
    read (fun s =>
            map (fun h => (h, chapter_findUnique (h_chapterId h) s))
                (orderByLastReadAtDesc
                   (filter (fun h => String.eqb (h_userId h) userId
                                     && String.eqb (h_mangaId h) mangaId)%bool
                           (histories s)))) ;;
  match history with
  | [] => ret None
  | lastRead :: _ =>
    manga <- read (manga_findUnique mangaId) ;;
    s <- get ;;
    let totalChapters :=
      match manga with
      | Some _ =>
          Z.of_nat (List.length
                      (filter (fun c => String.eqb (c_mangaId c) mangaId)
                              (chapters s)))
      | None => 0
      end in
    let readChapters :=
      Z.of_nat (List.length (filter (fun h => h_isCompleted (fst h)) history)) in
    ret (Some (mkMangaProgress lastRead totalChapters readChapters
                 (progressPercentOf readChapters totalChapters) history))
  end.

(** deleteHistory(userId, historyId) *)
Definition deleteHistory (userId historyId : Id) : M bool :=
  history <- read (history_findById historyId) ;;
  match history with
  | None => throw (AppError "Reading history not found" 404)
  | Some history =>
    if negb (String.eqb (h_userId history) userId)
    then throw (AppError "Not authorized to delete this history" 403)
    else history_delete historyId ;;; ret true
  end.

(** clearAllHistory(userId) *)
Definition clearAllHistory (userId : Id) : M bool :=
  history_deleteMany (fun h => String.eqb (h_userId h) userId) ;;;
  ret true.

(** clearMangaHistory(userId, mangaId) *)
Definition clearMangaHistory (userId mangaId : Id) : M bool :=
  history_deleteMany (fun h => String.eqb (h_userId h) userId
                               && String.eqb (h_mangaId h) mangaId)%bool ;;;
  ret true.

End ReadingHistoryServiceRest.

(** ** chapter.service.js and chapter.controller.js, the other functions *)

Definition ChapterStatus_eqb (a b : ChapterStatus) : bool :=
  match a, b with
  | DRAFT, DRAFT | PUBLISHED, PUBLISHED => true
  | _, _ => false
  end.

(** [manga: { select: { id, title, slug, thumbnail } }] *)
Record MangaSummary := mkMangaSummary {
  ms_id : Id;
  ms_title : string;
  ms_slug : string;
  ms_thumbnail : option string
}.

Definition summaryOf (m : Manga) : MangaSummary :=
  mkMangaSummary (m_id m) (m_title m) (m_slug m) (m_thumbnail m).

(** prisma.chapter.findFirst({ where: { slug, status: 'PUBLISHED' },
    include: { manga } }) *)
Definition chapter_findPublished (slug : string) (s : Store)
  : option (Chapter * option MangaSummary) :=
  match find (fun c => String.eqb (c_slug c) slug
                       && ChapterStatus_eqb (c_status c) PUBLISHED)%bool
             (chapters s) with
  | Some c => Some (c, option_map summaryOf (manga_findUnique (c_mangaId c) s))
  | None => None
  end.

Section ChapterServiceRest.
Context {D : Database}.
Local Open Scope svc_scope.

(** chapter.service.js: getChapterBySlug(slug) *)
Definition getChapterBySlug (slug : string)
  : M (Chapter * option MangaSummary) :=
  chapter <- read (chapter_findPublished slug) ;;
  match chapter with
  | None => throw (AppError "Chapter not found" 404)
  | Some chapter => ret chapter
  end.

(** chapter.controller.js: exports.getChapterBySlug; [user] is [req.user]'s
    id when optionalAuth has set it, [newId] the id of the ChapterView
    row.  The response carries the chapter as it was read. *)
Definition getChapterBySlug_controller (slug : string) (user : option Id)
           (newId : Id) : M (Chapter * option MangaSummary) :=
  chapter <- read (chapter_findPublished slug) ;;
  match chapter with
  | None => throw (AppError "Chapter not found" 404)
  | Some chapter =>
    chapter_update (c_id (fst chapter))
      (fun c => set_c_totalViews c (c_totalViews c + 1)) ;;;
    manga_update (c_mangaId (fst chapter))
      (fun m => set_counters m (m_totalChapters m) (m_totalViews m + 1)
                             (m_lastChapterAt m)) ;;;
    match user with
    | Some userId => chapterView_create newId (c_id (fst chapter)) userId
    | None => ret tt
    end ;;;
    ret chapter
  end.

(** [orderBy: { [sortBy]: order }] on the Chapter table. *)
Definition chapter_orderBy (sortBy order : string)
  : option (Chapter -> Chapter -> bool) :=
  match sortOrder_of order with
  | None => None
  | Some o =>
      if String.eqb sortBy "chapterNumber" then Some (byQ c_chapterNumber o)
      else if String.eqb sortBy "publishedAt" then Some (byZ c_publishedAt o)
      else if String.eqb sortBy "totalViews" then Some (byZ c_totalViews o)
      else if String.eqb sortBy "totalImages" then Some (byZ c_totalImages o)
      else chapter_otherOrder sortBy o
  end.

(** getChaptersByMangaId(mangaId, options = {}), the rows before the
    [select] picks their columns. *)
Definition getChaptersByMangaId (mangaId : Id) (sortBy order : option string)
  : M (list Chapter) :=
  let sortBy := match sortBy with Some v => v | None => "chapterNumber" end in
  let order := match order with Some v => v | None => "asc" end in
  s <- get ;;
  match chapter_orderBy sortBy order with
  | None => throw (PrismaError "validation")
  | Some before =>
      ret (sortRows before
             (filter (fun c => String.eqb (c_mangaId c) mangaId
                               && ChapterStatus_eqb (c_status c) PUBLISHED)%bool
                     (chapters s)))
  end.

End ChapterServiceRest.

(** ** manga.service.js, the read functions *)

(** prisma.manga.findUnique({ where: { slug } }) *)
Definition manga_findBySlug (slug : string) (s : Store) : option Manga :=
  find (fun m => String.eqb (m_slug m) slug) (mangas s).

(** A title with the includes of getMangaBySlug: relations flattened, and
    the published chapters by ascending number. *)
Record MangaDetail := mkMangaDetail {
  d_manga : FormattedManga;
  d_chapters : list Chapter
}.

(** An entry of getRecentManga: [latestChapter: m.chapters[0] || null]. *)
Record RecentManga := mkRecentManga {
  rm_manga : FormattedManga;
  rm_latestChapter : option Chapter
}.

(** [orderBy: { lastChapterAt: 'desc' }] on rows whose lastChapterAt is
    not null. *)
Definition lastChapterAt_desc (x y : Manga) : bool :=
  match m_lastChapterAt x, m_lastChapterAt y with
  | Some a, Some b => b <=? a
  | _, _ => true
  end.

Section MangaServiceRest.
Local Open Scope svc_scope.

(** getMangaBySlug(slug) *)
Definition getMangaBySlug (slug : string) : M MangaDetail :=
  manga <- read (manga_findBySlug slug) ;;
  match manga with
  | None => throw (AppError "Manga not found" 404)
  | Some manga =>
    s <- get ;;
    ret (mkMangaDetail
           (formatManga s manga)
           (sortRows (byQ c_chapterNumber Asc)
              (filter (fun c => String.eqb (c_mangaId c) (m_id manga)
                                && ChapterStatus_eqb (c_status c) PUBLISHED)%bool
                      (chapters s))))
  end.

(** getRecentManga(limit = 20); [limit] is [parseInt(limit)]. *)
Definition getRecentManga (limit : nat) (s : Store) : list RecentManga :=
  let manga :=
    firstn limit
      (sortRows lastChapterAt_desc
         (filter (fun m => ApprovalStatus_eqb (m_approvalStatus m) APPROVED
                           && match m_lastChapterAt m with
                              | Some _ => true
                              | None => false
                              end)%bool
                 (mangas s))) in
  map (fun m =>
         mkRecentManga
           (formatManga s m)
           (hd_error
              (sortRows (byZ c_publishedAt Desc)
                 (filter (fun c => String.eqb (c_mangaId c) (m_id m))
                         (chapters s)))))
      manga.

End MangaServiceRest.

(** ** auth.middleware.js and the guarded routes *)




Section Routes.
Local Open Scope svc_scope.

(** The handlers of manga.controller.js and chapter.controller.js behind
    these routes repeat the service functions of the same name statement
    for statement, with [req.user.id] and [req.user.role] for [userId] and
    [userRole] and [req.body] for [updateData]. *)





End Routes.

(** ** upload.service.js

    The functions behind the [uploadMultiple] and [uploadSingleImage] the
    services call.  The helpers of config/cloudinary.js, which talk to
    Cloudinary, are parameters: each answers a value, or the message of the
    Error it throws. *)

Module UploadService.

(** A file as multer hands it over; [buffer] is the buffer of memory
    storage, as the text [toString('base64')] gives. *)
Record UploadFile := mkUploadFile {
  originalname : string;
  mimetype : string;
  size : Z;
  path : option string;
  buffer : option string
}.

(** The [result] of cloudinary.uploader.upload. *)
Record CloudImage := mkCloudImage {
  secure_url : string;
  public_id : string;
  width : Z;
  height : Z;
  format : string
}.

(** What uploadSingleImage returns. *)
Record Uploaded := mkUploaded {
  url : string;
  publicId : string;
  up_width : Z;
  up_height : Z;
  up_format : string
}.

Definition allowedTypes : list string :=
  ["image/jpeg"; "image/jpg"; "image/png"; "image/webp"].

Definition maxSize : Z := 10 * 1024 * 1024.

(** The catch of both functions:
    [throw new AppError(error.message || 'Upload failed',
                        error.statusCode || 500)]. *)
Definition rethrow (message : string) (statusCode : option Z) : Error :=
  AppError (if nonEmpty message then message else "Upload failed")
           (match statusCode with
            | Some c => if c =? 0 then 500 else c
            | None => 500
            end).

(** The path of disk storage, or the data URI of memory storage. *)
Definition fileData (file : UploadFile) : option string :=
  match path file with
  | Some (String a t) => Some (String a t)
  | _ =>
      match buffer file with
      | Some base64 => Some ("data:" ++ mimetype file ++ ";base64," ++ base64)
      | None => None
      end
  end.

(** The loop that validates all files: the first offence found. *)
Fixpoint firstOffence (files : list UploadFile) : option Error :=
  match files with
  | [] => None
  | file :: rest =>
      if negb (existsb (String.eqb (mimetype file)) allowedTypes)
      then Some (rethrow ("Invalid file type: " ++ originalname file) (Some 400))
      else if maxSize <? size file
      then Some (rethrow ("File too large: " ++ originalname file) (Some 400))
      else firstOffence rest
  end.

(** [files.map(file => ...)]: the data of each file, or the throw at the
    first file that has none. *)
Fixpoint filePaths (files : list UploadFile) : Result (list string) :=
  match files with
  | [] => Ok []
  | file :: rest =>
      match fileData file with
      | None =>
          Err (rethrow ("Invalid file data: " ++ originalname file) (Some 400))
      | Some data =>
          match filePaths rest with
          | Ok paths => Ok (data :: paths)
          | Err e => Err e
          end
      end
  end.

Section Cloudinary.
Variable uploadImage : string -> string -> CloudImage + string.
Variable uploadMultipleImages : list string -> string -> list string + string.

(** uploadSingleImage(file, folder = 'manga') *)
Definition uploadSingleImage (file : option UploadFile) (folder : option string)
  : Result Uploaded :=
  let folder := match folder with Some f => f | None => "manga" end in
  match file with
  | None => Err (rethrow "No file provided" (Some 400))
  | Some file =>
      if negb (existsb (String.eqb (mimetype file)) allowedTypes)
      then Err (rethrow "Invalid file type. Only JPEG, PNG, and WebP are allowed"
                        (Some 400))
      else if maxSize <? size file
      then Err (rethrow "File too large. Maximum size is 10MB" (Some 400))
      else
        match fileData file with
        | None => Err (rethrow "Invalid file data" (Some 400))
        | Some data =>
            match uploadImage data folder with
            | inl result =>
                Ok (mkUploaded (secure_url result) (public_id result)
                               (width result) (height result) (format result))
            | inr message => Err (rethrow message None)
            end
        end
  end.

(** uploadMultiple(files, folder = 'manga') *)
Definition uploadMultiple (files : option (list UploadFile))
           (folder : option string) : Result (list string) :=
  let folder := match folder with Some f => f | None => "manga" end in
  match files with
  | None | Some [] => Err (rethrow "No files provided" (Some 400))
  | Some files =>
      match firstOffence files with
      | Some e => Err e
      | None =>
          match filePaths files with
          | Err e => Err e
          | Ok paths =>
              match uploadMultipleImages paths folder with
              | inl results => Ok results
              | inr message => Err (rethrow message None)
              end
          end
      end
  end.

End Cloudinary.

(** [url.split('/')] and the like: the pieces between the separators. *)
Fixpoint splitBy (sep : ascii) (s : string) : list string :=
  match s with
  | EmptyString => [""]
  | String c r =>
      if Ascii.eqb c sep then "" :: splitBy sep r
      else match splitBy sep r with
           | piece :: pieces => String c piece :: pieces
           | [] => [String c ""]
           end
  end.

(** [parts.indexOf(x)], [None] being -1. *)
Fixpoint indexOf (x : string) (parts : list string) : option nat :=
  match parts with
  | [] => None
  | y :: rest =>
      if String.eqb y x then Some O else option_map S (indexOf x rest)
  end.

(** [s.lastIndexOf(c)], [None] being -1. *)
Fixpoint lastIndexOf (c : ascii) (s : string) : option nat :=
  match s with
  | EmptyString => None
  | String a r =>
      match lastIndexOf c r with
      | Some i => Some (S i)
      | None => if Ascii.eqb a c then Some O else None
      end
  end.

(** extractPublicId(url), [None] being null; substring(0, -1) is the empty
    text. *)
Definition extractPublicId (url : string) : option string :=
  let parts := splitBy "/" url in
  match indexOf "upload" parts with
  | None => None
  | Some uploadIndex =>
      let publicIdParts := skipn (uploadIndex + 2) parts in
      let publicIdWithExt := String.concat "/" publicIdParts in
      Some (match lastIndexOf "." publicIdWithExt with
            | Some i => substring 0 i publicIdWithExt
            | None => ""
            end)
  end.

End UploadService.

(** * Vocabulary of the properties *)

(** ** Reading progress *)

(** The stored percentage is the formula's value, or one less where
    100 * currentPage / totalPages falls exactly half-way between two
    integers. *)
Definition agreesUpToTies (currentPage totalPages : Z) : bool :=
  match progressPercentOf currentPage totalPages with
  | Some p =>
      (p =? spec_progressPercent currentPage totalPages)
      || (((200 * currentPage) mod (2 * totalPages) =? totalPages)
          && (p =? spec_progressPercent currentPage totalPages - 1))
  | None => false
  end.

(** [agreesUpToTies] on every page of every chapter of up to [n] pages. *)
Definition agreesOnChaptersUpTo (n : nat) : bool :=
  forallb (fun t => forallb (fun c => agreesUpToTies (Z.of_nat c) (Z.of_nat t))
                            (seq 0 (S t)))
          (seq 1 n).

(** ** The ownership guard *)

(** [principal.role == ADMIN or principal.id == resource.ownerId] *)
Definition mayMutate (userId : Id) (userRole : Role) (ownerId : Id) : Prop :=
  userRole = ADMIN \/ userId = ownerId.


(** ** Bookmarks *)

(** The [isBookmarked] that checkBookmark answers. *)
Definition bookmarked (userId mangaId : Id) (s : Store) : bool :=
  match fst (checkBookmark userId mangaId s) with
  | Ok (b, _) => b
  | Err _ => false
  end.

(** ** The chapter counter *)

(** The chapters whose mangaId references the title. *)
Definition chaptersOf (mangaId : Id) (s : Store) : list Chapter :=
  filter (fun c => String.eqb (c_mangaId c) mangaId) (chapters s).

(** Every title's totalChapters is the number of its chapters. *)
Definition chapterCount_ok (s : Store) : Prop :=
  forall m, In m (mangas s) ->
            m_totalChapters m = Z.of_nat (List.length (chaptersOf (m_id m) s)).

(** The primary key of the Chapter table. *)
Definition chapterIds_unique (s : Store) : Prop :=
  NoDup (map c_id (chapters s)).

(** The totalChapters column of the title of that id. *)
Definition totalChaptersOf (mangaId : Id) (s : Store) : option Z :=
  option_map m_totalChapters (manga_findUnique mangaId s).

Definition succeeded {A} (r : Result A) : bool :=
  match r with Ok _ => true | Err _ => false end.



(** Whether a call completed, and the store it leaves. *)
Definition outcome {A} (r : Result A * Store) : bool * Store :=
  (succeeded (fst r), snd r).

Section ServiceOperations.
Context {X : Collaborators}.

(** The operations that write the store, each with its arguments: the
    functions of chapter.service.js, manga.service.js, bookmark.service.js
    and readingHistory.service.js that write, and the handlers
    getChapterBySlug and createManga of the controllers.  The other handlers
    that write the Manga or the Chapter table (createChapter, updateChapter,
    deleteChapter, updateManga, deleteManga) repeat the service function of
    the same name, so that every write to these two tables is covered.  Left
    out is trackReadingProgress, which writes progress records only. *)
Inductive ServiceOp :=
| CreateChapter (mangaId : Id) (chapterData : ChapterData)
                (files : option (list File)) (userId : Id) (userRole : Role)
                (newId : Id) (now1 now2 : Date)
| DeleteChapter (chapterId userId : Id) (userRole : Role)
| UpdateChapter (chapterId : Id) (updateData : ChapterPatch)
                (userId : Id) (userRole : Role)
| GetChapterBySlug (slug : string) (user : option Id) (newId : Id)
| IncrementChapterViews (chapterId mangaId : Id) (userId : option Id)
                        (newId : Id)
| CreateManga (mangaData : MangaData) (files : option MangaFiles)
              (userId : Id) (userRole : Role) (idOf : nat -> Id)
| CreateMangaHandler (body : MangaData) (files : option MangaFiles)
                     (userId : Id) (userRole : Role) (idOf : nat -> Id)
| UpdateManga (mangaId : Id) (updateData : MangaPatch)
              (userId : Id) (userRole : Role)
| DeleteManga (mangaId userId : Id) (userRole : Role)
| SaveProgress (userId chapterId : Id) (progressData : ProgressData)
               (newId : Id) (now : Date)
| DeleteHistory (userId historyId : Id)
| ClearAllHistory (userId : Id)
| ClearMangaHistory (userId mangaId : Id)
| AddBookmark (userId mangaId newId : Id) (now : Date)
| RemoveBookmark (userId mangaId : Id)
| ToggleBookmark (userId mangaId newId : Id) (now : Date).




(** Whether the operation completed, and the store it leaves. *)
Definition runOp (op : ServiceOp) (s : Store) : bool * Store :=
  match op with
  | CreateChapter mangaId chapterData files userId userRole newId now1 now2 =>
      outcome (createChapter mangaId chapterData files userId userRole
                             newId now1 now2 s)
  | DeleteChapter chapterId userId userRole =>
      outcome (deleteChapter chapterId userId userRole s)
  | UpdateChapter chapterId updateData userId userRole =>
      outcome (updateChapter chapterId updateData userId userRole s)
  | GetChapterBySlug slug user newId =>
      outcome (getChapterBySlug_controller slug user newId s)
  | IncrementChapterViews chapterId mangaId userId newId =>
      outcome (incrementChapterViews chapterId mangaId userId newId s)
  | CreateManga mangaData files userId userRole idOf =>
      outcome (createManga mangaData files userId userRole idOf s)
  | CreateMangaHandler body files userId userRole idOf =>
      outcome (createManga_controller body files userId userRole idOf s)
  | UpdateManga mangaId updateData userId userRole =>
      outcome (updateManga mangaId updateData userId userRole s)
  | DeleteManga mangaId userId userRole =>
      outcome (deleteManga mangaId userId userRole s)
  | SaveProgress userId chapterId progressData newId now =>
      outcome (saveProgress userId chapterId progressData newId now s)
  | DeleteHistory userId historyId =>
      outcome (deleteHistory userId historyId s)
  | ClearAllHistory userId =>
      outcome (clearAllHistory userId s)
  | ClearMangaHistory userId mangaId =>
      outcome (clearMangaHistory userId mangaId s)
  | AddBookmark userId mangaId newId now =>
      outcome (addBookmark userId mangaId newId now s)
  | RemoveBookmark userId mangaId =>
      outcome (removeBookmark userId mangaId s)
  | ToggleBookmark userId mangaId newId now =>
      outcome (toggleBookmark userId mangaId newId now s)
  end.

Fixpoint runOps (ops : list ServiceOp) (s : Store) : Store :=
  match ops with
  | [] => s
  | op :: rest => runOps rest (snd (runOp op s))
  end.


End ServiceOperations.

(** ** Continue reading *)

(** "At least as recent as": the order of the result. *)
Definition noOlder (a b : ReadingHistory) : Prop :=
  h_lastReadAt b <= h_lastReadAt a.

(** The titles a user has progress records for, each once. *)
Definition titlesRead (userId : Id) (s : Store) : list Id :=
  nodup string_dec
        (map h_mangaId
             (filter (fun h => String.eqb (h_userId h) userId) (histories s))).

(** ** The random sample *)

(** The draws Math.random can produce: [0 <= j <= i] at every index. *)
Definition validDraws (draw : nat -> nat) : Prop :=
  forall i, (draw i <= i)%nat.

(** One iteration seen from the end of the array [l ++ [x]]: the last cell
    receives the element drawn, the cell drawn receives [x]. *)
Definition snocStep {A} (j : nat) (l : list A) (x : A) : list A * A :=
  match nth_error l j with
  | Some y => (set_nth j x l, y)
  | None => (l, x)
  end.

(** The ids getRandomManga shuffles: those of the APPROVED titles. *)
Definition approvedIds (s : Store) : list Id :=
  map m_id
      (filter (fun m => ApprovalStatus_eqb (m_approvalStatus m) APPROVED)
              (mangas s)).

(** ** Title creation *)

(** The request with another title. *)
Definition withTitle (title : option string) (d : MangaData) : MangaData :=
  mkMangaData title (md_alternativeTitles d) (md_description d) (md_status d)
              (md_releaseYear d) (md_authorNames d) (md_genreNames d)
              (md_thumbnail d) (md_coverImage d).

(** No title of the store has that slug. *)
Definition slugUnused (slug : string) (s : Store) : Prop :=
  existsb (fun x => String.eqb (m_slug x) slug) (mangas s) = false.

(** Two runs, under the titles [t1] and [t2], that end the same way: both
    fail with the same error and no write, or both succeed, each having
    stored a Title of its name. *)
Definition sameOutcome (t1 t2 : string)
           (r1 r2 : Result (Manga * string) * Store) (s : Store) : Prop :=
  match fst r1, fst r2 with
  | Ok (m1, msg1), Ok (m2, msg2) =>
      m_title m1 = t1 /\ In m1 (mangas (snd r1))
      /\ m_title m2 = t2 /\ In m2 (mangas (snd r2))
      /\ msg1 = msg2
  | Err e1, Err e2 => e1 = e2 /\ snd r1 = s /\ snd r2 = s
  | _, _ => False
  end.

(** A creation request with contributors and tags, under no title yet. *)
Definition exampleRequest : MangaData :=
  mkMangaData None ArrUndefined (Some "Pirates.") None (Some 1997)
              (ArrArray ["Oda"]) (ArrArray ["Action"; "Adventure"]) None None.

(** ** Paged lists *)

(** The request of page [page], [limit] entries a page. *)
Definition pageQuery (page limit : nat) (sortBy order : option string)
  : ListQuery :=
  mkListQuery (Some (Some (Z.of_nat page))) (Some (Some (Z.of_nat limit)))
              sortBy order.

(** The order getUserBookmarks asks the database for. *)
Definition userBookmarksOrder {D : Database} (sortBy order : option string)
  : option (Bookmark -> Bookmark -> bool) :=
  bookmark_orderBy (match sortBy with Some v => v | None => "createdAt" end)
                   (match order with Some v => v | None => "desc" end).

(** The bookmarks on a page of a user's list; none when the request fails. *)
Definition bookmarksPage {D : Database} (userId : Id)
           (sortBy order : option string) (limit page : nat) (s : Store)
  : list Bookmark :=
  match fst (getUserBookmarks userId (pageQuery page limit sortBy order) s) with
  | Ok (data, _) => map bi_bookmark data
  | Err _ => []
  end.

(** The bookmarks of a user, in table order. *)
Definition bookmarksOf (userId : Id) (s : Store) : list Bookmark :=
  filter (fun b => String.eqb (b_userId b) userId) (bookmarks s).

(** Every bookmark references a title of the store. *)
Definition bookmarks_reference_titles (s : Store) : Prop :=
  forall b, In b (bookmarks s) -> manga_findUnique (b_mangaId b) s <> None.

(** A database that refuses every orderBy on a column outside the model. *)
Definition strictDatabase : Database :=
  {| bookmark_otherOrder := fun _ _ => None;
     history_otherOrder := fun _ _ => None;
     chapter_otherOrder := fun _ _ => None |}.

(** Three bookmarks of "bob" and one of "eve" over two titles. *)
Definition storeD : Store :=
  mkStore [exampleManga "m1" "One Piece" "one-piece" "alice" APPROVED 0;
           exampleManga "m2" "Berserk" "berserk" "alice" APPROVED 0;
           exampleManga "m3" "Monster" "monster" "alice" APPROVED 0]
          []
          [mkBookmark "b1" "bob" "m1" 100;
           mkBookmark "b2" "eve" "m1" 150;
           mkBookmark "b3" "bob" "m2" 300;
           mkBookmark "b4" "bob" "m3" 200]
          [] [] [] [] [] [].

(** "At least as new as": the order of a bookmark list by default. *)
Definition newerOrSame (a b : Bookmark) : Prop :=
  b_createdAt b <= b_createdAt a.

(** ** Progress records *)

(** The primary key of the ReadingHistory table. *)
Definition historyIds_unique (s : Store) : Prop :=
  NoDup (map h_id (histories s)).

(** The compound key userId_chapterId that saveProgress upserts on: a user
    has at most one record for a chapter. *)
Definition historyKeys_unique (s : Store) : Prop :=
  NoDup (map (fun h => (h_userId h, h_chapterId h)) (histories s)).

(** The progress records of a user, in table order. *)
Definition historiesOf (userId : Id) (s : Store) : list ReadingHistory :=
  filter (fun h => String.eqb (h_userId h) userId) (histories s).

(** The records of a user for one title. *)
Definition historiesFor (userId mangaId : Id) (s : Store)
  : list ReadingHistory :=
  filter (fun h => String.eqb (h_userId h) userId
                   && String.eqb (h_mangaId h) mangaId)%bool
         (histories s).

(** The order getReadingHistory asks the database for. *)
Definition readingHistoryOrder {D : Database} (sortBy order : option string)
  : option (ReadingHistory -> ReadingHistory -> bool) :=
  history_orderBy (match sortBy with Some v => v | None => "lastReadAt" end)
                  (match order with Some v => v | None => "desc" end).

(** The records getReadingHistory lists: the user's, of one title when the
    filter names it. *)
Definition historiesListed (userId : Id) (mangaId : option Id) (s : Store)
  : list ReadingHistory :=
  match mangaId with
  | Some (String a t) => historiesFor userId (String a t) s
  | _ => historiesOf userId s
  end.

(** The records on a page of the list; none when the request fails. *)
Definition historyPage {D : Database} (userId : Id) (mangaId : option Id)
           (sortBy order : option string) (limit page : nat) (s : Store)
  : list ReadingHistory :=
  match fst (getReadingHistory userId (pageQuery page limit sortBy order)
                               mangaId s) with
  | Ok (data, _) => map hi_history data
  | Err _ => []
  end.

(** Every progress record references a title of the store. *)
Definition histories_reference_titles (s : Store) : Prop :=
  forall h, In h (histories s) -> manga_findUnique (h_mangaId h) s <> None.

(** ** Chapter lists *)

(** The chapters a reader may see of a title: those PUBLISHED. *)
Definition publishedChaptersOf (mangaId : Id) (s : Store) : list Chapter :=
  filter (fun c => String.eqb (c_mangaId c) mangaId
                   && ChapterStatus_eqb (c_status c) PUBLISHED)%bool
         (chapters s).

(** By ascending chapter number. *)
Definition numberNotAfter (a b : Chapter) : Prop :=
  (c_chapterNumber a <= c_chapterNumber b)%Q.

(** The views of a chapter and of a title. *)
Definition chapterViewsOf (chapterId : Id) (s : Store) : option Z :=
  option_map c_totalViews (chapter_findUnique chapterId s).

Definition titleViewsOf (mangaId : Id) (s : Store) : option Z :=
  option_map m_totalViews (manga_findUnique mangaId s).

(** The title "m1" with a published and a draft chapter. *)
Definition storeE : Store :=
  mkStore [exampleManga "m1" "One Piece" "one-piece" "alice" APPROVED 2]
          [exampleChapter "c1" "m1" (1 # 1) "one-piece-ch-1";
           mkChapter "c2" "m1" (2 # 1) "Chapter 2" "one-piece-ch-2" ["p1.png"] 1 0
                     DRAFT 1500]
          [] [] [] [] [] [] [].

(** ** Title creation, continued *)

(** Every chapter references a title of the store. *)
Definition chapters_reference_titles (s : Store) : Prop :=
  forall c, In c (chapters s) -> manga_findUnique (c_mangaId c) s <> None.


(** What a title creation leaves behind: nothing when it fails; when it
    succeeds, one more title, of a new id and slug, owned by the caller,
    approved only for an ADMIN, its counters at zero, and the chapters,
    bookmarks, progress records and views as they were. *)
Definition titleCreated (userId : Id) (userRole : Role) (idOf : nat -> Id)
           (s : Store) (r : Result (Manga * string) * Store) : Prop :=
  match fst r with
  | Err _ => snd r = s
  | Ok (m, msg) =>
      mangas (snd r) = (mangas s ++ [m])%list
      /\ chapters (snd r) = chapters s
      /\ bookmarks (snd r) = bookmarks s
      /\ histories (snd r) = histories s
      /\ chapterViews (snd r) = chapterViews s
      /\ m_id m = idOf O
      /\ ~ In (m_id m) (map m_id (mangas s))
      /\ slugUnused (m_slug m) s
      /\ m_uploaderId m = userId
      /\ m_approvalStatus m = (if Role_eqb userRole ADMIN then APPROVED else PENDING)
      /\ m_totalChapters m = 0 /\ m_totalViews m = 0 /\ m_lastChapterAt m = None
      /\ msg = createdMessage userRole
  end.

(** The ids the database hands out in the examples: "A", "B", ... *)
Definition exampleIds (k : nat) : Id := String (ascii_of_nat (65 + k)) "".

(** The creation request of the examples, under a title. *)
Definition narutoRequest : MangaData := withTitle (Some "Naruto") exampleRequest.

(** ** Recently updated titles *)

(** Listed with a chapter instant at least as late. *)
Definition updatedNoEarlier (a b : RecentManga) : Prop :=
  match m_lastChapterAt (fm_manga (rm_manga a)),
        m_lastChapterAt (fm_manga (rm_manga b)) with
  | Some x, Some y => y <= x
  | _, _ => False
  end.

(** The primary key of the Manga table. *)
Definition mangaIds_unique (s : Store) : Prop :=
  NoDup (map m_id (mangas s)).

(** The unique slug of the Manga table. *)
Definition mangaSlugs_unique (s : Store) : Prop :=
  NoDup (map m_slug (mangas s)).

(** ** The guarded routes *)


(** ** Names in a request *)

(** The text does not start with white space. *)
Definition noLeadingSpace (s : string) : Prop :=
  match s with
  | String c _ => is_space c = false
  | EmptyString => True
  end.

(** ** Uploads *)

(** A file the upload service accepts: an allowed type, at most 10 MB, and
    a path or a buffer to send. *)
Definition validUpload (file : UploadService.UploadFile) : bool :=
  (existsb (String.eqb (UploadService.mimetype file)) UploadService.allowedTypes
   && (UploadService.size file <=? UploadService.maxSize)
   && match UploadService.fileData file with
      | Some _ => true
      | None => false
      end)%bool.

(** The text holds no such character. *)
Fixpoint noChar (c : ascii) (s : string) : bool :=
  match s with
  | EmptyString => true
  | String a r => (negb (Ascii.eqb a c) && noChar c r)%bool
  end.

(** A page image of one kilobyte, held in memory. *)
Definition examplePage (name : string) : UploadService.UploadFile :=
  UploadService.mkUploadFile name "image/png" 1024 None (Some "AAAA").

(** * Properties *)


(** ** Reading progress (saveProgress) *)

(** C10. A saveProgress call whose chapterId names no chapter throws
    AppError('Chapter not found', 404) before any write: the store, and so
    every progress record and view counter, is the one it started from. *)
Theorem saveProgress_chapter_not_found :
  forall (userId chapterId : Id) (progressData : ProgressData)
         (newId : Id) (now : Date) (s : Store),
    chapter_findUnique chapterId s = None ->
    saveProgress userId chapterId progressData newId now s
    = (Err (AppError "Chapter not found" 404), s).
Proof.
  intros userId chapterId progressData newId now s H.
  unfold saveProgress, bind, read. rewrite H. reflexivity.
Qed.

Lemma saveProgress_chapter_not_found_witness :
  chapter_findUnique "c9" storeA = None
  /\ saveProgress "bob" "c9" (mkProgressData 15 25 None) "h1" 2000 storeA
     = (Err (AppError "Chapter not found" 404), storeA).
Proof.
  split.
  - reflexivity.
  - apply (saveProgress_chapter_not_found "bob" "c9"
             (mkProgressData 15 25 None) "h1" 2000 storeA).
    reflexivity.
Defined.

Lemma find_map_update {A} (p : A -> bool) (f : A -> A) (l : list A) :
  (forall x, p x = true -> p (f x) = true) ->
  find p (map (fun x => if p x then f x else x) l) = option_map f (find p l).
Proof.
  intros Hp. induction l as [|x l IH]; simpl; [reflexivity|].
  destruct (p x) eqn:E.
  - rewrite (Hp x E). reflexivity.
  - rewrite E. exact IH.
Qed.

Lemma find_app_none {A} (p : A -> bool) (l : list A) (x : A) :
  find p l = None -> find p (l ++ [x]) = if p x then Some x else None.
Proof.
  induction l as [|y l IH]; simpl; intros H; [reflexivity|].
  destruct (p y); [discriminate|]. apply IH, H.
Qed.

(** What a successful saveProgress has stored and counted. *)
Lemma saveProgress_success :
  forall (userId chapterId : Id) (pd : ProgressData) (newId : Id) (now : Date)
         (s s' : Store) (h : ReadingHistory),
    saveProgress userId chapterId pd newId now s = (Ok h, s') ->
    exists chapter manga pp,
      chapter_findUnique chapterId s = Some chapter
      /\ manga_findUnique (c_mangaId chapter) s = Some manga
      /\ progressPercentOf (pd_currentPage pd) (pd_totalPages pd) = Some pp
      /\ h_progressPercent h = pp
      /\ h_isCompleted h
         = (match pd_isCompleted pd with Some true => true | _ => false end
            || (100 <=? pp))%bool
      /\ history_findUnique userId chapterId s' = Some h
      /\ chapterViews s' = chapterViews s
      /\ option_map c_totalViews (chapter_findUnique chapterId s')
         = Some (c_totalViews chapter + 1)
      /\ option_map m_totalViews (manga_findUnique (c_mangaId chapter) s')
         = Some (m_totalViews manga + 1).
Proof.
  intros userId chapterId pd newId now s s' h.
  unfold saveProgress, bind, read, throw, ret.
  destruct (chapter_findUnique chapterId s) as [chapter|] eqn:Hc; [|discriminate].
  destruct (progressPercentOf (pd_currentPage pd) (pd_totalPages pd))
    as [pp|] eqn:Hpp; [|discriminate].
  set (completed := (match pd_isCompleted pd with Some true => true | _ => false end
                     || (100 <=? pp))%bool).
  set (upd_ := fun h0 : ReadingHistory =>
                 mkReadingHistory (h_id h0) (h_userId h0) (h_chapterId h0)
                   (h_mangaId h0) (pd_currentPage pd) (pd_totalPages pd) pp
                   completed now).
  set (new_ := mkReadingHistory newId userId chapterId (c_mangaId chapter)
                 (pd_currentPage pd) (pd_totalPages pd) pp completed now).
  set (key := fun x : ReadingHistory =>
                (String.eqb (h_userId x) userId
                 && String.eqb (h_chapterId x) chapterId)%bool).
  assert (Hstored :
    forall r s1, history_upsert userId chapterId upd_ new_ s = (Ok r, s1) ->
      h_progressPercent r = pp /\ h_isCompleted r = completed
      /\ find key (histories s1) = Some r
      /\ mangas s1 = mangas s /\ chapters s1 = chapters s
      /\ chapterViews s1 = chapterViews s).
  { intros r s1. unfold history_upsert, history_findUnique. fold key.
    destruct (find key (histories s)) as [h0|] eqn:Hf.
    - intros [= <- <-]. simpl. repeat split.
      rewrite (find_map_update key upd_).
      + rewrite Hf. reflexivity.
      + intros x Hx. exact Hx.
    - destruct (existsb _ _); [discriminate|].
      destruct (manga_findUnique (h_mangaId new_) s); [|discriminate].
      intros [= <- <-]. simpl. repeat split.
      rewrite (find_app_none key _ new_ Hf).
      unfold key, new_. simpl. rewrite !String.eqb_refl. reflexivity. }
  destruct (history_upsert userId chapterId upd_ new_ s) as [[r|e] s1] eqn:Hu;
    [|discriminate].
  destruct (Hstored r s1 eq_refl) as (Hp1 & Hp2 & Hp3 & Hm1 & Hc1 & Hv1).
  unfold chapter_update.
  assert (Hc' : chapter_findUnique chapterId s1 = Some chapter).
  { unfold chapter_findUnique. rewrite Hc1. exact Hc. }
  rewrite Hc'.
  unfold manga_update at 1. unfold manga_findUnique at 1. simpl.
  rewrite Hm1.
  destruct (find (fun m => String.eqb (m_id m) (c_mangaId chapter)) (mangas s))
    as [manga|] eqn:Hm; [|discriminate].
  intros [= <- <-].
  exists chapter, manga, pp. repeat split; try assumption.
  - unfold chapter_findUnique. simpl. rewrite Hc1.
    rewrite (find_map_update (fun c => String.eqb (c_id c) chapterId)
               (fun c => set_c_totalViews c (c_totalViews c + 1))).
    + fold (chapter_findUnique chapterId s). rewrite Hc. reflexivity.
    + intros x Hx. exact Hx.
  - unfold manga_findUnique. simpl.
    rewrite (find_map_update (fun m => String.eqb (m_id m) (c_mangaId chapter))
               (fun m => set_counters m (m_totalChapters m) (m_totalViews m + 1)
                                      (m_lastChapterAt m))).
    + rewrite Hm. reflexivity.
    + intros x Hx. exact Hx.
Qed.

(** With no page to divide by, the percentage is 0. *)
Lemma progressPercentOf_no_pages (currentPage totalPages : Z) :
  totalPages <= 0 -> progressPercentOf currentPage totalPages = Some 0.
Proof.
  intros H. unfold progressPercentOf.
  destruct (0 <? totalPages) eqn:E; [apply Z.ltb_lt in E; lia | reflexivity].
Qed.

Example progressPercentOf_15_of_25 : progressPercentOf 15 25 = Some 60.
Proof. vm_compute. reflexivity. Qed.

Example progressPercentOf_25_of_25 : progressPercentOf 25 25 = Some 100.
Proof. vm_compute. reflexivity. Qed.

(** The stored isCompleted is true as soon as the stored percentage
    reaches 100, whatever the caller passed. *)
Lemma saveProgress_isCompleted_default :
  forall (userId chapterId : Id) (pd : ProgressData) (newId : Id) (now : Date)
         (s s' : Store) (h : ReadingHistory),
    saveProgress userId chapterId pd newId now s = (Ok h, s') ->
    100 <= h_progressPercent h -> h_isCompleted h = true.
Proof.
  intros userId chapterId pd newId now s s' h H Hge.
  destruct (saveProgress_success _ _ _ _ _ _ _ _ H)
    as (chapter & manga & pp & _ & _ & _ & Hp & Hc & _).
  rewrite Hc. subst pp. apply Z.leb_le in Hge. rewrite Hge.
  apply orb_true_r.
Qed.

Example saveProgress_25_of_25_completes :
  exists h s',
    saveProgress "bob" "c1" (mkProgressData 25 25 None) "h1" 2000 storeA
    = (Ok h, s')
    /\ h_progressPercent h = 100 /\ h_isCompleted h = true.
Proof. eexists. eexists. vm_compute. repeat split. Qed.

Lemma agreesOnChaptersUpTo_eq (n : nat) :
  agreesOnChaptersUpTo n
  = forallb (fun t => forallb (fun c => agreesUpToTies (Z.of_nat c) (Z.of_nat t))
                              (seq 0 (S t)))
            (seq 1 n).
Proof. reflexivity. Qed.

Lemma agreesOnChaptersUpTo_100 : agreesOnChaptersUpTo 100 = true.
Proof. vm_compute. reflexivity. Qed.

(** On chapters of up to 100 pages the stored percentage differs from the
    formula only on ties, and there by rounding down. *)
Lemma progressPercentOf_ties_only (currentPage totalPages : Z) :
  1 <= totalPages <= 100 -> 0 <= currentPage <= totalPages ->
  agreesUpToTies currentPage totalPages = true.
Proof.
  intros Ht Hc.
  pose proof agreesOnChaptersUpTo_100 as H.
  rewrite agreesOnChaptersUpTo_eq in H.
  pose proof (proj1 (forallb_forall _ _) H (Z.to_nat totalPages)) as Ht'.
  assert (Hin : In (Z.to_nat totalPages) (seq 1 100)) by (apply in_seq; lia).
  pose proof (proj1 (forallb_forall _ _) (Ht' Hin) (Z.to_nat currentPage)) as Hc'.
  assert (Hin' : In (Z.to_nat currentPage) (seq 0 (S (Z.to_nat totalPages))))
    by (apply in_seq; lia).
  pose proof (Hc' Hin') as E.
  rewrite !Z2Nat.id in E by lia. exact E.
Qed.

(** C2. The percentage saveProgress stores is Math.round of the double
    (currentPage / totalPages) * 100, and at currentPage = 29,
    totalPages = 200 that double is 14.499999999999998: the record holds
    14, where round (100 * 29 / 200) = round 14.5 is 15.  Page 23 of 40
    (57.5) is stored as 57 in the same way, while page 1 of 200 (0.5) is
    stored as 1: no rule for ties gives the stored values. *)
Theorem saveProgress_tie_29_of_200 :
  (exists h s',
      saveProgress "bob" "c1" (mkProgressData 29 200 None) "h1" 2000 storeA
      = (Ok h, s')
      /\ history_findUnique "bob" "c1" s' = Some h
      /\ h_progressPercent h = 14)
  /\ spec_progressPercent 29 200 = 15
  /\ progressPercentOf 23 40 = Some 57
  /\ spec_progressPercent 23 40 = 58
  /\ progressPercentOf 1 200 = Some 1
  /\ spec_progressPercent 1 200 = 1.
Proof.
  split; [|repeat split].
  eexists. eexists. vm_compute. repeat split.
Qed.

(** No call of saveProgress, successful or not, writes to the ChapterView
    table. *)
Lemma saveProgress_chapterViews_unchanged :
  forall (userId chapterId : Id) (pd : ProgressData) (newId : Id) (now : Date)
         (s : Store),
    chapterViews (snd (saveProgress userId chapterId pd newId now s))
    = chapterViews s.
Proof.
  intros. unfold saveProgress, bind, read, throw, ret.
  destruct (chapter_findUnique chapterId s); [|reflexivity].
  destruct (progressPercentOf _ _); [|reflexivity].
  unfold history_upsert.
  destruct (history_findUnique userId chapterId s).
  - unfold chapter_update.
    destruct (chapter_findUnique chapterId _); [|reflexivity].
    unfold manga_update. destruct (manga_findUnique _ _); reflexivity.
  - destruct (existsb _ _); [reflexivity|]. simpl.
    destruct (manga_findUnique (c_mangaId c) s); [|reflexivity].
    unfold chapter_update.
    destruct (chapter_findUnique chapterId _); [|reflexivity].
    unfold manga_update. destruct (manga_findUnique _ _); reflexivity.
Qed.

(** A successful saveProgress counts one more view on the chapter and one
    more on its title. *)
Lemma saveProgress_counts_a_view :
  forall (userId chapterId : Id) (pd : ProgressData) (newId : Id) (now : Date)
         (s s' : Store) (h : ReadingHistory),
    saveProgress userId chapterId pd newId now s = (Ok h, s') ->
    exists chapter manga,
      chapter_findUnique chapterId s = Some chapter
      /\ manga_findUnique (c_mangaId chapter) s = Some manga
      /\ option_map c_totalViews (chapter_findUnique chapterId s')
         = Some (c_totalViews chapter + 1)
      /\ option_map m_totalViews (manga_findUnique (c_mangaId chapter) s')
         = Some (m_totalViews manga + 1).
Proof.
  intros userId chapterId pd newId now s s' h H.
  destruct (saveProgress_success _ _ _ _ _ _ _ _ H)
    as (chapter & manga & pp & Hc & Hm & _ & _ & _ & _ & _ & Hcv & Hmv).
  exists chapter, manga. auto.
Qed.

(** C8. saveProgress bumps the two view counters itself and stops there:
    for the authenticated reader "bob" saving progress on chapter "c1" the
    chapter and its title each gain one view, but the ChapterView table
    stays empty, while the view-increment path (incrementChapterViews) run
    for the same reader and chapter inserts the audit row. *)
Theorem saveProgress_inserts_no_ChapterView :
  let after := saveProgress "bob" "c1" (mkProgressData 15 25 None) "h1" 2000 storeA in
  let path := incrementChapterViews "c1" "m1" (Some "bob") "v1" storeA in
  (exists h, fst after = Ok h)
  /\ option_map c_totalViews (chapter_findUnique "c1" (snd after)) = Some 1
  /\ option_map m_totalViews (manga_findUnique "m1" (snd after)) = Some 1
  /\ chapterViews (snd after) = []
  /\ fst path = Ok tt
  /\ chapterViews (snd path) = [mkChapterView "v1" "c1" "bob"].
Proof.
  cbv zeta. split; [eexists; vm_compute; reflexivity|].
  repeat split.
Qed.

(** ** The ownership guard *)

Lemma Role_eqb_ADMIN (r : Role) : Role_eqb r ADMIN = true <-> r = ADMIN.
Proof. destruct r; simpl; split; intros H; congruence. Qed.

(** The test every guarded service function makes. *)
Lemma guard_test (ownerId userId : Id) (userRole : Role) :
  (negb (String.eqb ownerId userId) && negb (Role_eqb userRole ADMIN))%bool
  = false
  <-> mayMutate userId userRole ownerId.
Proof.
  unfold mayMutate. split.
  - intros H. apply andb_false_iff in H.
    destruct H as [H|H]; apply negb_false_iff in H.
    + right. symmetry. apply String.eqb_eq, H.
    + left. apply Role_eqb_ADMIN, H.
  - intros [H|H]; apply andb_false_iff.
    + right. apply negb_false_iff, Role_eqb_ADMIN, H.
    + left. apply negb_false_iff, String.eqb_eq. auto.
Qed.

Lemma guard_test_true (ownerId userId : Id) (userRole : Role) :
  (negb (String.eqb ownerId userId) && negb (Role_eqb userRole ADMIN))%bool
  = true
  <-> ~ mayMutate userId userRole ownerId.
Proof.
  rewrite <- guard_test. destruct (_ && _)%bool; split; congruence.
Qed.



Lemma find_filter_negb_none {A} (p : A -> bool) (l : list A) :
  find p (filter (fun x => negb (p x)) l) = None.
Proof.
  induction l as [|x l IH]; simpl; [reflexivity|].
  destruct (p x) eqn:E; simpl; [exact IH | rewrite E; exact IH].
Qed.

Section OwnershipGuard.

Lemma guard_updateManga s mangaId manga updateData userId userRole :
  manga_findUnique mangaId s = Some manga ->
  (mayMutate userId userRole (m_uploaderId manga) ->
   updateManga mangaId updateData userId userRole s
   = manga_update_data mangaId updateData s)
  /\ (~ mayMutate userId userRole (m_uploaderId manga) ->
      updateManga mangaId updateData userId userRole s
      = (Err (AppError "Not authorized to update this manga" 403), s)).
Proof.
  intros Hm. unfold updateManga, bind, read, throw. rewrite Hm. split; intros H.
  - apply guard_test in H. rewrite H. reflexivity.
  - apply guard_test_true in H. rewrite H. reflexivity.
Qed.





End OwnershipGuard.






(** ** Chapter creation against an existing ordinal *)

Lemma chapter_findFirst_duplicate (s : Store) (mangaId : Id) (number : Q)
      (dup : Chapter) :
  In dup (chapters s) -> c_mangaId dup = mangaId ->
  (c_chapterNumber dup == number)%Q ->
  exists c, chapter_findFirst mangaId number s = Some c.
Proof.
  intros Hin Hm Hq. unfold chapter_findFirst.
  destruct (find _ (chapters s)) as [c|] eqn:E; [exists c; reflexivity|].
  exfalso. pose proof (find_none _ _ E dup Hin) as Hn. simpl in Hn.
  rewrite Hm, String.eqb_refl in Hn. simpl in Hn.
  apply Qeq_bool_iff in Hq. congruence.
Qed.

(** C3, as the code has it.  When a chapter of the same ordinal exists
    under the title, createChapter called by the title's uploader or an
    ADMIN fails with AppError('Chapter number already exists', 400); called
    by anyone else it fails at the ownership check, with a 403, before the
    ordinal is looked at.  Either way nothing was written: the store, and
    with it the title's totalChapters and every other column, is unchanged. *)
Theorem createChapter_existing_number :
  forall (X : Collaborators) (s : Store) (mangaId : Id)
         (chapterData : ChapterData) (files : option (list File))
         (userId : Id) (userRole : Role) (newId : Id) (now1 now2 : Date)
         (manga : Manga) (number : Q) (dup : Chapter),
    manga_findUnique mangaId s = Some manga ->
    parseFloat (cd_chapterNumber chapterData) = Some number ->
    In dup (chapters s) -> c_mangaId dup = mangaId ->
    (c_chapterNumber dup == number)%Q ->
    (mayMutate userId userRole (m_uploaderId manga) ->
     createChapter mangaId chapterData files userId userRole newId now1 now2 s
     = (Err (AppError "Chapter number already exists" 400), s))
    /\ (~ mayMutate userId userRole (m_uploaderId manga) ->
        createChapter mangaId chapterData files userId userRole newId now1 now2 s
        = (Err (AppError "Not authorized to add chapters to this manga" 403), s)).
Proof.
  intros X s mangaId chapterData files userId userRole newId now1 now2
         manga number dup Hm Hp Hin Hd Hq.
  destruct (chapter_findFirst_duplicate s mangaId number dup Hin Hd Hq)
    as [c Hc].
  unfold createChapter, bind, read, throw. rewrite Hm. split; intros H.
  - apply guard_test in H. rewrite H, Hp, Hc. reflexivity.
  - apply guard_test_true in H. rewrite H. reflexivity.
Qed.

Lemma createChapter_existing_number_witness :
  manga_findUnique "m1" storeA
  = Some (exampleManga "m1" "One Piece" "one-piece" "alice" APPROVED 1)
  /\ @parseFloat exampleCollaborators "1.0" = Some (10 # 10)
  /\ In (exampleChapter "c1" "m1" (1 # 1) "one-piece-ch-1") (chapters storeA)
  /\ (1 # 1 == 10 # 10)%Q
  /\ mayMutate "alice" UPLOADER "alice"
  /\ @createChapter exampleCollaborators "m1"
        (mkChapterData "1.0" None (ImagesArray ["p1.png"])) None
        "alice" UPLOADER "c2" 2000 2001 storeA
      = (Err (AppError "Chapter number already exists" 400), storeA).
Proof.
  split; [reflexivity|]. split; [reflexivity|].
  split; [left; reflexivity|]. split; [reflexivity|].
  split; [right; reflexivity|].
  apply (createChapter_existing_number exampleCollaborators storeA "m1"
           (mkChapterData "1.0" None (ImagesArray ["p1.png"])) None
           "alice" UPLOADER "c2" 2000 2001
           (exampleManga "m1" "One Piece" "one-piece" "alice" APPROVED 1)
           (10 # 10) (exampleChapter "c1" "m1" (1 # 1) "one-piece-ch-1")).
  - reflexivity.
  - reflexivity.
  - left; reflexivity.
  - reflexivity.
  - reflexivity.
  - right; reflexivity.
Defined.

(** C3 as stated fails for a caller who is neither the uploader nor an
    ADMIN: chapter 1 of "m1" exists, and "bob" creating chapter 1 again is
    answered 403, not 'Chapter number already exists'. *)
Lemma createChapter_existing_number_not_owner :
  let r := @createChapter exampleCollaborators "m1"
             (mkChapterData "1" None (ImagesArray ["p1.png"])) None
             "bob" UPLOADER "c2" 2000 2001 storeA in
  (exists dup, In dup (chapters storeA) /\ c_mangaId dup = "m1"
               /\ @parseFloat exampleCollaborators "1" = Some (c_chapterNumber dup))
  /\ r = (Err (AppError "Not authorized to add chapters to this manga" 403), storeA)
  /\ fst r <> Err (AppError "Chapter number already exists" 400).
Proof.
  cbv zeta. split.
  - exists (exampleChapter "c1" "m1" (1 # 1) "one-piece-ch-1").
    split; [left; reflexivity|]. split; reflexivity.
  - split; [reflexivity|]. vm_compute. discriminate.
Qed.

(** ** Bookmarks *)

Lemma bookmarked_find (userId mangaId : Id) (s : Store) :
  bookmarked userId mangaId s
  = match bookmark_findUnique userId mangaId s with
    | Some _ => true
    | None => false
    end.
Proof.
  unfold bookmarked, checkBookmark, bind, read, ret.
  destruct (bookmark_findUnique userId mangaId s); reflexivity.
Qed.

Lemma filter_negb_find_none {A} (p : A -> bool) (l : list A) :
  find p l = None -> filter (fun x => negb (p x)) l = l.
Proof.
  induction l as [|x l IH]; simpl; intros H; [reflexivity|].
  destruct (p x); [discriminate|]. simpl. rewrite (IH H). reflexivity.
Qed.

Lemma find_filter_other {A} (p q : A -> bool) (l : list A) :
  (forall x, q x = true -> p x = true) ->
  find q (filter p l) = find q l.
Proof.
  intros Hpq. induction l as [|x l IH]; simpl; [reflexivity|].
  destruct (p x) eqn:Ep; simpl.
  - destruct (q x); [reflexivity | exact IH].
  - destruct (q x) eqn:Eq; [rewrite (Hpq x Eq) in Ep; discriminate | exact IH].
Qed.

Lemma find_app_other {A} (q : A -> bool) (l : list A) (x : A) :
  q x = false -> find q (l ++ [x]) = find q l.
Proof.
  intros Hx. induction l as [|y l IH]; simpl.
  - rewrite Hx. reflexivity.
  - destruct (q y); [reflexivity | exact IH].
Qed.

Lemma existsb_filter_false {A} (p q : A -> bool) (l : list A) :
  existsb q l = false -> existsb q (filter p l) = false.
Proof.
  induction l as [|x l IH]; simpl; intros H; [reflexivity|].
  apply orb_false_iff in H. destruct H as [Hx Hl].
  destruct (p x); simpl; [rewrite Hx|]; auto.
Qed.

Lemma set_bookmarks_same (s : Store) : set_bookmarks s (bookmarks s) = s.
Proof. destruct s; reflexivity. Qed.

Lemma pair_key_other (u m u' m' : Id) :
  (u', m') <> (u, m) ->
  forall b, (String.eqb (b_userId b) u' && String.eqb (b_mangaId b) m')%bool = true ->
            negb (String.eqb (b_userId b) u && String.eqb (b_mangaId b) m) = true.
Proof.
  intros Hne b H. apply andb_true_iff in H. destruct H as [H1 H2].
  apply String.eqb_eq in H1, H2. apply negb_true_iff, andb_false_iff.
  destruct (String.eqb (b_userId b) u) eqn:E1; [|left; reflexivity].
  destruct (String.eqb (b_mangaId b) m) eqn:E2; [|right; reflexivity].
  apply String.eqb_eq in E1, E2. exfalso. apply Hne. congruence.
Qed.

(** C5. For an existing title, two toggleBookmark calls in a row by the
    same user bring the pair (user, title) back to where it was: the first
    call adds the bookmark when there was none and removes it when there
    was one, the second does the opposite, and checkBookmark answers after
    the two calls what it answered before them.  No other pair is touched,
    nothing outside the bookmark table changes, and when the pair started
    without a bookmark the store after the two calls is the store before. *)
Theorem toggleBookmark_twice :
  forall (s : Store) (userId mangaId : Id) (manga : Manga)
         (id1 id2 : Id) (now1 now2 : Date),
    manga_findUnique mangaId s = Some manga ->
    existsb (fun b => String.eqb (b_id b) id1) (bookmarks s) = false ->
    existsb (fun b => String.eqb (b_id b) id2) (bookmarks s) = false ->
    exists r1 s1 r2 s2,
      toggleBookmark userId mangaId id1 now1 s = (Ok r1, s1)
      /\ toggleBookmark userId mangaId id2 now2 s1 = (Ok r2, s2)
      /\ isBookmarked r1 = negb (bookmarked userId mangaId s)
      /\ action r1 = (if bookmarked userId mangaId s then "removed" else "added")
      /\ bookmarked userId mangaId s1 = negb (bookmarked userId mangaId s)
      /\ isBookmarked r2 = bookmarked userId mangaId s
      /\ action r2 = (if bookmarked userId mangaId s then "added" else "removed")
      /\ bookmarked userId mangaId s2 = bookmarked userId mangaId s
      /\ (forall u m, (u, m) <> (userId, mangaId) ->
                      bookmark_findUnique u m s2 = bookmark_findUnique u m s)
      /\ set_bookmarks s2 (bookmarks s) = s
      /\ (bookmarked userId mangaId s = false -> s2 = s).
Proof.
  intros s userId mangaId manga id1 id2 now1 now2 Hm Hid1 Hid2.
  set (key := fun b : Bookmark =>
                (String.eqb (b_userId b) userId
                 && String.eqb (b_mangaId b) mangaId)%bool).
  rewrite !bookmarked_find.
  unfold toggleBookmark, bind, read, ret, throw. rewrite Hm.
  destruct (bookmark_findUnique userId mangaId s) as [b0|] eqn:Hb.
  - (* there was a bookmark: delete, then create *)
    unfold bookmark_delete at 1. rewrite Hb.
    set (s1 := set_bookmarks s (filter (fun b => negb (key b)) (bookmarks s))).
    assert (Hm1 : manga_findUnique mangaId s1 = Some manga) by exact Hm.
    assert (Hb1 : bookmark_findUnique userId mangaId s1 = None).
    { unfold bookmark_findUnique, s1. simpl. apply (find_filter_negb_none key). }
    assert (Hx : existsb (fun b => String.eqb (b_id b) id2) (bookmarks s1) = false).
    { unfold s1. simpl. apply existsb_filter_false, Hid2. }
    eexists. exists s1. rewrite Hm1, Hb1.
    unfold bookmark_create. rewrite Hx, Hb1, Hm1.
    eexists. eexists. split; [reflexivity|]. split; [reflexivity|].
    rewrite !bookmarked_find, Hb1. simpl.
    repeat split.
    + unfold bookmark_findUnique. simpl. fold key.
      rewrite find_app_none; [unfold key; simpl; rewrite !String.eqb_refl; reflexivity|].
      apply (find_filter_negb_none key).
    + intros u m Hne. unfold bookmark_findUnique. simpl.
      rewrite find_app_other.
      * apply find_filter_other. apply pair_key_other, Hne.
      * simpl. apply andb_false_iff.
        destruct (String.eqb userId u) eqn:E1; [|left; reflexivity].
        destruct (String.eqb mangaId m) eqn:E2; [|right; reflexivity].
        apply String.eqb_eq in E1, E2. exfalso. apply Hne. congruence.
    + destruct s; reflexivity.
    + discriminate.
  - (* there was none: create, then delete *)
    unfold bookmark_create at 1. rewrite Hid1, Hb, Hm.
    set (b := mkBookmark id1 userId mangaId now1).
    set (s1 := set_bookmarks s (bookmarks s ++ [b])).
    assert (Hm1 : manga_findUnique mangaId s1 = Some manga) by exact Hm.
    assert (Hb1 : bookmark_findUnique userId mangaId s1 = Some b).
    { unfold bookmark_findUnique, s1. simpl. fold key.
      rewrite (find_app_none key _ b Hb). unfold key, b. simpl.
      rewrite !String.eqb_refl. reflexivity. }
    assert (Hdel : bookmark_delete userId mangaId s1 = (Ok tt, s)).
    { unfold bookmark_delete. rewrite Hb1. f_equal.
      unfold s1. simpl. rewrite filter_app. simpl.
      rewrite !String.eqb_refl. simpl.
      rewrite app_nil_r.
      change (set_bookmarks
                (set_bookmarks s (bookmarks s ++ [b]))
                (filter (fun x => negb (key x)) (bookmarks s)) = s).
      rewrite (filter_negb_find_none key _ Hb).
      destruct s; reflexivity. }
    eexists. exists s1. rewrite Hm1, Hb1, Hdel.
    eexists. exists s. split; [reflexivity|]. split; [reflexivity|].
    rewrite !bookmarked_find, Hb1, Hb. simpl.
    repeat split. apply set_bookmarks_same.
Qed.

Lemma toggleBookmark_twice_witness :
  manga_findUnique "m1" storeA
  = Some (exampleManga "m1" "One Piece" "one-piece" "alice" APPROVED 1)
  /\ existsb (fun b => String.eqb (b_id b) "b1") (bookmarks storeA) = false
  /\ existsb (fun b => String.eqb (b_id b) "b2") (bookmarks storeA) = false
  /\ exists r1 s1 r2 s2,
       toggleBookmark "bob" "m1" "b1" 10 storeA = (Ok r1, s1)
       /\ toggleBookmark "bob" "m1" "b2" 20 s1 = (Ok r2, s2)
       /\ bookmarked "bob" "m1" s2 = bookmarked "bob" "m1" storeA.
Proof.
  split; [reflexivity|]. split; [reflexivity|]. split; [reflexivity|].
  destruct (toggleBookmark_twice storeA "bob" "m1"
              (exampleManga "m1" "One Piece" "one-piece" "alice" APPROVED 1)
              "b1" "b2" 10 20 eq_refl eq_refl eq_refl)
    as (r1 & s1 & r2 & s2 & H1 & H2 & _ & _ & _ & _ & _ & H3 & _).
  exists r1, s1, r2, s2. split; [exact H1|]. split; [exact H2 | exact H3].
Defined.

(** ** The chapter counter

    What each operation does to the two tables; the invariant over all the
    operations is proved at the end of the development, once title creation
    and deletion have been dealt with. *)




Section ChapterCounter.
Context {X : Collaborators}.



End ChapterCounter.

(** Selecting rows of a table keeps its key unique. *)
Lemma unique_key_filter {R K : Type} (key : R -> K) (keep : R -> bool) :
  forall rows : list R,
    NoDup (map key rows) -> NoDup (map key (filter keep rows)).
Proof.
  intros rows Hnd. induction rows as [|r rows IHrows]; simpl in *.
  - constructor.
  - apply NoDup_cons_iff in Hnd. destruct Hnd as [Hr Hrows].
    destruct (keep r); simpl; [|exact (IHrows Hrows)].
    apply NoDup_cons; [|exact (IHrows Hrows)].
    intros Hin. apply Hr. apply in_map_iff in Hin.
    destruct Hin as (y & Hy & Hin). apply filter_In in Hin.
    rewrite <- Hy. apply in_map. tauto.
Qed.

Lemma existsb_false_not_in {A} (f : A -> Id) (id : Id) (l : list A) :
  existsb (fun x => String.eqb (f x) id) l = false -> ~ In id (map f l).
Proof.
  intros H Hin. apply in_map_iff in Hin. destruct Hin as (x & Hx & Hin).
  assert (E : existsb (fun x => String.eqb (f x) id) l = true).
  { apply existsb_exists. exists x. split; [exact Hin|].
    apply String.eqb_eq, Hx. }
  congruence.
Qed.

(** *** Operations that keep the counters *)




















(** A run of the services on the fixture: two chapters added, a progress
    saved, the first chapter deleted. *)
Example chapter_counter_run :
  let s' := @runOps exampleCollaborators
              [CreateChapter "m1" (mkChapterData "2" None (ImagesArray ["p1.png"]))
                             None "alice" UPLOADER "c2" 2000 2001;
               CreateChapter "m1" (mkChapterData "2.0" None (ImagesArray ["p1.png"]))
                             None "alice" UPLOADER "c3" 2002 2003;
               SaveProgress "bob" "c2" (mkProgressData 3 10 None) "h1" 2004;
               DeleteChapter "c1" "alice" UPLOADER]
              storeA in
  totalChaptersOf "m1" s' = Some 1 /\ map c_id (chaptersOf "m1" s') = ["c2"].
Proof. cbv zeta. split; reflexivity. Qed.

(** ** Continue reading *)

Lemma insertDesc_In (x y : ReadingHistory) (l : list ReadingHistory) :
  In y (insertDesc x l) <-> y = x \/ In y l.
Proof.
  induction l as [|z l IH]; simpl.
  - intuition.
  - destruct (h_lastReadAt z <=? h_lastReadAt x); simpl; [intuition|].
    rewrite IH. intuition.
Qed.

Lemma orderBy_In (y : ReadingHistory) (l : list ReadingHistory) :
  In y (orderByLastReadAtDesc l) <-> In y l.
Proof.
  induction l as [|x l IH]; simpl; [tauto|].
  rewrite insertDesc_In, IH. intuition.
Qed.

Lemma insertDesc_sorted (x : ReadingHistory) (l : list ReadingHistory) :
  StronglySorted noOlder l -> StronglySorted noOlder (insertDesc x l).
Proof.
  induction l as [|z l IH]; simpl; intros Hs.
  - constructor; constructor.
  - apply StronglySorted_inv in Hs. destruct Hs as [Hs Hz].
    destruct (h_lastReadAt z <=? h_lastReadAt x) eqn:E.
    + apply Z.leb_le in E. constructor.
      * constructor; assumption.
      * constructor; [exact E|].
        apply Forall_forall. intros y Hy.
        rewrite Forall_forall in Hz. specialize (Hz y Hy).
        unfold noOlder in *. lia.
    + apply Z.leb_gt in E. constructor; [apply IH, Hs|].
      apply Forall_forall. intros y Hy. apply insertDesc_In in Hy.
      destruct Hy as [->|Hy].
      * unfold noOlder. lia.
      * rewrite Forall_forall in Hz. apply Hz, Hy.
Qed.

Lemma orderBy_sorted (l : list ReadingHistory) :
  StronglySorted noOlder (orderByLastReadAtDesc l).
Proof.
  induction l as [|x l IH]; simpl; [constructor|].
  apply insertDesc_sorted, IH.
Qed.






Lemma firstn_In_inv {A} (n : nat) (l : list A) (x : A) :
  In x (firstn n l) -> In x l.
Proof.
  intros H. rewrite <- (firstn_skipn n l). apply in_or_app. left. exact H.
Qed.

Lemma firstn_NoDup {A} (n : nat) (l : list A) : NoDup l -> NoDup (firstn n l).
Proof.
  intros H. rewrite <- (firstn_skipn n l) in H.
  exact (NoDup_app_remove_r _ _ H).
Qed.


Lemma formatHistory_ok (s : Store) (l : list ReadingHistory) :
  (forall h, In h l -> manga_findUnique (h_mangaId h) s <> None) ->
  exists items, formatHistory s l = Ok items /\ map hi_history items = l.
Proof.
  induction l as [|x l IH]; simpl; intros H.
  - exists []. split; reflexivity.
  - destruct (manga_findUnique (h_mangaId x) s) as [m|] eqn:E.
    + destruct IH as (items & Hi & Hmap); [intros h Hh; apply H; auto|].
      rewrite Hi. eexists. split; [reflexivity|]. simpl. rewrite Hmap.
      reflexivity.
    + exfalso. apply (H x); auto.
Qed.








(** Three records over two titles give two entries: the most recent record
    of each title, the more recent title first. *)
Example getContinueReading_three_records_two_titles :
  List.length (filter (fun h => String.eqb (h_userId h) "bob") (histories storeB))
  = 3%nat
  /\ titlesRead "bob" storeB = ["m2"; "m1"]
  /\ exists items,
       getContinueReading "bob" 10 storeB = (Ok items, storeB)
       /\ map (fun i => h_id (hi_history i)) items = ["h2"; "h3"].
Proof.
  split; [reflexivity|]. split; [reflexivity|].
  eexists. split; reflexivity.
Qed.

(** ** The random sample *)

Section Shuffle.
Variable A : Type.
Implicit Types (a l : list A) (x y : A) (i j k : nat).
Local Open Scope nat_scope.
Local Open Scope list_scope.

Lemma set_nth_length i x l : List.length (set_nth i x l) = List.length l.
Proof.
  revert i. induction l as [|z l IH]; intros [|i]; simpl; auto.
Qed.

Lemma set_nth_app i x l r :
  i < List.length l -> set_nth i x (l ++ r) = set_nth i x l ++ r.
Proof.
  revert i. induction l as [|z l IH]; intros [|i] H; simpl in *;
    try lia; [reflexivity|].
  rewrite IH; [reflexivity | lia].
Qed.

Lemma set_nth_snoc x y l : set_nth (List.length l) y (l ++ [x]) = l ++ [y].
Proof. induction l as [|z l IH]; simpl; [|rewrite IH]; reflexivity. Qed.

Lemma set_nth_perm j x y l :
  nth_error l j = Some y -> Permutation (y :: set_nth j x l) (x :: l).
Proof.
  revert j. induction l as [|z l IH]; intros [|j] H; simpl in *;
    try discriminate.
  - injection H as ->. apply perm_swap.
  - apply perm_trans with (z :: y :: set_nth j x l); [apply perm_swap|].
    apply perm_trans with (z :: x :: l); [|apply perm_swap].
    apply perm_skip, IH, H.
Qed.

Lemma swap_length a i j : List.length (swap a i j) = List.length a.
Proof.
  unfold swap. destruct (nth_error a i), (nth_error a j); auto.
  rewrite !set_nth_length. reflexivity.
Qed.

Lemma swap_app a r i j :
  i < List.length a -> j < List.length a ->
  swap (a ++ r) i j = swap a i j ++ r.
Proof.
  intros Hi Hj. unfold swap. rewrite !nth_error_app1 by assumption.
  destruct (nth_error a i) as [x|] eqn:Ei;
    [|apply nth_error_None in Ei; lia].
  destruct (nth_error a j) as [y|] eqn:Ej;
    [|apply nth_error_None in Ej; lia].
  rewrite set_nth_app by assumption.
  rewrite set_nth_app by (rewrite set_nth_length; assumption).
  reflexivity.
Qed.

Lemma swap_snoc l x j :
  j <= List.length l ->
  swap (l ++ [x]) (List.length l) j
  = fst (snocStep j l x) ++ [snd (snocStep j l x)].
Proof.
  intros Hj. unfold swap, snocStep.
  rewrite (nth_error_app2 l [x]) by lia. rewrite Nat.sub_diag. simpl.
  destruct (nth_error l j) as [y|] eqn:Ej.
  - assert (j < List.length l) by (apply nth_error_Some; congruence).
    rewrite nth_error_app1, Ej by assumption.
    rewrite set_nth_snoc. simpl. apply set_nth_app. assumption.
  - apply nth_error_None in Ej. assert (j = List.length l) by lia. subst j.
    rewrite nth_error_app2, Nat.sub_diag by lia. simpl.
    rewrite !set_nth_snoc. reflexivity.
Qed.

Lemma snocStep_length j l x :
  List.length (fst (snocStep j l x)) = List.length l.
Proof.
  unfold snocStep. destruct (nth_error l j); simpl; [apply set_nth_length | auto].
Qed.

Lemma snocStep_perm j l x :
  Permutation (fst (snocStep j l x) ++ [snd (snocStep j l x)]) (l ++ [x]).
Proof.
  unfold snocStep. destruct (nth_error l j) as [y|] eqn:Ej; simpl; [|reflexivity].
  apply perm_trans with (y :: set_nth j x l).
  - symmetry. apply Permutation_cons_append.
  - apply perm_trans with (x :: l); [apply set_nth_perm, Ej|].
    apply Permutation_cons_append.
Qed.

(** The element that lands in the last cell is the one at the index drawn. *)
Lemma snocStep_drawn j l x :
  j <= List.length l ->
  nth_error (l ++ [x]) j = Some (snd (snocStep j l x)).
Proof.
  intros Hj. unfold snocStep. destruct (nth_error l j) as [y|] eqn:Ej; simpl.
  - rewrite nth_error_app1; [exact Ej|]. apply nth_error_Some. congruence.
  - apply nth_error_None in Ej. rewrite nth_error_app2 by lia.
    replace (j - List.length l) with 0 by lia. reflexivity.
Qed.

(** The loop from index [i] down leaves the cells above [i] alone. *)
Lemma fisherYates_app draw i a r :
  validDraws draw -> i < List.length a ->
  fisherYates draw i (a ++ r) = fisherYates draw i a ++ r.
Proof.
  intros Hv. revert a. induction i as [|i IH]; intros a Hi; simpl;
    [reflexivity|].
  pose proof (Hv (S i)) as Hj.
  rewrite swap_app by lia. apply IH. rewrite swap_length. lia.
Qed.

Lemma fisherYates_ext draw draw' i a :
  (forall k, 1 <= k <= i -> draw k = draw' k) ->
  fisherYates draw i a = fisherYates draw' i a.
Proof.
  revert a. induction i as [|i IH]; intros a H; simpl; [reflexivity|].
  rewrite (H (S i)) by lia. apply IH. intros k Hk. apply H. lia.
Qed.

Lemma shuffle_snoc draw l x :
  validDraws draw ->
  shuffle draw (l ++ [x])
  = shuffle draw (fst (snocStep (draw (List.length l)) l x))
    ++ [snd (snocStep (draw (List.length l)) l x)].
Proof.
  intros Hv. unfold shuffle. rewrite last_length. simpl. rewrite Nat.sub_0_r.
  rewrite snocStep_length.
  destruct (List.length l) as [|m] eqn:El.
  - apply length_zero_iff_nil in El. subst l. simpl.
    unfold snocStep. destruct (draw 0); reflexivity.
  - simpl. rewrite Nat.sub_0_r. rewrite <- El.
    rewrite swap_snoc by (rewrite El; apply Hv).
    rewrite El. apply fisherYates_app; [exact Hv|].
    rewrite snocStep_length. lia.
Qed.

End Shuffle.

Section ShuffleBijection.
Variable A : Type.
Implicit Types (a l p : list A) (x y : A) (i j k : nat).
Local Open Scope nat_scope.
Local Open Scope list_scope.

Lemma shuffle_ext draw draw' l :
  (forall k, 1 <= k < List.length l -> draw k = draw' k) ->
  shuffle draw l = shuffle draw' l.
Proof.
  intros H. unfold shuffle. apply fisherYates_ext.
  intros k Hk. apply H. lia.
Qed.

Lemma snoc_cases l : l = [] \/ exists l0 x, l = l0 ++ [x].
Proof.
  destruct l as [|z l]; [left; reflexivity|right].
  destruct (exists_last (l := z :: l)) as (l0 & x & H); [discriminate|].
  exists l0, x. exact H.
Qed.

(** With valid draws the shuffle is a permutation of its input. *)
Lemma shuffle_perm draw :
  validDraws draw -> forall l, Permutation (shuffle draw l) l.
Proof.
  intros Hv l. remember (List.length l) as n eqn:Hn.
  revert l Hn. induction n as [|n IH]; intros l Hn.
  - symmetry in Hn. apply length_zero_iff_nil in Hn. subst l. reflexivity.
  - destruct (snoc_cases l) as [->|(l0 & x & ->)]; [discriminate|].
    rewrite last_length in Hn. injection Hn as Hn.
    rewrite shuffle_snoc by exact Hv.
    apply perm_trans with (fst (snocStep (draw (List.length l0)) l0 x)
                           ++ [snd (snocStep (draw (List.length l0)) l0 x)]).
    + apply Permutation_app_tail. apply IH.
      rewrite snocStep_length. exact Hn.
    + apply snocStep_perm.
Qed.

(** Two valid sequences of draws that shuffle a duplicate-free array into
    the same array made the same draw at every index of the loop. *)
Lemma shuffle_inj draw draw' :
  validDraws draw -> validDraws draw' ->
  forall l, NoDup l -> shuffle draw l = shuffle draw' l ->
            forall k, 1 <= k < List.length l -> draw k = draw' k.
Proof.
  intros Hv Hv' l. remember (List.length l) as n eqn:Hn.
  revert l Hn. induction n as [|n IH]; intros l Hn Hnd Heq k Hk; [lia|].
  destruct (snoc_cases l) as [->|(l0 & x & ->)]; [discriminate|].
  rewrite last_length in Hn. injection Hn as Hn.
  rewrite (shuffle_snoc _ draw) in Heq by exact Hv.
  rewrite (shuffle_snoc _ draw') in Heq by exact Hv'.
  apply app_inj_tail in Heq. destruct Heq as [Heq Hy].
  assert (Hj : draw (List.length l0) = draw' (List.length l0)).
  { pose proof (snocStep_drawn _ (draw (List.length l0)) l0 x (Hv _)) as H1.
    pose proof (snocStep_drawn _ (draw' (List.length l0)) l0 x (Hv' _)) as H2.
    rewrite Hy in H1. rewrite <- H2 in H1.
    apply (proj1 (NoDup_nth_error (l0 ++ [x])) Hnd); [|exact H1].
    rewrite last_length. pose proof (Hv (List.length l0)). lia. }
  destruct (Nat.eq_dec k n) as [->|Hkn]; [rewrite Hn; exact Hj|].
  rewrite <- Hj in Heq.
  apply (IH (fst (snocStep (draw (List.length l0)) l0 x))).
  - rewrite snocStep_length. exact Hn.
  - apply (NoDup_app_remove_r _ [snd (snocStep (draw (List.length l0)) l0 x)]).
    apply (Permutation_NoDup (l := l0 ++ [x])); [|exact Hnd].
    symmetry. apply snocStep_perm.
  - exact Heq.
  - lia.
Qed.

(** Every permutation of the array is the outcome of some valid sequence
    of draws. *)
Lemma shuffle_surj l :
  forall p, Permutation l p ->
            exists draw, validDraws draw /\ shuffle draw l = p.
Proof.
  remember (List.length l) as n eqn:Hn.
  revert l Hn. induction n as [|n IH]; intros l Hn p Hp.
  - symmetry in Hn. apply length_zero_iff_nil in Hn. subst l.
    apply Permutation_nil in Hp. subst p.
    exists (fun _ => 0). split; [intros i; lia | reflexivity].
  - destruct (snoc_cases l) as [->|(l0 & x & ->)]; [discriminate|].
    rewrite last_length in Hn. injection Hn as Hn.
    destruct (snoc_cases p) as [->|(p0 & e & ->)].
    { apply Permutation_length in Hp. rewrite last_length in Hp. discriminate. }
    assert (He : In e (l0 ++ [x])).
    { apply (Permutation_in (l := p0 ++ [e])); [symmetry; exact Hp|].
      apply in_or_app. right. left. reflexivity. }
    apply In_nth_error in He. destruct He as [j Hj].
    assert (Hjl : j <= List.length l0).
    { assert (j < List.length (l0 ++ [x])) by (apply nth_error_Some; congruence).
      rewrite last_length in H. lia. }
    pose proof (snocStep_drawn _ j l0 x Hjl) as Hd.
    rewrite Hj in Hd. injection Hd as Hd.
    assert (Hp1 : Permutation (fst (snocStep j l0 x)) p0).
    { apply (Permutation_app_inv_r [e]).
      apply perm_trans with (l0 ++ [x]); [|exact Hp].
      rewrite Hd. apply snocStep_perm. }
    destruct (IH (fst (snocStep j l0 x))
                 (eq_sym (eq_trans (snocStep_length _ j l0 x) (eq_sym Hn)))
                 p0 Hp1)
      as (draw1 & Hv1 & Hs1).
    exists (fun k => if Nat.eqb k n then j else draw1 k). split.
    + intros i. destruct (Nat.eqb i n) eqn:E; [|apply Hv1].
      apply Nat.eqb_eq in E. lia.
    + rewrite shuffle_snoc.
      * rewrite <- Hn, Nat.eqb_refl, <- Hd. f_equal.
        rewrite <- Hs1. apply shuffle_ext. intros k Hk.
        rewrite snocStep_length in Hk.
        destruct (Nat.eqb k n) eqn:E; [|reflexivity].
        apply Nat.eqb_eq in E. lia.
      * intros i. destruct (Nat.eqb i n) eqn:E; [|apply Hv1].
        apply Nat.eqb_eq in E. lia.
Qed.

End ShuffleBijection.

Lemma ApprovalStatus_eqb_eq (a b : ApprovalStatus) :
  ApprovalStatus_eqb a b = true <-> a = b.
Proof. destruct a, b; simpl; split; intros H; congruence. Qed.

Lemma NoDup_map_inj {A B} (f : A -> B) (l : list A) (x y : A) :
  NoDup (map f l) -> In x l -> In y l -> f x = f y -> x = y.
Proof.
  induction l as [|z l IH]; simpl; intros Hnd Hx Hy Hf; [destruct Hx|].
  inversion Hnd as [|? ? Hz Hl]; subst.
  destruct Hx as [->|Hx], Hy as [->|Hy]; auto.
  - exfalso. apply Hz. rewrite Hf. apply in_map, Hy.
  - exfalso. apply Hz. rewrite <- Hf. apply in_map, Hx.
Qed.

Lemma existsb_eqb_In (id : Id) (l : list Id) :
  existsb (String.eqb id) l = true <-> In id l.
Proof.
  rewrite existsb_exists. split.
  - intros (y & Hy & E). apply String.eqb_eq in E. subst y. exact Hy.
  - intros H. exists id. split; [exact H | apply String.eqb_refl].
Qed.

(** getRandomManga returns the titles whose id is among the first [limit]
    ids of the shuffled pool. *)
Lemma getRandomManga_selected (limit : nat) (draw : nat -> nat) (s : Store) :
  map fm_manga (getRandomManga limit draw s)
  = filter (fun m => existsb (String.eqb (m_id m))
                             (firstn limit (shuffle draw (approvedIds s))))
           (mangas s).
Proof.
  unfold getRandomManga. fold (approvedIds s).
  destruct (Nat.eqb _ 0) eqn:E.
  - apply Nat.eqb_eq, length_zero_iff_nil in E.
    unfold approvedIds. rewrite E. simpl.
    assert (H : firstn limit (@shuffle Id draw []) = []).
    { unfold shuffle. simpl. apply firstn_nil. }
    rewrite H. simpl. clear E.
    induction (mangas s) as [|m l IH]; [reflexivity|].
    simpl. exact IH.
  - rewrite map_map. simpl. apply map_id.
Qed.

(** C7. getRandomManga shuffles the ids of all APPROVED titles with the
    Fisher-Yates loop and keeps the titles of the first [limit] ids.  With
    ids unique and draws in range (0 <= j <= i): every title returned is an
    APPROVED title of the store, no id is returned twice, min(limit, pool
    size) titles are returned, and their ids are the prefix of the shuffled
    pool; when the limit reaches the pool size every APPROVED title is
    returned exactly once.  The shuffle is unbiased in the combinatorial
    sense: it maps the valid sequences of draws one-to-one onto the
    permutations of the pool (each permutation is reached, and by exactly
    one choice of the draws at indices 1 .. n-1), so uniform independent
    draws make every permutation equally likely. *)
Theorem getRandomManga_sample :
  forall (s : Store) (limit : nat) (draw : nat -> nat),
    NoDup (map m_id (mangas s)) ->
    validDraws draw ->
    let result := map fm_manga (getRandomManga limit draw s) in
    (forall m, In m result ->
               In m (mangas s) /\ m_approvalStatus m = APPROVED)
    /\ NoDup (map m_id result)
    /\ List.length result = Nat.min limit (List.length (approvedIds s))
    /\ Permutation (map m_id result)
                   (firstn limit (shuffle draw (approvedIds s)))
    /\ Permutation (shuffle draw (approvedIds s)) (approvedIds s)
    /\ (List.length (approvedIds s) <= limit ->
        Permutation (map m_id result) (approvedIds s))%nat
    /\ (forall p, Permutation (approvedIds s) p ->
          exists d, validDraws d /\ shuffle d (approvedIds s) = p
                    /\ forall d', validDraws d' ->
                                  shuffle d' (approvedIds s) = p ->
                                  forall k, (1 <= k < List.length (approvedIds s))%nat ->
                                            d' k = d k).
Proof.
  intros s limit draw Hids Hv result.
  set (pool := approvedIds s).
  set (selected := firstn limit (shuffle draw pool)).
  assert (Hres : result
                 = filter (fun m => existsb (String.eqb (m_id m)) selected)
                          (mangas s))
    by apply getRandomManga_selected.
  assert (Hpool : NoDup pool).
  { unfold pool, approvedIds. apply unique_key_filter, Hids. }
  assert (Hperm : Permutation (shuffle draw pool) pool)
    by (apply shuffle_perm, Hv).
  assert (Hsel : NoDup selected).
  { apply firstn_NoDup. apply (Permutation_NoDup (l := pool));
      [symmetry; exact Hperm | exact Hpool]. }
  assert (Hsub : forall id, In id selected -> In id pool).
  { intros id H. apply firstn_In_inv in H.
    exact (Permutation_in _ Hperm H). }
  assert (Hin : forall m, In m result <->
                          In m (mangas s) /\ In (m_id m) selected).
  { intros m. rewrite Hres, filter_In, existsb_eqb_In. tauto. }
  assert (Hpick : Permutation (map m_id result) selected).
  { apply NoDup_Permutation; [|exact Hsel|].
    - rewrite Hres. apply unique_key_filter, Hids.
    - intros id. split.
      + intros H. apply in_map_iff in H. destruct H as (m & <- & Hm).
        apply Hin in Hm. tauto.
      + intros H. pose proof (Hsub id H) as Hp.
        unfold pool, approvedIds in Hp. apply in_map_iff in Hp.
        destruct Hp as (m & <- & Hm). apply filter_In in Hm.
        apply in_map. apply Hin. tauto. }
  repeat split.
  - apply Hin in H. tauto.
  - apply Hin in H. destruct H as [Hm Hs].
    apply Hsub in Hs. unfold pool, approvedIds in Hs.
    apply in_map_iff in Hs. destruct Hs as (m' & Hid & Hm').
    apply filter_In in Hm'. destruct Hm' as [Hm' Ha].
    apply ApprovalStatus_eqb_eq in Ha.
    rewrite <- (NoDup_map_inj m_id (mangas s) m' m Hids Hm' Hm Hid). exact Ha.
  - apply (Permutation_NoDup (l := selected)); [symmetry; exact Hpick | exact Hsel].
  - rewrite <- (length_map m_id result), (Permutation_length Hpick).
    unfold selected. rewrite length_firstn.
    rewrite (Permutation_length Hperm). reflexivity.
  - exact Hpick.
  - exact Hperm.
  - intros Hle. apply perm_trans with selected; [exact Hpick|].
    unfold selected. rewrite firstn_all2; [exact Hperm|].
    rewrite (Permutation_length Hperm). exact Hle.
  - intros p Hp. destruct (shuffle_surj _ pool p Hp) as (d & Hd & Hs).
    exists d. split; [exact Hd|]. split; [exact Hs|].
    intros d' Hd' Hs' k Hk.
    apply (shuffle_inj _ d' d Hd' Hd pool Hpool); [congruence | exact Hk].
Qed.

Lemma getRandomManga_sample_witness :
  NoDup (map m_id (mangas storeC))
  /\ validDraws (fun _ => 0%nat)
  /\ List.length (approvedIds storeC) = 5%nat
  /\ Permutation
       (map m_id (map fm_manga (getRandomManga 5 (fun _ => 0%nat) storeC)))
       (approvedIds storeC).
Proof.
  assert (Hnd : NoDup (map m_id (mangas storeC))).
  { simpl. repeat (constructor; [simpl; intuition discriminate|]). constructor. }
  assert (Hv : validDraws (fun _ => 0%nat)) by (intros i; apply Nat.le_0_l).
  split; [exact Hnd|]. split; [exact Hv|]. split; [reflexivity|].
  destruct (getRandomManga_sample storeC 5 (fun _ => 0%nat) Hnd Hv)
    as (_ & _ & _ & _ & _ & Hall & _).
  apply Hall. apply Nat.le_refl.
Defined.

(** Five from a pool of five: all five, once each.  The rows come back in
    the order of the final findMany (table order), whatever was drawn. *)
Example getRandomManga_five_of_five :
  map (fun r => m_id (fm_manga r)) (getRandomManga 5 (fun _ => 0%nat) storeC)
  = ["m1"; "m2"; "m4"; "m5"; "m6"]
  /\ map (fun r => m_id (fm_manga r)) (getRandomManga 5 (fun i => i) storeC)
     = ["m1"; "m2"; "m4"; "m5"; "m6"]
  /\ shuffle (fun _ => 0%nat) (approvedIds storeC) = ["m2"; "m4"; "m5"; "m6"; "m1"]
  /\ map (fun r => m_id (fm_manga r)) (getRandomManga 2 (fun _ => 0%nat) storeC)
     = ["m2"; "m4"].
Proof. repeat split. Qed.

(** ** Title creation *)

Section TitleCreation.
Context {X : Collaborators}.

Lemma manga_create_same_outcome (m1 m2 : Manga) (a g : list string)
      (idOf : nat -> Id) (s : Store) :
  m_id m1 = m_id m2 ->
  slugUnused (m_slug m1) s -> slugUnused (m_slug m2) s ->
  (exists e, manga_create m1 a g idOf s = (Err e, s)
             /\ manga_create m2 a g idOf s = (Err e, s))
  \/ (exists s1 s2, manga_create m1 a g idOf s = (Ok m1, s1)
                    /\ manga_create m2 a g idOf s = (Ok m2, s2)
                    /\ In m1 (mangas s1) /\ In m2 (mangas s2)).
Proof.
  unfold slugUnused. intros Hid H1 H2. unfold manga_create.
  rewrite H1, H2, Hid. clear H1 H2.
  match goal with
  | |- context [if existsb ?f (mangas s) then _ else _] =>
      destruct (existsb f (mangas s)); [left; eauto|]
  end.
  destruct (connectAll (m_id m2) a idOf 1 (authors s) (mangaAuthors s))
    as [[[authors' joins'] k]|e]; [|left; eauto].
  destruct (connectAll (m_id m2) g idOf k (genres s) (mangaGenres s))
    as [[[genres' joins2] k2]|e]; [|left; eauto].
  right. eexists. eexists. split; [reflexivity|]. split; [reflexivity|].
  simpl. split; apply in_or_app; right; left; reflexivity.
Qed.

Lemma imageOf_state (file : option File) (url : option string) (s : Store) :
  exists r, imageOf file url s = (r, s).
Proof.
  unfold imageOf, bind, lift, ret. destruct file as [f|]; [|eauto].
  destruct (uploadSingleImage f "manga/covers"); eauto.
Qed.

Lemma parseNames_state (v : ArrayInput) (s : Store) :
  exists r, parseNames v s = (r, s).
Proof.
  unfold parseNames, ret, throw. destruct v as [|text|l]; eauto.
  destruct (JSON_parse text); eauto.
Qed.

Lemma sameOutcome_Err (t1 t2 : string) (e : Error) (s : Store) :
  sameOutcome t1 t2 (Err e, s) (Err e, s) s.
Proof. unfold sameOutcome. simpl. auto. Qed.

Lemma createManga_title_irrelevant (t1 t2 : string) (d : MangaData)
      (files : option MangaFiles) (userId : Id) (userRole : Role)
      (idOf : nat -> Id) (s : Store) :
  slugUnused (createSlug t1) s -> slugUnused (createSlug t2) s ->
  sameOutcome t1 t2
    (createManga (withTitle (Some t1) d) files userId userRole idOf s)
    (createManga (withTitle (Some t2) d) files userId userRole idOf s) s.
Proof.
  intros H1 H2. unfold createManga, bind. simpl.
  destruct (imageOf_state
              (match files with Some f => mf_thumbnail f | None => None end)
              (md_thumbnail d) s) as [r Hr].
  rewrite Hr. destruct r as [thumbnail|e]; [|apply sameOutcome_Err].
  destruct (imageOf_state
              (match files with Some f => mf_coverImage f | None => None end)
              (md_coverImage d) s) as [r Hc].
  rewrite Hc. destruct r as [coverImage|e]; [|apply sameOutcome_Err].
  unfold ret.
  destruct (parseNames_state (md_authorNames d) s) as [r Ha].
  rewrite Ha. destruct r as [authorsArray|e]; [|apply sameOutcome_Err].
  destruct (parseNames_state (md_genreNames d) s) as [r Hg].
  rewrite Hg. destruct r as [genresArray|e]; [|apply sameOutcome_Err].
  match goal with
  | |- context [match ?stage s with _ => _ end] =>
      assert (Hst : exists r, stage s = (r, s));
      [|destruct Hst as [r Hst]; rewrite Hst]
  end.
  { destruct (md_alternativeTitles d) as [|[|c text]|l]; unfold ret, throw;
      eauto.
    destruct (JSON_parse (String c text)); eauto. }
  destruct r as [altTitlesArray|e]; [|apply sameOutcome_Err].
  destruct authorsArray as [authorsArray|]; [|apply sameOutcome_Err].
  destruct genresArray as [genresArray|]; [|apply sameOutcome_Err].
  destruct (manga_create_same_outcome
              (newManga (idOf O) t1 (createSlug t1) altTitlesArray
                        (withTitle (Some t1) d) thumbnail coverImage
                        userId userRole)
              (newManga (idOf O) t2 (createSlug t2) altTitlesArray
                        (withTitle (Some t2) d) thumbnail coverImage
                        userId userRole)
              authorsArray genresArray idOf s eq_refl H1 H2)
    as [(e & E1 & E2)|(s1 & s2 & E1 & E2 & I1 & I2)];
    rewrite E1, E2.
  - apply sameOutcome_Err.
  - unfold sameOutcome, ret. simpl. auto 10.
Qed.

Lemma createManga_controller_title_irrelevant (t1 t2 : string) (d : MangaData)
      (files : option MangaFiles) (userId : Id) (userRole : Role)
      (idOf : nat -> Id) (s : Store) :
  slugUnused (createSlug t1) s -> slugUnused (createSlug t2) s ->
  sameOutcome t1 t2
    (createManga_controller (withTitle (Some t1) d) files userId userRole idOf s)
    (createManga_controller (withTitle (Some t2) d) files userId userRole idOf s)
    s.
Proof.
  intros H1 H2. unfold createManga_controller, bind. simpl.
  destruct (imageOf_state
              (match files with Some f => mf_thumbnail f | None => None end)
              (md_thumbnail d) s) as [r Hr].
  rewrite Hr. destruct r as [thumbnail|e]; [|apply sameOutcome_Err].
  destruct (imageOf_state
              (match files with Some f => mf_coverImage f | None => None end)
              (md_coverImage d) s) as [r Hc].
  rewrite Hc. destruct r as [coverImage|e]; [|apply sameOutcome_Err].
  unfold ret, throw.
  destruct (parseToArray (md_authorNames d)) as [authorsArray|];
    [|apply sameOutcome_Err].
  destruct (parseToArray (md_genreNames d)) as [genresArray|];
    [|apply sameOutcome_Err].
  destruct (parseToArray (md_alternativeTitles d)) as [altTitlesArray|];
    [|apply sameOutcome_Err].
  destruct (manga_create_same_outcome
              (newManga (idOf O) t1 (createSlug t1) altTitlesArray
                        (withTitle (Some t1) d) thumbnail coverImage
                        userId userRole)
              (newManga (idOf O) t2 (createSlug t2) altTitlesArray
                        (withTitle (Some t2) d) thumbnail coverImage
                        userId userRole)
              authorsArray genresArray idOf s eq_refl H1 H2)
    as [(e & E1 & E2)|(s1 & s2 & E1 & E2 & I1 & I2)];
    rewrite E1, E2.
  - apply sameOutcome_Err.
  - unfold sameOutcome, ret. simpl. auto 10.
Qed.

End TitleCreation.

(** A request with no title at all stops at createSlug, on the Error
    slugify throws for a non-string, before anything is written. *)
Lemma createManga_missing_title :
  forall (X : Collaborators) (d : MangaData) (userId : Id) (userRole : Role)
         (idOf : nat -> Id) (s : Store),
    createManga (withTitle None d) None userId userRole idOf s
    = (Err (JsError "slugify: string argument expected"), s)
    /\ createManga_controller (withTitle None d) None userId userRole idOf s
       = (Err (JsError "slugify: string argument expected"), s).
Proof. intros. split; reflexivity. Qed.

(** C9, as the code has it.  createManga, in the service and in the
    controller, applies no check to the title name.  A request whose title
    is the empty string ends the way the same request under any other
    title ends (both slugs being unused): with the same error and nothing
    written, or with success, and then a Title with the empty name is
    persisted. *)
Theorem createManga_empty_title :
  forall (X : Collaborators) (title : string) (d : MangaData)
         (files : option MangaFiles) (userId : Id) (userRole : Role)
         (idOf : nat -> Id) (s : Store),
    slugUnused (createSlug "") s -> slugUnused (createSlug title) s ->
    sameOutcome "" title
      (createManga (withTitle (Some "") d) files userId userRole idOf s)
      (createManga (withTitle (Some title) d) files userId userRole idOf s) s
    /\ sameOutcome "" title
         (createManga_controller (withTitle (Some "") d) files userId userRole
                                 idOf s)
         (createManga_controller (withTitle (Some title) d) files userId
                                 userRole idOf s) s.
Proof.
  intros X title d files userId userRole idOf s H1 H2. split.
  - apply createManga_title_irrelevant; assumption.
  - apply createManga_controller_title_irrelevant; assumption.
Qed.

Lemma createManga_empty_title_witness :
  @slugUnused (@createSlug exampleCollaborators "") emptyStore
  /\ @slugUnused (@createSlug exampleCollaborators "One Piece") emptyStore
  /\ sameOutcome "" "One Piece"
       (@createManga exampleCollaborators (withTitle (Some "") exampleRequest)
          None "alice" UPLOADER (fun k => String (ascii_of_nat (65 + k)) "")
          emptyStore)
       (@createManga exampleCollaborators
          (withTitle (Some "One Piece") exampleRequest)
          None "alice" UPLOADER (fun k => String (ascii_of_nat (65 + k)) "")
          emptyStore)
       emptyStore.
Proof.
  split; [reflexivity|]. split; [reflexivity|].
  apply (createManga_empty_title exampleCollaborators "One Piece" exampleRequest
           None "alice" UPLOADER (fun k => String (ascii_of_nat (65 + k)) "")
           emptyStore); reflexivity.
Defined.

(** C9 as stated fails: a creation request with the empty title is
    accepted by the service and by the controller, and a Title named ""
    is in the store afterwards. *)
Lemma createManga_empty_title_accepted :
  let idOf := fun k => String (ascii_of_nat (65 + k)) "" in
  let r := @createManga exampleCollaborators
             (withTitle (Some "") exampleRequest) None "alice" UPLOADER idOf
             emptyStore in
  let rc := @createManga_controller exampleCollaborators
              (withTitle (Some "") exampleRequest) None "alice" UPLOADER idOf
              emptyStore in
  (exists m msg, fst r = Ok (m, msg) /\ m_title m = ""
                 /\ map m_title (mangas (snd r)) = [""])
  /\ (exists m msg, fst rc = Ok (m, msg) /\ m_title m = ""
                    /\ map m_title (mangas (snd rc)) = [""])
  /\ (forall msg, fst r <> Err (AppError msg 400))
  /\ (forall msg, fst rc <> Err (AppError msg 400)).
Proof.
  cbv zeta. split; [|split; [|split]].
  - eexists. eexists. vm_compute. repeat split.
  - eexists. eexists. vm_compute. repeat split.
  - intros msg. vm_compute. discriminate.
  - intros msg. vm_compute. discriminate.
Qed.

(** * Properties of the rest of the services *)

(** ** Bookmarks: add and remove *)

Lemma addBookmark_inv userId mangaId newId now s item s' :
  addBookmark userId mangaId newId now s = (Ok item, s') ->
  exists manga,
    manga_findUnique mangaId s = Some manga
    /\ bookmark_findUnique userId mangaId s = None
    /\ existsb (fun b => String.eqb (b_id b) newId) (bookmarks s) = false
    /\ s' = set_bookmarks s (bookmarks s ++ [mkBookmark newId userId mangaId now])
    /\ item = mkBookmarkItem (mkBookmark newId userId mangaId now)
                             (formatManga s' manga).
Proof.
  unfold addBookmark, bind, read, throw, ret, get, lift.
  destruct (manga_findUnique mangaId s) as [manga|] eqn:Hm; [|discriminate].
  destruct (bookmark_findUnique userId mangaId s) eqn:Hb; [discriminate|].
  unfold bookmark_create. rewrite Hb, Hm.
  destruct (existsb _ (bookmarks s)) eqn:Hid; [discriminate|].
  unfold formatBookmarks, manga_findUnique in *. simpl. rewrite Hm.
  intros [= <- <-]. exists manga. repeat split.
Qed.

Lemma bookmark_key_new userId mangaId newId now :
  (String.eqb (b_userId (mkBookmark newId userId mangaId now)) userId
   && String.eqb (b_mangaId (mkBookmark newId userId mangaId now)) mangaId)%bool
  = true.
Proof. simpl. rewrite !String.eqb_refl. reflexivity. Qed.

(** X1. A bookmark that addBookmark has stored is what checkBookmark finds:
    the pair was not bookmarked, the row of the new id is appended to the
    table, nothing else is written, and checkBookmark then answers
    isBookmarked with that id. *)
Theorem addBookmark_then_checkBookmark :
  forall (userId mangaId newId : Id) (now : Date) (s s' : Store)
         (item : BookmarkItem),
    addBookmark userId mangaId newId now s = (Ok item, s') ->
    bookmarked userId mangaId s = false
    /\ bi_bookmark item = mkBookmark newId userId mangaId now
    /\ s' = set_bookmarks s (bookmarks s ++ [bi_bookmark item])
    /\ checkBookmark userId mangaId s' = (Ok (true, Some newId), s').
Proof.
  intros userId mangaId newId now s s' item H.
  destruct (addBookmark_inv _ _ _ _ _ _ _ H) as (manga & Hm & Hb & Hid & Hs & Hi).
  rewrite bookmarked_find, Hb. subst item. simpl. repeat split; [exact Hs|].
  unfold checkBookmark, bind, read, ret, bookmark_findUnique.
  rewrite Hs. simpl.
  rewrite (find_app_none _ _ _ Hb), bookmark_key_new. reflexivity.
Qed.

(** X2. Once a title is bookmarked through addBookmark, adding it again is
    refused with 400 'Manga already bookmarked', whatever id and instant the
    database would have used, and nothing is written. *)
Theorem addBookmark_twice_refused :
  forall (userId mangaId newId newId' : Id) (now now' : Date) (s s' : Store)
         (item : BookmarkItem),
    addBookmark userId mangaId newId now s = (Ok item, s') ->
    addBookmark userId mangaId newId' now' s'
    = (Err (AppError "Manga already bookmarked" 400), s').
Proof.
  intros userId mangaId newId newId' now now' s s' item H.
  destruct (addBookmark_inv _ _ _ _ _ _ _ H) as (manga & Hm & Hb & Hid & Hs & Hi).
  unfold addBookmark, bind, read, throw.
  assert (Hm' : manga_findUnique mangaId s' = Some manga) by (rewrite Hs; exact Hm).
  rewrite Hm'.
  assert (Hb' : bookmark_findUnique userId mangaId s'
                = Some (mkBookmark newId userId mangaId now)).
  { unfold bookmark_findUnique. rewrite Hs. simpl.
    rewrite (find_app_none _ _ _ Hb), bookmark_key_new. reflexivity. }
  rewrite Hb'. reflexivity.
Qed.

Lemma filter_app_last_out {A} (p : A -> bool) (l : list A) (x : A) :
  p x = false -> filter p l = l -> filter p (l ++ [x]) = l.
Proof.
  intros Hx Hl. rewrite filter_app, Hl. simpl. rewrite Hx. apply app_nil_r.
Qed.

(** X3. RemoveBookmark undoes addBookmark: after a successful addBookmark,
    removeBookmark of the same pair answers true and leaves the store
    exactly as it was before the bookmark was added. *)
Theorem addBookmark_removeBookmark_round_trip :
  forall (userId mangaId newId : Id) (now : Date) (s s' : Store)
         (item : BookmarkItem),
    addBookmark userId mangaId newId now s = (Ok item, s') ->
    removeBookmark userId mangaId s' = (Ok true, s).
Proof.
  intros userId mangaId newId now s s' item H.
  destruct (addBookmark_inv _ _ _ _ _ _ _ H) as (manga & Hm & Hb & Hid & Hs & Hi).
  assert (Hb' : bookmark_findUnique userId mangaId s'
                = Some (mkBookmark newId userId mangaId now)).
  { unfold bookmark_findUnique. rewrite Hs. simpl.
    rewrite (find_app_none _ _ _ Hb), bookmark_key_new. reflexivity. }
  unfold removeBookmark, bind, read, ret. rewrite Hb'.
  unfold bookmark_delete. rewrite Hb'. f_equal.
  rewrite Hs. unfold set_bookmarks. simpl.
  rewrite filter_app_last_out.
  - destruct s; reflexivity.
  - rewrite bookmark_key_new. reflexivity.
  - apply filter_negb_find_none. exact Hb.
Qed.

Lemma addBookmark_then_checkBookmark_witness :
  exists item s',
    addBookmark "bob" "m1" "b1" 5000 storeA = (Ok item, s')
    /\ bookmarked "bob" "m1" storeA = false
    /\ checkBookmark "bob" "m1" s' = (Ok (true, Some "b1"), s').
Proof.
  eexists. eexists. split; [reflexivity|].
  destruct (addBookmark_then_checkBookmark "bob" "m1" "b1" 5000 storeA _ _ eq_refl)
    as (H1 & _ & _ & H4).
  split; [exact H1 | exact H4].
Defined.

Lemma addBookmark_twice_refused_witness :
  exists item s',
    addBookmark "bob" "m1" "b1" 5000 storeA = (Ok item, s')
    /\ addBookmark "bob" "m1" "b2" 6000 s'
       = (Err (AppError "Manga already bookmarked" 400), s').
Proof.
  eexists. eexists. split; [reflexivity|].
  apply (addBookmark_twice_refused "bob" "m1" "b1" "b2" 5000 6000 storeA _ _ eq_refl).
Defined.

Lemma addBookmark_removeBookmark_round_trip_witness :
  exists item s',
    addBookmark "bob" "m1" "b1" 5000 storeA = (Ok item, s')
    /\ removeBookmark "bob" "m1" s' = (Ok true, storeA).
Proof.
  eexists. eexists. split; [reflexivity|].
  apply (addBookmark_removeBookmark_round_trip "bob" "m1" "b1" 5000 storeA _ _ eq_refl).
Defined.

Lemma pair_key_false (u m u' m' : Id) :
  (u', m') <> (u, m) -> (String.eqb u u' && String.eqb m m')%bool = false.
Proof.
  intros Hne. apply andb_false_iff.
  destruct (String.eqb u u') eqn:E1; [|left; reflexivity].
  destruct (String.eqb m m') eqn:E2; [|right; reflexivity].
  apply String.eqb_eq in E1, E2. exfalso. apply Hne. congruence.
Qed.

(** X4. RemoveBookmark succeeds exactly on a bookmarked pair.  On a pair
    that is not bookmarked it fails with 404 'Bookmark not found' and writes
    nothing; on a bookmarked pair it answers true, the pair is no longer
    bookmarked, every other pair keeps its bookmark and no other table
    changes. *)
Theorem removeBookmark_outcome :
  forall (userId mangaId : Id) (s : Store),
    (bookmarked userId mangaId s = false ->
     removeBookmark userId mangaId s
     = (Err (AppError "Bookmark not found" 404), s))
    /\ (bookmarked userId mangaId s = true ->
        fst (removeBookmark userId mangaId s) = Ok true
        /\ bookmarked userId mangaId (snd (removeBookmark userId mangaId s)) = false
        /\ (forall u m, (u, m) <> (userId, mangaId) ->
              bookmark_findUnique u m (snd (removeBookmark userId mangaId s))
              = bookmark_findUnique u m s)
        /\ set_bookmarks (snd (removeBookmark userId mangaId s)) (bookmarks s) = s).
Proof.
  intros userId mangaId s. rewrite !bookmarked_find.
  destruct (bookmark_findUnique userId mangaId s) as [b|] eqn:Hb.
  - assert (Hr : removeBookmark userId mangaId s
                 = (Ok true,
                    set_bookmarks s
                      (filter (fun b => negb (String.eqb (b_userId b) userId
                                              && String.eqb (b_mangaId b) mangaId))
                              (bookmarks s)))).
    { unfold removeBookmark, bind, read, ret, bookmark_delete.
      rewrite Hb. cbv beta. rewrite Hb. reflexivity. }
    rewrite Hr. split; [discriminate|]. intros _. simpl.
    split; [reflexivity|]. split; [|split].
    + unfold bookmark_findUnique. simpl.
      rewrite (find_filter_negb_none
                 (fun b => (String.eqb (b_userId b) userId
                            && String.eqb (b_mangaId b) mangaId)%bool)).
      reflexivity.
    + intros u m Hne. unfold bookmark_findUnique. simpl.
      apply find_filter_other. apply pair_key_other, Hne.
    + destruct s; reflexivity.
  - split; [|discriminate]. intros _.
    unfold removeBookmark, bind, read, throw. rewrite Hb. reflexivity.
Qed.

Lemma removeBookmark_outcome_witness :
  bookmarked "bob" "m1" storeA = false
  /\ removeBookmark "bob" "m1" storeA
     = (Err (AppError "Bookmark not found" 404), storeA).
Proof.
  split; [reflexivity|].
  apply (proj1 (removeBookmark_outcome "bob" "m1" storeA)). reflexivity.
Defined.

(** X5. ToggleBookmark is addBookmark on a pair that is not bookmarked and
    removeBookmark on one that is: on an existing title it completes exactly
    when the other would, and it leaves the same store. *)
Theorem toggleBookmark_is_add_or_remove :
  forall (userId mangaId newId : Id) (now : Date) (s : Store),
    manga_findUnique mangaId s <> None ->
    (bookmarked userId mangaId s = false ->
     snd (toggleBookmark userId mangaId newId now s)
     = snd (addBookmark userId mangaId newId now s)
     /\ succeeded (fst (toggleBookmark userId mangaId newId now s))
        = succeeded (fst (addBookmark userId mangaId newId now s)))
    /\ (bookmarked userId mangaId s = true ->
        snd (toggleBookmark userId mangaId newId now s)
        = snd (removeBookmark userId mangaId s)
        /\ succeeded (fst (toggleBookmark userId mangaId newId now s))
           = succeeded (fst (removeBookmark userId mangaId s))).
Proof.
  intros userId mangaId newId now s Hm. rewrite bookmarked_find.
  unfold toggleBookmark, addBookmark, removeBookmark, bind, read, throw, ret,
    get, lift.
  destruct (manga_findUnique mangaId s) as [manga|] eqn:Em; [|contradiction].
  destruct (bookmark_findUnique userId mangaId s) as [b|] eqn:Hb.
  - split; [discriminate|]. intros _.
    destruct (bookmark_delete userId mangaId s) as [[[]|e] s1]; split; reflexivity.
  - split; [|discriminate]. intros _.
    unfold bookmark_create. rewrite Hb, Em.
    destruct (existsb _ (bookmarks s)); [split; reflexivity|].
    unfold formatBookmarks, manga_findUnique in *. simpl. rewrite Em.
    split; reflexivity.
Qed.

Lemma toggleBookmark_is_add_or_remove_witness :
  manga_findUnique "m1" storeA <> None
  /\ bookmarked "bob" "m1" storeA = false
  /\ snd (toggleBookmark "bob" "m1" "b1" 5000 storeA)
     = snd (addBookmark "bob" "m1" "b1" 5000 storeA).
Proof.
  assert (Hm : manga_findUnique "m1" storeA <> None) by discriminate.
  split; [exact Hm|]. split; [reflexivity|].
  apply (proj1 (toggleBookmark_is_add_or_remove "bob" "m1" "b1" 5000 storeA Hm)).
  reflexivity.
Defined.

(** ** Ordered and paged lists *)

Lemma insertBy_perm {A} (before : A -> A -> bool) (x : A) (l : list A) :
  Permutation (insertBy before x l) (x :: l).
Proof.
  induction l as [|y r IH]; simpl; [apply Permutation_refl|].
  destruct (before x y); [apply Permutation_refl|].
  apply perm_trans with (y :: x :: r); [apply perm_skip, IH | apply perm_swap].
Qed.

Lemma sortRows_perm {A} (before : A -> A -> bool) (l : list A) :
  Permutation (sortRows before l) l.
Proof.
  induction l as [|x r IH]; simpl; [apply perm_nil|].
  apply perm_trans with (x :: sortRows before r);
    [apply insertBy_perm | apply perm_skip, IH].
Qed.

Lemma sortRows_In {A} (before : A -> A -> bool) (l : list A) (x : A) :
  In x (sortRows before l) <-> In x l.
Proof.
  split; apply Permutation_in;
    [apply sortRows_perm | apply Permutation_sym, sortRows_perm].
Qed.

Lemma skipn_In_inv {A} (n : nat) (l : list A) (x : A) :
  In x (skipn n l) -> In x l.
Proof.
  revert l. induction n as [|n IH]; intros [|y r]; simpl; auto.
Qed.

Lemma firstn_plus_skipn {A} (a b : nat) (l : list A) :
  firstn (a + b) l = (firstn a l ++ firstn b (skipn a l))%list.
Proof.
  revert l. induction a as [|a IH]; intros l; simpl; [reflexivity|].
  destruct l as [|x r]; simpl.
  - destruct b; reflexivity.
  - rewrite IH. reflexivity.
Qed.

(** The slices of [limit] rows, one after the other, make up the rows. *)
Lemma slices_concat {A} (limit : nat) (rows : list A) (n : nat) :
  List.concat (map (fun page => firstn limit (skipn ((page - 1) * limit) rows))
              (seq 1 n))
  = firstn (n * limit) rows.
Proof.
  induction n as [|n IH]; [reflexivity|].
  rewrite seq_S, map_app, concat_app, IH. cbn [map List.concat].
  rewrite app_nil_r.
  replace (1 + n - 1)%nat with n by lia.
  replace (S n * limit)%nat with (n * limit + limit)%nat by lia.
  symmetry. apply firstn_plus_skipn.
Qed.

(** Page [page] of [limit] rows, for the numbers a pager sends. *)
Lemma page_of_slice {A} (page limit : nat) (rows : list A) :
  (1 <= page)%nat ->
  page_of (skipOf (Some (Z.of_nat page)) (Some (Z.of_nat limit)))
          (Some (Z.of_nat limit)) rows
  = Ok (firstn limit (skipn ((page - 1) * limit) rows)).
Proof.
  intros Hp. unfold page_of, skipOf.
  destruct ((Z.of_nat page - 1) * Z.of_nat limit <? 0) eqn:E1.
  { apply Z.ltb_lt in E1. nia. }
  destruct (0 <=? Z.of_nat limit) eqn:E2.
  2:{ apply Z.leb_gt in E2. lia. }
  rewrite Nat2Z.id.
  replace (Z.to_nat ((Z.of_nat page - 1) * Z.of_nat limit))
    with ((page - 1) * limit)%nat by nia.
  reflexivity.
Qed.

Lemma formatBookmarks_ok (s : Store) (l : list Bookmark) :
  (forall b, In b l -> manga_findUnique (b_mangaId b) s <> None) ->
  exists items, formatBookmarks s l = Ok items /\ map bi_bookmark items = l.
Proof.
  induction l as [|b r IH]; intros H; simpl.
  - exists []. split; reflexivity.
  - destruct (manga_findUnique (b_mangaId b) s) as [m|] eqn:Hm.
    + destruct IH as (items & Hi & Hmap).
      { intros b' Hin. apply H. right. exact Hin. }
      rewrite Hi. eexists. split; [reflexivity|]. simpl. rewrite Hmap. reflexivity.
    + exfalso. apply (H b); [left; reflexivity | exact Hm].
Qed.

(** ** The pages of getUserBookmarks *)

Lemma getUserBookmarks_page (D : Database) (userId : Id)
      (sortBy order : option string) (limit page : nat) (s : Store)
      (before : Bookmark -> Bookmark -> bool) :
  (1 <= page)%nat ->
  bookmarks_reference_titles s ->
  userBookmarksOrder sortBy order = Some before ->
  exists data pages,
    getUserBookmarks userId (pageQuery page limit sortBy order) s
    = (Ok (data,
           mkPagination (Z.of_nat page) (Z.of_nat limit)
                        (Z.of_nat (List.length (bookmarksOf userId s))) pages),
       s)
    /\ map bi_bookmark data
       = firstn limit (skipn ((page - 1) * limit)
                             (sortRows before (bookmarksOf userId s))).
Proof.
  intros Hp Hfk Ho.
  unfold getUserBookmarks, pageQuery, bind, read, get, lift, ret. cbn [q_page q_limit q_sortBy q_order fst snd].
  unfold userBookmarksOrder in Ho. rewrite Ho.
  unfold findMany. rewrite (page_of_slice page limit _ Hp).
  fold (bookmarksOf userId s).
  destruct (formatBookmarks_ok s
              (firstn limit (skipn ((page - 1) * limit)
                                   (sortRows before (bookmarksOf userId s)))))
    as (items & Hi & Hmap).
  { intros b Hin. apply Hfk.
    apply firstn_In_inv, skipn_In_inv in Hin.
    apply sortRows_In in Hin. unfold bookmarksOf in Hin.
    apply filter_In in Hin. apply Hin. }
  rewrite Hi. unfold paginationOf.
  eexists. eexists. split; [reflexivity | exact Hmap].
Qed.

(** X6. Paging through getUserBookmarks with [limit] entries a page (at
    least one) visits every bookmark of the user exactly once.  When every
    bookmark references a title and the database accepts the orderBy clause,
    each page from 1 on is answered without a write, has at most [limit]
    entries, all of them bookmarks of the user, and reports as total the
    number of the user's bookmarks; and the pages 1..n, one after the other,
    are a permutation of the user's bookmarks as soon as n * limit covers
    them. *)
Theorem getUserBookmarks_pages :
  forall (D : Database) (userId : Id) (sortBy order : option string)
         (limit : nat) (s : Store),
    (1 <= limit)%nat ->
    bookmarks_reference_titles s ->
    userBookmarksOrder sortBy order <> None ->
    (forall page, (1 <= page)%nat ->
       exists data pagination,
         getUserBookmarks userId (pageQuery page limit sortBy order) s
         = (Ok (data, pagination), s)
         /\ (List.length data <= limit)%nat
         /\ pg_total pagination = Z.of_nat (List.length (bookmarksOf userId s))
         /\ forall item, In item data ->
              b_userId (bi_bookmark item) = userId
              /\ In (bi_bookmark item) (bookmarks s))
    /\ (forall n, (List.length (bookmarksOf userId s) <= n * limit)%nat ->
          Permutation
            (List.concat (map (fun page => bookmarksPage userId sortBy order
                                                         limit page s)
                              (seq 1 n)))
            (bookmarksOf userId s)).
Proof.
  intros D userId sortBy order limit s Hl Hfk Ho.
  destruct (userBookmarksOrder sortBy order) as [before|] eqn:Eo;
    [clear Ho | contradiction].
  split.
  - intros page Hp.
    destruct (getUserBookmarks_page D userId sortBy order limit page s before
                Hp Hfk Eo) as (data & pages & Hr & Hmap).
    exists data. eexists. split; [exact Hr|]. split; [|split; [reflexivity|]].
    + rewrite <- (length_map bi_bookmark), Hmap. apply firstn_le_length.
    + intros item Hin.
      assert (Hb : In (bi_bookmark item) (map bi_bookmark data))
        by (apply in_map; exact Hin).
      rewrite Hmap in Hb. apply firstn_In_inv, skipn_In_inv in Hb.
      apply sortRows_In in Hb. unfold bookmarksOf in Hb.
      apply filter_In in Hb. destruct Hb as [Hb1 Hb2].
      apply String.eqb_eq in Hb2. split; assumption.
  - intros n Hn.
    assert (Hpages :
      map (fun page => bookmarksPage userId sortBy order limit page s) (seq 1 n)
      = map (fun page => firstn limit
                           (skipn ((page - 1) * limit)
                                  (sortRows before (bookmarksOf userId s))))
            (seq 1 n)).
    { apply map_ext_in. intros page Hin. apply in_seq in Hin.
      destruct (getUserBookmarks_page D userId sortBy order limit page s before
                  (proj1 Hin) Hfk Eo) as (data & pages & Hr & Hmap).
      unfold bookmarksPage. rewrite Hr. exact Hmap. }
    rewrite Hpages, slices_concat, firstn_all2.
    + apply sortRows_perm.
    + rewrite (Permutation_length (sortRows_perm before _)). exact Hn.
Qed.

Lemma getUserBookmarks_pages_witness :
  (1 <= 2)%nat
  /\ bookmarks_reference_titles storeD
  /\ @userBookmarksOrder strictDatabase None None <> None
  /\ Permutation
       (List.concat (map (fun page => @bookmarksPage strictDatabase "bob" None None
                                                     2%nat page storeD)
                         (seq 1 2)))
       (bookmarksOf "bob" storeD).
Proof.
  assert (Hfk : bookmarks_reference_titles storeD).
  { intros b [<-|[<-|[<-|[<-|[]]]]]; discriminate. }
  assert (Ho : @userBookmarksOrder strictDatabase None None <> None)
    by discriminate.
  split; [lia|]. split; [exact Hfk|]. split; [exact Ho|].
  apply (proj2 (getUserBookmarks_pages strictDatabase "bob" None None 2%nat storeD
                  (le_S _ _ (le_n 1%nat)) Hfk Ho) 2%nat).
  simpl. lia.
Defined.

(** The two pages of the example: newest first. *)
Example getUserBookmarks_two_pages :
  map b_id (@bookmarksPage strictDatabase "bob" None None 2%nat 1%nat storeD) = ["b3"; "b4"]
  /\ map b_id (@bookmarksPage strictDatabase "bob" None None 2%nat 2%nat storeD) = ["b1"]
  /\ map b_id (@bookmarksPage strictDatabase "bob" None None 2%nat 3%nat storeD) = [].
Proof. repeat split; vm_compute; reflexivity. Qed.

Section SortRows.
Context {A : Type} (before : A -> A -> bool).
Hypothesis before_total : forall x y, before x y = false -> before y x = true.
Hypothesis before_trans :
  forall x y z, before x y = true -> before y z = true -> before x z = true.

Lemma insertBy_sorted (x : A) (l : list A) :
  StronglySorted (fun a b => before a b = true) l ->
  StronglySorted (fun a b => before a b = true) (insertBy before x l).
Proof.
  induction l as [|y r IH]; intros Hs; simpl.
  - constructor; constructor.
  - inversion Hs as [|? ? Hr Hall]; subst.
    destruct (before x y) eqn:E.
    + constructor; [exact Hs|]. constructor; [exact E|].
      eapply Forall_impl; [|exact Hall]. intros z Hz. simpl in Hz.
      eapply before_trans; eassumption.
    + constructor; [apply IH, Hr|].
      apply Forall_forall. intros z Hz.
      apply (Permutation_in _ (insertBy_perm before x r)) in Hz.
      destruct Hz as [<-|Hz]; [apply before_total, E|].
      rewrite Forall_forall in Hall. apply Hall, Hz.
Qed.

Lemma sortRows_sorted (l : list A) :
  StronglySorted (fun a b => before a b = true) (sortRows before l).
Proof.
  induction l as [|x r IH]; simpl; [constructor|].
  apply insertBy_sorted, IH.
Qed.

End SortRows.

Lemma StronglySorted_firstn {A} (R : A -> A -> Prop) (n : nat) (l : list A) :
  StronglySorted R l -> StronglySorted R (firstn n l).
Proof.
  revert l. induction n as [|n IH]; intros l Hs; simpl; [constructor|].
  destruct l as [|x r]; [constructor|].
  inversion Hs as [|? ? Hr Hall]; subst.
  constructor; [apply IH, Hr|].
  apply Forall_forall. intros z Hz. rewrite Forall_forall in Hall.
  apply Hall. revert Hz. apply firstn_In_inv.
Qed.

Lemma StronglySorted_weaken {A} (R R' : A -> A -> Prop) (l : list A) :
  (forall a b, R a b -> R' a b) -> StronglySorted R l -> StronglySorted R' l.
Proof.
  intros HR Hs. induction Hs as [|x r Hr IH Hall]; constructor; [exact IH|].
  eapply Forall_impl; [|exact Hall]. intros z. apply HR.
Qed.

Lemma byZ_total {A} (col : A -> Z) (o : SortOrder) (x y : A) :
  byZ col o x y = false -> byZ col o y x = true.
Proof.
  destruct o; simpl; intros H; apply Z.leb_gt in H; apply Z.leb_le; lia.
Qed.

Lemma byZ_trans {A} (col : A -> Z) (o : SortOrder) (x y z : A) :
  byZ col o x y = true -> byZ col o y z = true -> byZ col o x z = true.
Proof.
  destruct o; simpl; intros H1 H2; apply Z.leb_le in H1, H2; apply Z.leb_le; lia.
Qed.

(** X7. In a store where every bookmark references a title, getUserBookmarks
    without sortBy and order lists the newest bookmark first: the pages
    1..n, one after the other, run from the most recently created bookmark
    to the oldest, within a page and from one page to the next. *)
Theorem getUserBookmarks_newest_first :
  forall (D : Database) (userId : Id) (limit n : nat) (s : Store),
    bookmarks_reference_titles s ->
    StronglySorted newerOrSame
      (List.concat (map (fun page => bookmarksPage userId None None limit page s)
                        (seq 1 n))).
Proof.
  intros D userId limit n s Hfk.
  set (before := byZ b_createdAt Desc).
  assert (Eo : userBookmarksOrder None None = Some before) by reflexivity.
  assert (Hpages :
    map (fun page => bookmarksPage userId None None limit page s) (seq 1 n)
    = map (fun page => firstn limit
                         (skipn ((page - 1) * limit)
                                (sortRows before (bookmarksOf userId s))))
          (seq 1 n)).
  { apply map_ext_in. intros page Hin. apply in_seq in Hin.
    destruct (getUserBookmarks_page D userId None None limit page s before
                (proj1 Hin) Hfk Eo) as (data & pages & Hr & Hmap).
    unfold bookmarksPage. rewrite Hr. exact Hmap. }
  rewrite Hpages, slices_concat.
  apply StronglySorted_firstn.
  apply (StronglySorted_weaken (fun a b => before a b = true)).
  - intros a b Hab. unfold newerOrSame. apply Z.leb_le. exact Hab.
  - apply sortRows_sorted;
      [apply (byZ_total b_createdAt Desc) | apply (byZ_trans b_createdAt Desc)].
Qed.

Lemma getUserBookmarks_newest_first_witness :
  bookmarks_reference_titles storeD
  /\ StronglySorted newerOrSame
       (List.concat (map (fun page => @bookmarksPage strictDatabase "bob" None None
                                                     2%nat page storeD)
                         (seq 1 2))).
Proof.
  assert (Hfk : bookmarks_reference_titles storeD).
  { intros b [<-|[<-|[<-|[<-|[]]]]]; discriminate. }
  split; [exact Hfk|].
  apply (getUserBookmarks_newest_first strictDatabase "bob" 2%nat 2%nat storeD Hfk).
Defined.

(** ** Progress records: delete and clear *)

Lemma history_findById_id s id h :
  history_findById id s = Some h -> h_id h = id /\ In h (histories s).
Proof.
  unfold history_findById. intros H. apply find_some in H.
  destruct H as [Hin Heq]. apply String.eqb_eq in Heq. auto.
Qed.

Lemma filter_filter_implied {A} (p q : A -> bool) (l : list A) :
  (forall x, In x l -> p x = true -> q x = true) ->
  filter p (filter q l) = filter p l.
Proof.
  induction l as [|x r IH]; intros H; simpl; [reflexivity|].
  assert (IH' : filter p (filter q r) = filter p r).
  { apply IH. intros y Hy. apply H. right. exact Hy. }
  destruct (q x) eqn:Eq; simpl.
  - rewrite IH'. reflexivity.
  - destruct (p x) eqn:Ep; [|exact IH'].
    rewrite (H x (or_introl eq_refl) Ep) in Eq. discriminate.
Qed.

Lemma deleteHistory_cases (userId historyId : Id) (s : Store) :
  match history_findById historyId s with
  | None =>
      deleteHistory userId historyId s
      = (Err (AppError "Reading history not found" 404), s)
  | Some h =>
      if String.eqb (h_userId h) userId
      then deleteHistory userId historyId s
           = (Ok true,
              set_histories s
                (filter (fun x => negb (String.eqb (h_id x) historyId))
                        (histories s)))
      else deleteHistory userId historyId s
           = (Err (AppError "Not authorized to delete this history" 403), s)
  end.
Proof.
  unfold deleteHistory, bind, read, throw, ret.
  destruct (history_findById historyId s) as [h|] eqn:Hf; [|reflexivity].
  destruct (String.eqb (h_userId h) userId); simpl; [|reflexivity].
  unfold history_delete. rewrite Hf. reflexivity.
Qed.

(** X8. DeleteHistory removes a progress record only for the user it
    belongs to.  It answers true exactly when the record exists and is the
    caller's; it then removes that record and no other, of no user.  In
    every other case (404 for an unknown id, 403 for a record of someone
    else) nothing is written. *)
Theorem deleteHistory_own_record_only :
  forall (userId historyId : Id) (s : Store),
    historyIds_unique s ->
    let r := deleteHistory userId historyId s in
    (fst r = Ok true
     <-> exists h, history_findById historyId s = Some h /\ h_userId h = userId)
    /\ (fst r <> Ok true -> snd r = s)
    /\ (forall h, history_findById historyId s = Some h -> h_userId h <> userId ->
                  fst r = Err (AppError "Not authorized to delete this history" 403))
    /\ (history_findById historyId s = None ->
        fst r = Err (AppError "Reading history not found" 404))
    /\ (fst r = Ok true ->
        history_findById historyId (snd r) = None
        /\ (forall h, In h (histories (snd r))
                      <-> In h (histories s) /\ h_id h <> historyId)
        /\ (forall u, u <> userId -> historiesOf u (snd r) = historiesOf u s)
        /\ set_histories (snd r) (histories s) = s).
Proof.
  intros userId historyId s Hu r. subst r.
  pose proof (deleteHistory_cases userId historyId s) as Hc.
  destruct (history_findById historyId s) as [h|] eqn:Hf.
  2:{ rewrite Hc. simpl. repeat split; try discriminate; try reflexivity.
      intros (h & Hh & _). discriminate. }
  destruct (history_findById_id _ _ _ Hf) as [Hid Hin].
  destruct (String.eqb (h_userId h) userId) eqn:Eu; rewrite Hc; simpl.
  - apply String.eqb_eq in Eu. split; [|split; [|split; [|split]]].
    + split; [intros _; exists h; auto | reflexivity].
    + intros Hne. exfalso. apply Hne. reflexivity.
    + intros h' [= <-] Hne. contradiction.
    + discriminate.
    + intros _. split; [|split; [|split]].
      * unfold history_findById. simpl.
        apply (find_filter_negb_none (fun x => String.eqb (h_id x) historyId)).
      * intros x. rewrite filter_In, negb_true_iff, String.eqb_neq. reflexivity.
      * intros u Hne. unfold historiesOf. simpl.
        apply filter_filter_implied. intros x Hx Hxu.
        apply String.eqb_eq in Hxu. apply negb_true_iff, String.eqb_neq.
        intros Hxid. apply Hne.
        rewrite <- Hxu, <- Eu. f_equal.
        apply (NoDup_map_inj h_id (histories s)); try assumption. congruence.
      * destruct s; reflexivity.
  - apply String.eqb_neq in Eu. split; [|split; [|split; [|split]]].
    + split; [discriminate|]. intros (h' & [= <-] & He). contradiction.
    + reflexivity.
    + reflexivity.
    + discriminate.
    + discriminate.
Qed.

Lemma deleteHistory_own_record_only_witness :
  historyIds_unique storeB
  /\ fst (deleteHistory "eve" "h1" storeB)
     = Err (AppError "Not authorized to delete this history" 403)
  /\ snd (deleteHistory "eve" "h1" storeB) = storeB.
Proof.
  assert (Hu : historyIds_unique storeB).
  { unfold historyIds_unique. simpl.
    repeat constructor; simpl; intuition discriminate. }
  split; [exact Hu|].
  destruct (deleteHistory_own_record_only "eve" "h1" storeB Hu)
    as (_ & Hkeep & Hforbid & _).
  split.
  - apply (Hforbid (mkReadingHistory "h1" "bob" "c1" "m1" 10 10 100 true 100));
      [reflexivity | discriminate].
  - apply Hkeep. rewrite (Hforbid (mkReadingHistory "h1" "bob" "c1" "m1" 10 10 100 true 100));
      [discriminate | reflexivity | discriminate].
Defined.

Lemma filter_negb_none {A} (p : A -> bool) (l : list A) :
  filter p (filter (fun x => negb (p x)) l) = [].
Proof.
  induction l as [|x r IH]; simpl; [reflexivity|].
  destruct (p x) eqn:E; simpl; [exact IH|]. rewrite E. exact IH.
Qed.

Lemma orderBy_nil : orderByLastReadAtDesc [] = [].
Proof. reflexivity. Qed.

(** X9. ClearAllHistory forgets the caller's reading history and nobody
    else's: it answers true whether or not there was anything to delete,
    afterwards the user has no progress record and the continue-reading list
    is empty, the records of every other user are as they were and no other
    table is written. *)
Theorem clearAllHistory_clears_own_history :
  forall (userId : Id) (s : Store),
    let s' := snd (clearAllHistory userId s) in
    fst (clearAllHistory userId s) = Ok true
    /\ historiesOf userId s' = []
    /\ (forall limit, getContinueReading userId limit s' = (Ok [], s'))
    /\ (forall u, u <> userId -> historiesOf u s' = historiesOf u s)
    /\ set_histories s' (histories s) = s.
Proof.
  intros userId s. simpl.
  split; [reflexivity|]. split; [|split; [|split]].
  - unfold historiesOf. simpl.
    apply (filter_negb_none (fun h => String.eqb (h_userId h) userId)).
  - intros limit. unfold getContinueReading, bind, read, get, lift.
    unfold continueReadingRows. simpl.
    rewrite (filter_negb_none (fun h => String.eqb (h_userId h) userId)).
    simpl. rewrite firstn_nil. reflexivity.
  - intros u Hne. unfold historiesOf. simpl.
    apply filter_filter_implied. intros x _ Hx.
    apply String.eqb_eq in Hx. apply negb_true_iff, String.eqb_neq. congruence.
  - destruct s; reflexivity.
Qed.

Lemma historiesFor_other (userId mangaId u m : Id) (l : list ReadingHistory) :
  (u, m) <> (userId, mangaId) ->
  filter (fun h => String.eqb (h_userId h) u && String.eqb (h_mangaId h) m)%bool
         (filter (fun h => negb (String.eqb (h_userId h) userId
                                 && String.eqb (h_mangaId h) mangaId))
                 l)
  = filter (fun h => String.eqb (h_userId h) u && String.eqb (h_mangaId h) m)%bool
           l.
Proof.
  intros Hne. apply filter_filter_implied. intros x _ Hx.
  apply andb_true_iff in Hx. destruct Hx as [H1 H2].
  apply String.eqb_eq in H1, H2.
  apply negb_true_iff, andb_false_iff.
  destruct (String.eqb (h_userId x) userId) eqn:E1; [|left; reflexivity].
  destruct (String.eqb (h_mangaId x) mangaId) eqn:E2; [|right; reflexivity].
  apply String.eqb_eq in E1, E2. exfalso. apply Hne. congruence.
Qed.

(** X10. ClearMangaHistory forgets the caller's progress on one title only:
    it answers true, getMangaProgress of that user and title then answers
    null, and getMangaProgress of every other user or title answers what it
    answered before. *)
Theorem clearMangaHistory_then_getMangaProgress :
  forall (userId mangaId : Id) (s : Store),
    let s' := snd (clearMangaHistory userId mangaId s) in
    fst (clearMangaHistory userId mangaId s) = Ok true
    /\ getMangaProgress userId mangaId s' = (Ok None, s')
    /\ (forall u m, (u, m) <> (userId, mangaId) ->
          fst (getMangaProgress u m s') = fst (getMangaProgress u m s))
    /\ set_histories s' (histories s) = s.
Proof.
  intros userId mangaId s. simpl.
  split; [reflexivity|]. split; [|split].
  - unfold getMangaProgress, bind, read, ret. simpl.
    rewrite (filter_negb_none
               (fun h => (String.eqb (h_userId h) userId
                          && String.eqb (h_mangaId h) mangaId)%bool)).
    reflexivity.
  - intros u m Hne. unfold getMangaProgress, bind, read, ret, get. simpl.
    rewrite (historiesFor_other userId mangaId u m _ Hne).
    unfold chapter_findUnique, manga_findUnique. simpl.
    destruct (map _ (orderByLastReadAtDesc _)); reflexivity.
  - destruct s; reflexivity.
Qed.

(** ** getMangaProgress *)

Lemma orderBy_perm (l : list ReadingHistory) :
  Permutation (orderByLastReadAtDesc l) l.
Proof.
  induction l as [|x r IH]; simpl; [apply perm_nil|].
  apply perm_trans with (x :: orderByLastReadAtDesc r); [|apply perm_skip, IH].
  clear IH. induction (orderByLastReadAtDesc r) as [|y t IH]; simpl;
    [apply Permutation_refl|].
  destruct (h_lastReadAt y <=? h_lastReadAt x); [apply Permutation_refl|].
  apply perm_trans with (y :: x :: t); [apply perm_skip, IH | apply perm_swap].
Qed.

Lemma filter_length_le {A} (p : A -> bool) (l : list A) :
  (List.length (filter p l) <= List.length l)%nat.
Proof.
  induction l as [|x r IH]; simpl; [lia|]. destruct (p x); simpl; lia.
Qed.

(** X11. GetMangaProgress answers null exactly when the user has no
    progress record for the title, and never writes.  Otherwise lastRead is
    one of the user's records for the title and no record of theirs for it is
    more recent, allHistory holds those records and no other, readChapters
    counts the completed ones, totalChapters is the number of chapters that
    reference the title (0 when the title is gone), and the percentage is 0
    when there is no chapter to divide by. *)
Theorem getMangaProgress_summary :
  forall (userId mangaId : Id) (s : Store),
    snd (getMangaProgress userId mangaId s) = s
    /\ (historiesFor userId mangaId s = [] <->
        fst (getMangaProgress userId mangaId s) = Ok None)
    /\ (historiesFor userId mangaId s <> [] ->
        exists p,
          fst (getMangaProgress userId mangaId s) = Ok (Some p)
          /\ In (fst (pr_lastRead p)) (historiesFor userId mangaId s)
          /\ (forall h, In h (historiesFor userId mangaId s) ->
                        h_lastReadAt h <= h_lastReadAt (fst (pr_lastRead p)))
          /\ Permutation (map fst (pr_allHistory p))
                         (historiesFor userId mangaId s)
          /\ pr_readChapters p
             = Z.of_nat (List.length (filter h_isCompleted
                                             (map fst (pr_allHistory p))))
          /\ 0 <= pr_readChapters p
             <= Z.of_nat (List.length (historiesFor userId mangaId s))
          /\ pr_totalChapters p
             = match manga_findUnique mangaId s with
               | Some _ => Z.of_nat (List.length (chaptersOf mangaId s))
               | None => 0
               end
          /\ pr_progressPercent p
             = progressPercentOf (pr_readChapters p) (pr_totalChapters p)
          /\ (pr_totalChapters p = 0 -> pr_progressPercent p = Some 0)).
Proof.
  intros userId mangaId s.
  unfold getMangaProgress, bind, read, ret, get. fold (historiesFor userId mangaId s).
  pose proof (orderBy_perm (historiesFor userId mangaId s)) as Hperm.
  pose proof (orderBy_sorted (historiesFor userId mangaId s)) as Hsorted.
  destruct (orderByLastReadAtDesc (historiesFor userId mangaId s))
    as [|h0 rest] eqn:Es; simpl.
  - apply Permutation_nil in Hperm.
    split; [reflexivity|]. split; [split; auto|]. intros Hne. contradiction.
  - split; [reflexivity|]. split.
    { split; [|discriminate]. intros Hnil. rewrite Hnil in Hperm.
      apply Permutation_sym, Permutation_nil in Hperm. discriminate. }
    intros _. eexists. split; [reflexivity|]. simpl.
    assert (Hmap : forall l : list ReadingHistory,
               map fst (map (fun h => (h, chapter_findUnique (h_chapterId h) s)) l)
               = l).
    { intros l. rewrite map_map. simpl. apply map_id. }
    split; [apply (Permutation_in _ Hperm); left; reflexivity|].
    split.
    { intros h Hin. apply (Permutation_in _ (Permutation_sym Hperm)) in Hin.
      destruct Hin as [<-|Hin]; [lia|].
      inversion Hsorted as [|? ? _ Hall]; subst.
      rewrite Forall_forall in Hall. apply (Hall h Hin). }
    split; [rewrite Hmap; exact Hperm|].
    assert (Hread :
      List.length
        (filter (fun h : ReadingHistory * option Chapter => h_isCompleted (fst h))
                (map (fun h => (h, chapter_findUnique (h_chapterId h) s)) rest))
      = List.length (filter h_isCompleted rest)).
    { clear. induction rest as [|x r IH]; simpl; [reflexivity|].
      destruct (h_isCompleted x); simpl; rewrite IH; reflexivity. }
    assert (Hread' :
      Z.of_nat
        (List.length
           (if h_isCompleted h0
            then (h0, chapter_findUnique (h_chapterId h0) s)
                 :: filter (fun h : ReadingHistory * option Chapter =>
                              h_isCompleted (fst h))
                      (map (fun h => (h, chapter_findUnique (h_chapterId h) s))
                           rest)
            else filter (fun h : ReadingHistory * option Chapter =>
                           h_isCompleted (fst h))
                   (map (fun h => (h, chapter_findUnique (h_chapterId h) s))
                        rest)))
      = Z.of_nat (List.length (filter h_isCompleted (h0 :: rest)))).
    { simpl. destruct (h_isCompleted h0); simpl; rewrite Hread; reflexivity. }
    rewrite Hread', Hmap.
    split; [reflexivity|]. split.
    { pose proof (filter_length_le h_isCompleted (h0 :: rest)) as Hle.
      rewrite (Permutation_length Hperm) in Hle. lia. }
    split; [reflexivity|]. split; [reflexivity|].
    intros H0. rewrite H0. apply progressPercentOf_no_pages. lia.
Qed.

Lemma getMangaProgress_summary_witness :
  historiesFor "bob" "m1" storeB <> []
  /\ exists p,
       fst (getMangaProgress "bob" "m1" storeB) = Ok (Some p)
       /\ h_id (fst (pr_lastRead p)) = "h3"
       /\ pr_readChapters p = 1
       /\ pr_totalChapters p = 2
       /\ pr_progressPercent p = Some 50.
Proof.
  assert (Hne : historiesFor "bob" "m1" storeB <> []) by discriminate.
  split; [exact Hne|].
  destruct (proj2 (proj2 (getMangaProgress_summary "bob" "m1" storeB)) Hne)
    as (p & Hp & _).
  exists p. split; [exact Hp|].
  vm_compute in Hp. injection Hp as <-. repeat split; vm_compute; reflexivity.
Defined.

(** ** saveProgress and the continue-reading list *)

Lemma saveProgress_written
      (userId chapterId : Id) (pd : ProgressData) (newId : Id) (now : Date)
      (s s' : Store) (h : ReadingHistory) :
  historyKeys_unique s ->
  saveProgress userId chapterId pd newId now s = (Ok h, s') ->
  h_userId h = userId /\ h_chapterId h = chapterId /\ h_lastReadAt h = now
  /\ In h (histories s')
  /\ (forall x, In x (histories s') ->
        (h_userId x = userId -> h_chapterId x = chapterId -> x = h)
        /\ (~ (h_userId x = userId /\ h_chapterId x = chapterId) ->
            In x (histories s))).
Proof.
  intros Hk.
  unfold saveProgress, bind, read, throw, ret.
  destruct (chapter_findUnique chapterId s) as [chapter|] eqn:Hc; [|discriminate].
  destruct (progressPercentOf (pd_currentPage pd) (pd_totalPages pd))
    as [pp|] eqn:Hpp; [|discriminate].
  set (completed := (match pd_isCompleted pd with Some true => true | _ => false end
                     || (100 <=? pp))%bool).
  set (upd_ := fun h0 : ReadingHistory =>
                 mkReadingHistory (h_id h0) (h_userId h0) (h_chapterId h0)
                   (h_mangaId h0) (pd_currentPage pd) (pd_totalPages pd) pp
                   completed now).
  set (new_ := mkReadingHistory newId userId chapterId (c_mangaId chapter)
                 (pd_currentPage pd) (pd_totalPages pd) pp completed now).
  set (key := fun x : ReadingHistory =>
                (String.eqb (h_userId x) userId
                 && String.eqb (h_chapterId x) chapterId)%bool).
  assert (Hkey : forall x, key x = true <-> h_userId x = userId /\ h_chapterId x = chapterId).
  { intros x. unfold key. rewrite andb_true_iff, !String.eqb_eq. reflexivity. }
  assert (Hstored :
    forall r s1, history_upsert userId chapterId upd_ new_ s = (Ok r, s1) ->
      mangas s1 = mangas s /\ chapters s1 = chapters s
      /\ h_userId r = userId /\ h_chapterId r = chapterId /\ h_lastReadAt r = now
      /\ In r (histories s1)
      /\ (forall x, In x (histories s1) ->
            (key x = true -> x = r) /\ (key x = false -> In x (histories s)))).
  { intros r s1. unfold history_upsert, history_findUnique. fold key.
    destruct (find key (histories s)) as [h0|] eqn:Hf.
    - intros [= <- <-]. simpl.
      change (map _ (histories s))
        with (map (fun x => if key x then upd_ x else x) (histories s)).
      destruct (find_some _ _ Hf) as [Hin0 Hk0].
      pose proof Hk0 as Hk0'.
      apply Hkey in Hk0. destruct Hk0 as [Hu0 Hc0].
      repeat split; try assumption.
      + apply in_map_iff. exists h0. split; [|exact Hin0].
        rewrite Hk0'. reflexivity.
      + intros Hx. apply in_map_iff in H. destruct H as (y & Hy & Hiny).
        destruct (key y) eqn:Ey.
        * subst x. f_equal.
          apply (NoDup_map_inj (fun h => (h_userId h, h_chapterId h))
                               (histories s)); try assumption.
          apply Hkey in Ey. destruct Ey as [-> ->]. rewrite Hu0, Hc0. reflexivity.
        * subst x. rewrite Ey in Hx. discriminate.
      + intros Hx. apply in_map_iff in H. destruct H as (y & Hy & Hiny).
        destruct (key y) eqn:Ey.
        * subst x. exfalso.
          assert (key (upd_ y) = true).
          { apply Hkey. apply Hkey in Ey. exact Ey. }
          congruence.
        * subst x. exact Hiny.
    - destruct (existsb _ _); [discriminate|].
      destruct (manga_findUnique (h_mangaId new_) s); [|discriminate].
      intros [= <- <-]. simpl. repeat split.
      + apply in_or_app. right. left. reflexivity.
      + intros Hx. apply in_app_or in H. destruct H as [H|[<-|[]]]; [|reflexivity].
        pose proof (find_none _ _ Hf x H). congruence.
      + intros Hx. apply in_app_or in H. destruct H as [H|[<-|[]]]; [exact H|].
        exfalso.
        assert (key new_ = true) by (apply Hkey; split; reflexivity).
        congruence. }
  destruct (history_upsert userId chapterId upd_ new_ s) as [[r|e] s1] eqn:Hu;
    [|discriminate].
  destruct (Hstored r s1 eq_refl) as (Hm1 & Hc1 & Hr1 & Hr2 & Hr3 & Hr4 & Hr5).
  unfold chapter_update.
  destruct (chapter_findUnique chapterId s1); [|discriminate].
  unfold manga_update. simpl.
  destruct (manga_findUnique _ _); [|discriminate].
  intros [= <- <-]. simpl.
  repeat split; try assumption.
  - intros Hxu Hxc. apply (Hr5 x H). apply Hkey. auto.
  - intros Hn. apply (Hr5 x H).
    destruct (key x) eqn:Ex; [|reflexivity].
    exfalso. apply Hn, Hkey, Ex.
Qed.

Lemma ReadingHistory_eq_dec (a b : ReadingHistory) : {a = b} + {a <> b}.
Proof.
  decide equality; auto using string_dec, Z.eq_dec, Bool.bool_dec.
Defined.

(** The record that is strictly the most recent heads the sorted rows. *)
Lemma orderBy_head_latest (x : ReadingHistory) (l : list ReadingHistory) :
  In x l ->
  (forall y, In y l -> y <> x -> h_lastReadAt y < h_lastReadAt x) ->
  exists rest, orderByLastReadAtDesc l = x :: rest.
Proof.
  induction l as [|a r IH]; intros Hin Hmax; [destruct Hin|].
  simpl. destruct (ReadingHistory_eq_dec a x) as [->|Hne].
  - pose proof (orderBy_In) as HIn.
    destruct (orderByLastReadAtDesc r) as [|y t] eqn:Es; simpl.
    + exists []. reflexivity.
    + assert (Hy : In y r).
      { apply (proj1 (HIn y r)). rewrite Es. left. reflexivity. }
      assert (Hle : h_lastReadAt y <= h_lastReadAt x).
      { destruct (ReadingHistory_eq_dec y x) as [->|Hyx]; [lia|].
        apply Z.lt_le_incl, Hmax; [right; exact Hy | exact Hyx]. }
      apply Z.leb_le in Hle. rewrite Hle. eexists. reflexivity.
  - destruct Hin as [Hin|Hin]; [contradiction|].
    destruct IH as (rest & Hrest); [exact Hin | |].
    { intros y Hy. apply Hmax. right. exact Hy. }
    rewrite Hrest. simpl.
    assert (Hlt : h_lastReadAt a < h_lastReadAt x).
    { apply Hmax; [left; reflexivity | exact Hne]. }
    apply Z.leb_gt in Hlt. rewrite Hlt. eexists. reflexivity.
Qed.

(** X12. The title a user has just saved progress on heads their
    continue-reading list.  When the store keeps one record per user and
    chapter, saveProgress has completed at an instant later than the user's
    records for other chapters, and the list is asked with a limit of at
    least one, the first row the query selects is the record saveProgress
    returned, and so is the first entry of any list getContinueReading
    answers. *)
Theorem saveProgress_then_continueReading_first :
  forall (userId chapterId : Id) (pd : ProgressData) (newId : Id) (now : Date)
         (s s' : Store) (h : ReadingHistory) (limit : nat),
    historyKeys_unique s ->
    (forall x, In x (histories s) -> h_userId x = userId ->
               h_chapterId x <> chapterId -> h_lastReadAt x < now) ->
    (1 <= limit)%nat ->
    saveProgress userId chapterId pd newId now s = (Ok h, s') ->
    (exists rest, continueReadingRows userId limit s' = h :: rest)
    /\ forall items, fst (getContinueReading userId limit s') = Ok items ->
         exists item rest, items = item :: rest /\ hi_history item = h.
Proof.
  intros userId chapterId pd newId now s s' h limit Hk Hold Hl Hsave.
  destruct (saveProgress_written _ _ _ _ _ _ _ _ Hk Hsave)
    as (Hu & Hc & Ht & Hin & Hall).
  assert (Hrows : exists rest, continueReadingRows userId limit s' = h :: rest).
  { unfold continueReadingRows.
    destruct (orderBy_head_latest h
                (filter (fun x => String.eqb (h_userId x) userId) (histories s')))
      as (rest & Hrest).
    - apply filter_In. split; [exact Hin|]. apply String.eqb_eq, Hu.
    - intros y Hy Hne. apply filter_In in Hy. destruct Hy as [Hy Hyu].
      apply String.eqb_eq in Hyu. rewrite Ht.
      destruct (Hall y Hy) as [Hsame Hother].
      destruct (string_dec (h_chapterId y) chapterId) as [Hyc|Hyc].
      + exfalso. apply Hne, Hsame; assumption.
      + apply Hold; try assumption. apply Hother. intros [_ Hcc]. contradiction.
    - rewrite Hrest. simpl. destruct limit as [|k]; [lia|].
      simpl. eexists. reflexivity. }
  split; [exact Hrows|].
  destruct Hrows as (rest & Hrows).
  intros items. unfold getContinueReading, bind, read, get, lift.
  rewrite Hrows. simpl.
  destruct (manga_findUnique (h_mangaId h) s'); [|discriminate].
  destruct (formatHistory s' rest); [|discriminate].
  intros [= <-]. eexists. eexists. split; reflexivity.
Qed.

Lemma historyKeys_unique_storeB : historyKeys_unique storeB.
Proof.
  unfold historyKeys_unique. simpl.
  repeat constructor; simpl; intuition discriminate.
Qed.

Lemma saveProgress_then_continueReading_first_witness :
  historyKeys_unique storeB
  /\ (1 <= 5)%nat
  /\ saveProgress "bob" "c1" (mkProgressData 4 10 None) "h9" 400 storeB
     = (Ok (mkReadingHistory "h1" "bob" "c1" "m1" 4 10 40 false 400),
        snd (saveProgress "bob" "c1" (mkProgressData 4 10 None) "h9" 400 storeB))
  /\ exists rest,
       continueReadingRows "bob" 5
         (snd (saveProgress "bob" "c1" (mkProgressData 4 10 None) "h9" 400 storeB))
       = mkReadingHistory "h1" "bob" "c1" "m1" 4 10 40 false 400 :: rest.
Proof.
  assert (Hr : saveProgress "bob" "c1" (mkProgressData 4 10 None) "h9" 400 storeB
               = (Ok (mkReadingHistory "h1" "bob" "c1" "m1" 4 10 40 false 400),
                  snd (saveProgress "bob" "c1" (mkProgressData 4 10 None) "h9" 400
                                    storeB))).
  { vm_compute. reflexivity. }
  split; [exact historyKeys_unique_storeB|]. split; [lia|]. split; [exact Hr|].
  refine (proj1 (saveProgress_then_continueReading_first
                   "bob" "c1" (mkProgressData 4 10 None) "h9" 400 storeB _ _ 5%nat
                   historyKeys_unique_storeB _ _ Hr)).
  - intros x [<-|[<-|[<-|[]]]] _ _; simpl; lia.
  - lia.
Defined.

Lemma upsert_keeps_keys (userId chapterId : Id)
      (update : ReadingHistory -> ReadingHistory) (create : ReadingHistory)
      (s : Store) :
  (forall x, h_userId (update x) = h_userId x
             /\ h_chapterId (update x) = h_chapterId x) ->
  h_userId create = userId -> h_chapterId create = chapterId ->
  historyKeys_unique s ->
  historyKeys_unique (snd (history_upsert userId chapterId update create s)).
Proof.
  intros Hupd Hcu Hcc Hk. unfold history_upsert, history_findUnique.
  destruct (find _ (histories s)) as [h0|] eqn:Hf; simpl.
  - unfold historyKeys_unique. simpl. rewrite map_map.
    rewrite (map_ext _ (fun h => (h_userId h, h_chapterId h))); [exact Hk|].
    intros x. destruct (_ && _)%bool; [|reflexivity].
    destruct (Hupd x) as [-> ->]. reflexivity.
  - destruct (existsb _ _); [exact Hk|].
    destruct (manga_findUnique _ _); [|exact Hk].
    unfold historyKeys_unique. simpl. rewrite map_app. simpl.
    apply Permutation_NoDup
      with (l := (h_userId create, h_chapterId create)
                 :: map (fun h => (h_userId h, h_chapterId h)) (histories s)).
    + apply Permutation_cons_append.
    + constructor; [|exact Hk].
      intros Hin. apply in_map_iff in Hin. destruct Hin as (y & Hy & Hiny).
      pose proof (find_none _ _ Hf y Hiny) as Hn. simpl in Hn.
      injection Hy as Hy1 Hy2.
      rewrite Hy1, Hy2, Hcu, Hcc, !String.eqb_refl in Hn. discriminate.
Qed.

Lemma unique_key_one {R K : Type} (key : R -> K) (p : R -> bool) (k : K) :
  forall rows : list R,
    NoDup (map key rows) ->
    (forall x, In x rows -> p x = true -> key x = k) ->
    (List.length (filter p rows) <= 1)%nat.
Proof.
  induction rows as [|x r IH]; intros Hnd Hk; simpl; [lia|].
  inversion Hnd as [|? ? Hx Hr]; subst.
  assert (IH' := IH Hr (fun y Hy => Hk y (or_intror Hy))).
  destruct (p x) eqn:Ex; [|exact IH'].
  simpl. destruct (filter p r) as [|y t] eqn:Ef; [simpl; lia|].
  exfalso. apply Hx.
  assert (Hy : In y (filter p r)) by (rewrite Ef; left; reflexivity).
  apply filter_In in Hy. destruct Hy as [Hy1 Hy2].
  rewrite (Hk x (or_introl eq_refl) Ex), <- (Hk y (or_intror Hy1) Hy2).
  apply in_map, Hy1.
Qed.

(** X13. SaveProgress keeps one progress record per user and chapter.  From
    a store with at most one record for each pair, any run of saveProgress,
    completed or not, leaves at most one record for each pair, and after a
    completed run the user has exactly one record for the chapter: the one
    returned, which is the one history lookups by that pair find. *)
Theorem saveProgress_one_record_per_chapter :
  forall (userId chapterId : Id) (pd : ProgressData) (newId : Id) (now : Date)
         (s : Store),
    historyKeys_unique s ->
    historyKeys_unique (snd (saveProgress userId chapterId pd newId now s))
    /\ forall h, fst (saveProgress userId chapterId pd newId now s) = Ok h ->
         filter (fun x => String.eqb (h_userId x) userId
                          && String.eqb (h_chapterId x) chapterId)%bool
                (histories (snd (saveProgress userId chapterId pd newId now s)))
         = [h]
         /\ history_findUnique userId chapterId
              (snd (saveProgress userId chapterId pd newId now s)) = Some h.
Proof.
  intros userId chapterId pd newId now s Hk.
  assert (Hinv : historyKeys_unique
                   (snd (saveProgress userId chapterId pd newId now s))).
  { unfold saveProgress, bind, read, throw, ret.
    destruct (chapter_findUnique chapterId s) as [chapter|]; [|exact Hk].
    destruct (progressPercentOf _ _) as [pp|]; [|exact Hk].
    match goal with
    | |- context [history_upsert userId chapterId ?u ?c s] =>
        pose proof (upsert_keeps_keys userId chapterId u c s
                      (fun x => conj eq_refl eq_refl) eq_refl eq_refl Hk) as Hu;
        destruct (history_upsert userId chapterId u c s) as [[r|e] s1]
    end; simpl in Hu; [|exact Hu].
    unfold chapter_update.
    destruct (chapter_findUnique chapterId s1); [|exact Hu].
    unfold manga_update. simpl.
    destruct (manga_findUnique _ _); exact Hu. }
  split; [exact Hinv|].
  intros h Hok.
  destruct (saveProgress userId chapterId pd newId now s) as [r s'] eqn:Hs.
  simpl in *. subst r.
  destruct (saveProgress_written _ _ _ _ _ _ _ _ Hk Hs)
    as (Hu & Hc & Ht & Hin & Hall).
  set (key := fun x : ReadingHistory =>
                (String.eqb (h_userId x) userId
                 && String.eqb (h_chapterId x) chapterId)%bool).
  assert (Hkey : forall x, key x = true -> h_userId x = userId /\ h_chapterId x = chapterId).
  { intros x. unfold key. rewrite andb_true_iff, !String.eqb_eq. auto. }
  assert (Hkh : key h = true).
  { unfold key. rewrite Hu, Hc, !String.eqb_refl. reflexivity. }
  assert (Hf : filter key (histories s') = [h]).
  { pose proof (unique_key_one (fun x => (h_userId x, h_chapterId x)) key
                  (userId, chapterId) (histories s') Hinv) as Hle.
    assert (Hmem : In h (filter key (histories s')))
      by (apply filter_In; auto).
    destruct (filter key (histories s')) as [|a [|b t]] eqn:Ef.
    - destruct Hmem.
    - destruct Hmem as [->|[]]. reflexivity.
    - exfalso. simpl in Hle.
      assert (2 <= 1)%nat; [|lia].
      apply (Nat.le_trans _ (S (S (List.length t)))); [lia|].
      apply Hle. intros x _ Hx. apply Hkey in Hx. destruct Hx as [-> ->].
      reflexivity. }
  split; [exact Hf|].
  unfold history_findUnique. fold key.
  destruct (find key (histories s')) as [x|] eqn:Efind.
  - destruct (find_some _ _ Efind) as [Hx1 Hx2].
    apply Hkey in Hx2. destruct Hx2 as [Hx2 Hx3].
    f_equal. apply (Hall x Hx1); assumption.
  - pose proof (find_none _ _ Efind h Hin). congruence.
Qed.

Lemma saveProgress_one_record_per_chapter_witness :
  historyKeys_unique storeB
  /\ historyKeys_unique
       (snd (saveProgress "bob" "c1" (mkProgressData 4 10 None) "h9" 400 storeB)).
Proof.
  split; [exact historyKeys_unique_storeB|].
  apply (saveProgress_one_record_per_chapter
           "bob" "c1" (mkProgressData 4 10 None) "h9" 400 storeB
           historyKeys_unique_storeB).
Defined.

(** ** The pages of getReadingHistory *)

Lemma getReadingHistory_page (D : Database) (userId : Id) (mangaId : option Id)
      (sortBy order : option string) (limit page : nat) (s : Store)
      (before : ReadingHistory -> ReadingHistory -> bool) :
  (1 <= page)%nat ->
  histories_reference_titles s ->
  readingHistoryOrder sortBy order = Some before ->
  exists data pages,
    getReadingHistory userId (pageQuery page limit sortBy order) mangaId s
    = (Ok (data,
           mkPagination (Z.of_nat page) (Z.of_nat limit)
                        (Z.of_nat (List.length (historiesListed userId mangaId s)))
                        pages),
       s)
    /\ map hi_history data
       = firstn limit (skipn ((page - 1) * limit)
                             (sortRows before (historiesListed userId mangaId s))).
Proof.
  intros Hp Hfk Ho.
  unfold getReadingHistory, pageQuery, bind, read, get, lift, ret.
  cbn [q_page q_limit q_sortBy q_order fst snd].
  unfold readingHistoryOrder in Ho. rewrite Ho.
  unfold findMany. rewrite (page_of_slice page limit _ Hp).
  assert (Hrows :
    filter (fun h => match mangaId with
                     | Some (String a t) =>
                         (String.eqb (h_userId h) userId
                          && String.eqb (h_mangaId h) (String a t))%bool
                     | _ => String.eqb (h_userId h) userId
                     end) (histories s)
    = historiesListed userId mangaId s).
  { unfold historiesListed, historiesFor, historiesOf.
    destruct mangaId as [[|a t]|]; reflexivity. }
  rewrite Hrows.
  destruct (formatHistory_ok s
              (firstn limit (skipn ((page - 1) * limit)
                                   (sortRows before
                                             (historiesListed userId mangaId s)))))
    as (items & Hi & Hmap).
  { intros h Hin. apply Hfk.
    apply firstn_In_inv, skipn_In_inv in Hin.
    apply sortRows_In in Hin. unfold historiesListed, historiesFor, historiesOf in Hin.
    destruct mangaId as [[|a t]|]; apply filter_In in Hin; apply Hin. }
  rewrite Hi. unfold paginationOf.
  eexists. eexists. split; [reflexivity | exact Hmap].
Qed.

(** X14. Paging through getReadingHistory with [limit] entries a page (at
    least one) visits every listed record exactly once.  The records listed
    are the caller's, of one title when the mangaId filter names it.  When
    every record references a title and the database accepts the orderBy
    clause, each page from 1 on is answered without a write, has at most
    [limit] entries, all of them listed records, and reports their number as
    total; the pages 1..n, one after the other, are a permutation of the
    listed records as soon as n * limit covers them. *)
Theorem getReadingHistory_pages :
  forall (D : Database) (userId : Id) (mangaId : option Id)
         (sortBy order : option string) (limit : nat) (s : Store),
    (1 <= limit)%nat ->
    histories_reference_titles s ->
    readingHistoryOrder sortBy order <> None ->
    (forall page, (1 <= page)%nat ->
       exists data pagination,
         getReadingHistory userId (pageQuery page limit sortBy order) mangaId s
         = (Ok (data, pagination), s)
         /\ (List.length data <= limit)%nat
         /\ pg_total pagination
            = Z.of_nat (List.length (historiesListed userId mangaId s))
         /\ forall item, In item data ->
              In (hi_history item) (historiesListed userId mangaId s)
              /\ h_userId (hi_history item) = userId)
    /\ (forall n,
          (List.length (historiesListed userId mangaId s) <= n * limit)%nat ->
          Permutation
            (List.concat (map (fun page => historyPage userId mangaId sortBy order
                                                       limit page s)
                              (seq 1 n)))
            (historiesListed userId mangaId s)).
Proof.
  intros D userId mangaId sortBy order limit s Hl Hfk Ho.
  destruct (readingHistoryOrder sortBy order) as [before|] eqn:Eo;
    [clear Ho | contradiction].
  split.
  - intros page Hp.
    destruct (getReadingHistory_page D userId mangaId sortBy order limit page s
                before Hp Hfk Eo) as (data & pages & Hr & Hmap).
    exists data. eexists. split; [exact Hr|]. split; [|split; [reflexivity|]].
    + rewrite <- (length_map hi_history), Hmap. apply firstn_le_length.
    + intros item Hin.
      assert (Hb : In (hi_history item) (map hi_history data))
        by (apply in_map; exact Hin).
      rewrite Hmap in Hb. apply firstn_In_inv, skipn_In_inv in Hb.
      apply sortRows_In in Hb. split; [exact Hb|].
      unfold historiesListed, historiesFor, historiesOf in Hb.
      destruct mangaId as [[|a t]|]; apply filter_In in Hb;
        destruct Hb as [_ Hb];
        [ | apply andb_true_iff in Hb; destruct Hb as [Hb _] | ];
        apply String.eqb_eq, Hb.
  - intros n Hn.
    assert (Hpages :
      map (fun page => historyPage userId mangaId sortBy order limit page s)
          (seq 1 n)
      = map (fun page => firstn limit
                           (skipn ((page - 1) * limit)
                                  (sortRows before
                                            (historiesListed userId mangaId s))))
            (seq 1 n)).
    { apply map_ext_in. intros page Hin. apply in_seq in Hin.
      destruct (getReadingHistory_page D userId mangaId sortBy order limit page s
                  before (proj1 Hin) Hfk Eo) as (data & pages & Hr & Hmap).
      unfold historyPage. rewrite Hr. exact Hmap. }
    rewrite Hpages, slices_concat, firstn_all2.
    + apply sortRows_perm.
    + rewrite (Permutation_length (sortRows_perm before _)). exact Hn.
Qed.

Lemma getReadingHistory_pages_witness :
  (1 <= 2)%nat
  /\ histories_reference_titles storeB
  /\ @readingHistoryOrder strictDatabase None None <> None
  /\ Permutation
       (List.concat (map (fun page => @historyPage strictDatabase "bob" (Some "m1")
                                                   None None 2%nat page storeB)
                         (seq 1 1)))
       (historiesListed "bob" (Some "m1") storeB).
Proof.
  assert (Hfk : histories_reference_titles storeB).
  { intros h [<-|[<-|[<-|[]]]]; discriminate. }
  assert (Ho : @readingHistoryOrder strictDatabase None None <> None)
    by discriminate.
  split; [lia|]. split; [exact Hfk|]. split; [exact Ho|].
  apply (proj2 (getReadingHistory_pages strictDatabase "bob" (Some "m1") None None
                  2%nat storeB (le_S _ _ (le_n 1%nat)) Hfk Ho) 1%nat).
  simpl. lia.
Defined.

(** ** Reading a chapter *)

Section ChapterReads.
Context {X : Collaborators}.

Lemma createChapter_created mangaId chapterData files userId userRole
      newId now1 now2 s c s' :
  createChapter mangaId chapterData files userId userRole newId now1 now2 s
  = (Ok c, s') ->
  exists manga,
    manga_findUnique mangaId s = Some manga
    /\ s' = set_mangas (set_chapters s (chapters s ++ [c]))
              (map (fun m => if String.eqb (m_id m) mangaId
                             then set_counters m (m_totalChapters m + 1)
                                               (m_totalViews m) (Some now2)
                             else m)
                   (mangas s))
    /\ c_id c = newId /\ c_mangaId c = mangaId /\ c_status c = PUBLISHED
    /\ c_publishedAt c = now1
    /\ c_slug c = createSlug (m_slug manga ++ "-ch-" ++ cd_chapterNumber chapterData)
    /\ existsb (fun x => String.eqb (c_id x) newId) (chapters s) = false
    /\ existsb (fun x => String.eqb (c_slug x) (c_slug c)) (chapters s) = false.
Proof.
  unfold createChapter, bind, read, throw, ret.
  destruct (manga_findUnique mangaId s) as [manga|] eqn:Hm; [|discriminate].
  destruct (negb _ && negb _)%bool; [discriminate|].
  destruct (parseFloat (cd_chapterNumber chapterData)) as [number|];
    [|discriminate].
  destruct (chapter_findFirst mangaId number s); [discriminate|].
  match goal with
  | |- context [match ?stage s with _ => _ end] =>
      assert (Hst : exists r, stage s = (r, s));
      [|destruct Hst as [r Hst]; rewrite Hst]
  end.
  { destruct files as [[|f fs]|]; unfold lift; eauto;
      destruct (cd_images chapterData) as [|[|a t]|urls]; eauto;
      destruct (JSON_parse _); eauto. }
  destruct r as [images|e]; [|discriminate].
  destruct (Nat.eqb (List.length images) 0); [discriminate|].
  unfold chapter_create. simpl.
  destruct (existsb (fun x => String.eqb (c_id x) newId) (chapters s)) eqn:Hid;
    [discriminate|].
  match goal with
  | |- context [if existsb ?f (chapters s) then _ else _] =>
      destruct (existsb f (chapters s)) eqn:Hslug; [discriminate|]
  end.
  rewrite Hm. unfold manga_update.
  change (manga_findUnique mangaId (set_chapters s ?l))
    with (manga_findUnique mangaId s).
  rewrite Hm. intros [= <- <-]. exists manga. simpl. repeat split; assumption.
Qed.

(** X15. A chapter that createChapter has stored is served under its slug:
    getChapterBySlug with the slug of the chapter returned finds that
    chapter, with the summary of the title it was added to, and writes
    nothing. *)
Theorem createChapter_then_getChapterBySlug :
  forall (mangaId : Id) (chapterData : ChapterData) (files : option (list File))
         (userId : Id) (userRole : Role) (newId : Id) (now1 now2 : Date)
         (s s' : Store) (c : Chapter),
    createChapter mangaId chapterData files userId userRole newId now1 now2 s
    = (Ok c, s') ->
    exists summary,
      getChapterBySlug (c_slug c) s' = (Ok (c, Some summary), s')
      /\ ms_id summary = mangaId.
Proof.
  intros mangaId chapterData files userId userRole newId now1 now2 s s' c H.
  destruct (createChapter_created _ _ _ _ _ _ _ _ _ _ _ H)
    as (manga & Hm & Hs & Hid & Hmid & Hst & Hpub & Hslug & Hfresh & Hsfresh).
  unfold getChapterBySlug, bind, read, ret, chapter_findPublished.
  assert (Hfind :
    find (fun x => (String.eqb (c_slug x) (c_slug c)
                    && ChapterStatus_eqb (c_status x) PUBLISHED)%bool)
         (chapters s') = Some c).
  { rewrite Hs. simpl. rewrite find_app_none.
    - rewrite String.eqb_refl, Hst. reflexivity.
    - clear - Hsfresh. induction (chapters s) as [|x r IH]; [reflexivity|].
      simpl in *. apply orb_false_iff in Hsfresh. destruct Hsfresh as [H1 H2].
      rewrite H1. simpl. apply IH, H2. }
  rewrite Hfind.
  assert (Hmanga : exists m', manga_findUnique (c_mangaId c) s' = Some m'
                              /\ m_id m' = mangaId).
  { rewrite Hs, Hmid. unfold manga_findUnique in *. simpl.
    rewrite (find_map_update (fun m => String.eqb (m_id m) mangaId)
               (fun m => set_counters m (m_totalChapters m + 1) (m_totalViews m)
                                      (Some now2))).
    - rewrite Hm. simpl. eexists. split; [reflexivity|]. simpl.
      apply find_some in Hm. apply String.eqb_eq, Hm.
    - intros x Hx. exact Hx. }
  destruct Hmanga as (m' & Hm' & Hid').
  rewrite Hm'. simpl. eexists. split; [reflexivity|]. exact Hid'.
Qed.

End ChapterReads.

Lemma createChapter_then_getChapterBySlug_witness :
  createChapter (X := exampleCollaborators) "m1"
    (mkChapterData "2" None (ImagesArray ["p1.png"])) None "alice" UPLOADER
    "c2" 2000 2001 storeA
  = (Ok (mkChapter "c2" "m1" (2 # 1) "Chapter 2" "one-piece-ch-2" ["p1.png"] 1 0
                   PUBLISHED 2000),
     snd (createChapter (X := exampleCollaborators) "m1"
            (mkChapterData "2" None (ImagesArray ["p1.png"])) None "alice"
            UPLOADER "c2" 2000 2001 storeA))
  /\ exists summary,
       getChapterBySlug "one-piece-ch-2"
         (snd (createChapter (X := exampleCollaborators) "m1"
                 (mkChapterData "2" None (ImagesArray ["p1.png"])) None "alice"
                 UPLOADER "c2" 2000 2001 storeA))
       = (Ok (mkChapter "c2" "m1" (2 # 1) "Chapter 2" "one-piece-ch-2" ["p1.png"]
                        1 0 PUBLISHED 2000, Some summary),
          snd (createChapter (X := exampleCollaborators) "m1"
                 (mkChapterData "2" None (ImagesArray ["p1.png"])) None "alice"
                 UPLOADER "c2" 2000 2001 storeA))
       /\ ms_id summary = "m1".
Proof.
  assert (Hr : createChapter (X := exampleCollaborators) "m1"
                 (mkChapterData "2" None (ImagesArray ["p1.png"])) None "alice"
                 UPLOADER "c2" 2000 2001 storeA
               = (Ok (mkChapter "c2" "m1" (2 # 1) "Chapter 2" "one-piece-ch-2"
                                ["p1.png"] 1 0 PUBLISHED 2000),
                  snd (createChapter (X := exampleCollaborators) "m1"
                         (mkChapterData "2" None (ImagesArray ["p1.png"])) None
                         "alice" UPLOADER "c2" 2000 2001 storeA))).
  { vm_compute. reflexivity. }
  split; [exact Hr|].
  exact (createChapter_then_getChapterBySlug (X := exampleCollaborators)
           "m1" (mkChapterData "2" None (ImagesArray ["p1.png"])) None "alice"
           UPLOADER "c2" 2000 2001 storeA _ _ Hr).
Defined.

Lemma chapter_findPublished_spec (slug : string) (s : Store) c m :
  chapter_findPublished slug s = Some (c, m) ->
  In c (chapters s) /\ c_slug c = slug /\ c_status c = PUBLISHED
  /\ m = option_map summaryOf (manga_findUnique (c_mangaId c) s).
Proof.
  unfold chapter_findPublished.
  destruct (find _ (chapters s)) as [x|] eqn:Hf; [|discriminate].
  intros [= <- <-]. apply find_some in Hf. destruct Hf as [Hin Hp].
  apply andb_true_iff in Hp. destruct Hp as [H1 H2].
  apply String.eqb_eq in H1.
  destruct (c_status x) eqn:E; [discriminate|]. auto.
Qed.

Lemma chapter_findUnique_unique (s : Store) (c : Chapter) :
  chapterIds_unique s -> In c (chapters s) ->
  chapter_findUnique (c_id c) s = Some c.
Proof.
  intros Hu Hin. unfold chapter_findUnique.
  destruct (find _ (chapters s)) as [x|] eqn:Hf.
  - apply find_some in Hf. destruct Hf as [Hx Hid]. apply String.eqb_eq in Hid.
    f_equal. apply (NoDup_map_inj c_id (chapters s)); assumption.
  - pose proof (find_none _ _ Hf c Hin) as Hn. simpl in Hn.
    rewrite String.eqb_refl in Hn. discriminate.
Qed.

Lemma find_map_skip {A} (p q : A -> bool) (f : A -> A) (l : list A) :
  (forall x, p (f x) = p x) ->
  (forall x, p x = true -> q x = false) ->
  find p (map (fun x => if q x then f x else x) l) = find p l.
Proof.
  intros Hpf Hpq. induction l as [|x r IH]; simpl; [reflexivity|].
  destruct (q x) eqn:Eq.
  - rewrite Hpf. destruct (p x) eqn:Ep; [|exact IH].
    rewrite (Hpq x Ep) in Eq. discriminate.
  - destruct (p x); [reflexivity | exact IH].
Qed.

(** X16. Serving a chapter by its slug counts exactly one view.  The
    handler answers 404 and writes nothing when no PUBLISHED chapter has the
    slug, so a draft is never served.  Otherwise (chapter ids being unique,
    the title present and the id of the view row unused) it answers the
    chapter as read, the chapter's and the title's totalViews are one
    higher, the views of every other chapter and title are as before, and a
    ChapterView row for the chapter is appended exactly when a user is
    logged in. *)
Theorem getChapterBySlug_controller_counts_one_view :
  forall (slug : string) (user : option Id) (newId : Id) (s : Store),
    chapterIds_unique s ->
    (chapter_findPublished slug s = None ->
     getChapterBySlug_controller slug user newId s
     = (Err (AppError "Chapter not found" 404), s))
    /\ (forall c m,
          chapter_findPublished slug s = Some (c, Some m) ->
          existsb (fun v => String.eqb (v_id v) newId) (chapterViews s) = false ->
          let s' := snd (getChapterBySlug_controller slug user newId s) in
          fst (getChapterBySlug_controller slug user newId s) = Ok (c, Some m)
          /\ c_status c = PUBLISHED /\ c_slug c = slug
          /\ chapterViewsOf (c_id c) s' = Some (c_totalViews c + 1)
          /\ titleViewsOf (c_mangaId c) s'
             = option_map (fun v => v + 1) (titleViewsOf (c_mangaId c) s)
          /\ (forall id, id <> c_id c ->
                         chapterViewsOf id s' = chapterViewsOf id s)
          /\ (forall id, id <> c_mangaId c ->
                         titleViewsOf id s' = titleViewsOf id s)
          /\ chapterViews s'
             = (chapterViews s
                ++ match user with
                   | Some userId => [mkChapterView newId (c_id c) userId]
                   | None => []
                   end)%list).
Proof.
  intros slug user newId s Hu. split.
  - intros Hnone. unfold getChapterBySlug_controller, bind, read, throw.
    rewrite Hnone. reflexivity.
  - intros c m Hfound Hnew.
    destruct (chapter_findPublished_spec _ _ _ _ Hfound) as (Hin & Hslug & Hst & Hm).
    pose proof (chapter_findUnique_unique s c Hu Hin) as Hc.
    destruct (manga_findUnique (c_mangaId c) s) as [manga|] eqn:Hmanga;
      [|discriminate].
    set (s1 := set_chapters s
                 (map (fun x => if String.eqb (c_id x) (c_id c)
                                then set_c_totalViews x (c_totalViews x + 1)
                                else x) (chapters s))).
    set (s2 := set_mangas s1
                 (map (fun x => if String.eqb (m_id x) (c_mangaId c)
                                then set_counters x (m_totalChapters x)
                                                  (m_totalViews x + 1)
                                                  (m_lastChapterAt x)
                                else x) (mangas s))).
    set (s3 := match user with
               | Some userId =>
                   set_chapterViews s2
                     (chapterViews s ++ [mkChapterView newId (c_id c) userId])
               | None => s2
               end).
    assert (Hrun : getChapterBySlug_controller slug user newId s
                   = (Ok (c, Some m), s3)).
    { unfold getChapterBySlug_controller, bind, read, ret.
      rewrite Hfound. cbn [fst]. unfold chapter_update. rewrite Hc.
      unfold manga_update.
      change (manga_findUnique (c_mangaId c) (set_chapters s ?l))
        with (manga_findUnique (c_mangaId c) s).
      rewrite Hmanga. fold s1. cbn [mangas s1 set_chapters]. 
      change (mangas s1) with (mangas s). fold s2.
      unfold s3. destruct user as [userId|]; [|reflexivity].
      unfold chapterView_create.
      change (chapterViews s2) with (chapterViews s). rewrite Hnew. reflexivity. }
    rewrite Hrun. cbn [fst snd].
    split; [reflexivity|]. split; [exact Hst|]. split; [exact Hslug|].
    assert (Hch : chapters s3 = chapters s1) by (unfold s3; destruct user; reflexivity).
    assert (Hmg : mangas s3 = mangas s2) by (unfold s3; destruct user; reflexivity).
    split; [|split; [|split; [|split]]].
    + unfold chapterViewsOf, chapter_findUnique. rewrite Hch. unfold s1. simpl.
      rewrite (find_map_update (fun x => String.eqb (c_id x) (c_id c))
                 (fun x => set_c_totalViews x (c_totalViews x + 1))).
      * fold (chapter_findUnique (c_id c) s). rewrite Hc. reflexivity.
      * intros x Hx. exact Hx.
    + unfold titleViewsOf, manga_findUnique in *. rewrite Hmg. unfold s2. simpl.
      rewrite (find_map_update (fun x => String.eqb (m_id x) (c_mangaId c))
                 (fun x => set_counters x (m_totalChapters x) (m_totalViews x + 1)
                                        (m_lastChapterAt x))).
      * rewrite Hmanga. reflexivity.
      * intros x Hx. exact Hx.
    + intros id Hne. unfold chapterViewsOf, chapter_findUnique. rewrite Hch.
      unfold s1. simpl. rewrite find_map_skip; [reflexivity| |].
      * intros x. reflexivity.
      * intros x Hx. apply String.eqb_eq in Hx. apply String.eqb_neq. congruence.
    + intros id Hne. unfold titleViewsOf, manga_findUnique. rewrite Hmg.
      unfold s2. simpl. rewrite find_map_skip; [reflexivity| |].
      * intros x. reflexivity.
      * intros x Hx. apply String.eqb_eq in Hx. apply String.eqb_neq. congruence.
    + unfold s3. destruct user; simpl; [reflexivity|].
      rewrite app_nil_r. reflexivity.
Qed.

Lemma chapterIds_unique_storeE : chapterIds_unique storeE.
Proof.
  unfold chapterIds_unique. simpl.
  repeat constructor; simpl; intuition discriminate.
Qed.

Lemma getChapterBySlug_controller_counts_one_view_witness :
  chapterIds_unique storeE
  /\ chapter_findPublished "one-piece-ch-2" storeE = None
  /\ getChapterBySlug_controller "one-piece-ch-2" (Some "bob") "v1" storeE
     = (Err (AppError "Chapter not found" 404), storeE)
  /\ chapterViewsOf "c1"
       (snd (getChapterBySlug_controller "one-piece-ch-1" (Some "bob") "v1" storeE))
     = Some 1.
Proof.
  split; [exact chapterIds_unique_storeE|]. split; [reflexivity|].
  destruct (getChapterBySlug_controller_counts_one_view
              "one-piece-ch-2" (Some "bob") "v1" storeE chapterIds_unique_storeE)
    as [Hdraft _].
  split; [apply Hdraft; reflexivity|].
  destruct (getChapterBySlug_controller_counts_one_view
              "one-piece-ch-1" (Some "bob") "v1" storeE chapterIds_unique_storeE)
    as [_ Hserved].
  destruct (Hserved (exampleChapter "c1" "m1" (1 # 1) "one-piece-ch-1")
                    (mkMangaSummary "m1" "One Piece" "one-piece" None)
                    eq_refl eq_refl) as (_ & _ & _ & Hviews & _).
  exact Hviews.
Defined.

(** ** Chapter lists *)

Lemma byQ_total {A} (col : A -> Q) (o : SortOrder) (x y : A) :
  byQ col o x y = false -> byQ col o y x = true.
Proof.
  destruct o; simpl; intros H; apply Qle_bool_iff;
    apply Qlt_le_weak, Qnot_le_lt; intros Hle; apply Qle_bool_iff in Hle;
    congruence.
Qed.

Lemma byQ_trans {A} (col : A -> Q) (o : SortOrder) (x y z : A) :
  byQ col o x y = true -> byQ col o y z = true -> byQ col o x z = true.
Proof.
  destruct o; simpl; intros H1 H2; apply Qle_bool_iff in H1, H2;
    apply Qle_bool_iff; eapply Qle_trans; eassumption.
Qed.

Lemma sortRows_byNumber_sorted (l : list Chapter) :
  StronglySorted numberNotAfter (sortRows (byQ c_chapterNumber Asc) l).
Proof.
  apply (StronglySorted_weaken (fun a b => byQ c_chapterNumber Asc a b = true)).
  - intros a b Hab. unfold numberNotAfter. apply Qle_bool_iff. exact Hab.
  - apply sortRows_sorted;
      [apply (byQ_total c_chapterNumber Asc) | apply (byQ_trans c_chapterNumber Asc)].
Qed.

(** X17. GetChaptersByMangaId lists the PUBLISHED chapters of the title and
    nothing else.  Whatever order is asked for, a list that is answered
    holds each published chapter of the title once, no draft and no chapter
    of another title, and nothing is written; without options the list is
    always answered, by ascending chapter number. *)
Theorem getChaptersByMangaId_published_only :
  forall (D : Database) (mangaId : Id) (sortBy order : option string) (s : Store),
    snd (getChaptersByMangaId mangaId sortBy order s) = s
    /\ (forall rows,
          fst (getChaptersByMangaId mangaId sortBy order s) = Ok rows ->
          Permutation rows (publishedChaptersOf mangaId s)
          /\ forall c, In c rows ->
               c_mangaId c = mangaId /\ c_status c = PUBLISHED
               /\ In c (chapters s))
    /\ exists rows,
         fst (getChaptersByMangaId mangaId None None s) = Ok rows
         /\ StronglySorted numberNotAfter rows.
Proof.
  intros D mangaId sortBy order s.
  unfold getChaptersByMangaId, bind, get, throw, ret.
  fold (publishedChaptersOf mangaId s). simpl.
  split; [|split].
  - destruct (chapter_orderBy _ _); reflexivity.
  - intros rows. destruct (chapter_orderBy _ _) as [before|]; simpl;
      [|discriminate].
    intros [= <-]. split; [apply sortRows_perm|].
    intros c Hin. apply sortRows_In in Hin. unfold publishedChaptersOf in Hin.
    apply filter_In in Hin. destruct Hin as [Hin Hp].
    apply andb_true_iff in Hp. destruct Hp as [H1 H2].
    apply String.eqb_eq in H1.
    destruct (c_status c); [discriminate|]. auto.
  - eexists. split; [reflexivity|]. apply sortRows_byNumber_sorted.
Qed.

(** The draft of the example is not listed. *)
Example getChaptersByMangaId_skips_draft :
  fst (@getChaptersByMangaId strictDatabase "m1" None None storeE)
  = Ok [exampleChapter "c1" "m1" (1 # 1) "one-piece-ch-1"].
Proof. reflexivity. Qed.

(** ** A title by its slug *)

(** X18. GetMangaBySlug answers 404 'Manga not found' exactly when no title
    has the slug, and never writes.  A title that is found is served
    whatever its approval status, with its PUBLISHED chapters and no other,
    each once, by ascending chapter number. *)
Theorem getMangaBySlug_detail :
  forall (slug : string) (s : Store),
    snd (getMangaBySlug slug s) = s
    /\ (manga_findBySlug slug s = None <->
        fst (getMangaBySlug slug s) = Err (AppError "Manga not found" 404))
    /\ (forall m, manga_findBySlug slug s = Some m ->
          exists d,
            fst (getMangaBySlug slug s) = Ok d
            /\ fm_manga (d_manga d) = m
            /\ m_slug m = slug /\ In m (mangas s)
            /\ Permutation (d_chapters d) (publishedChaptersOf (m_id m) s)
            /\ StronglySorted numberNotAfter (d_chapters d)).
Proof.
  intros slug s. unfold getMangaBySlug, bind, read, get, throw, ret.
  destruct (manga_findBySlug slug s) as [m|] eqn:Hm; simpl.
  - split; [reflexivity|]. split; [split; discriminate|].
    intros m' [= <-]. eexists. split; [reflexivity|]. simpl.
    unfold manga_findBySlug in Hm. apply find_some in Hm.
    destruct Hm as [Hin Hs]. apply String.eqb_eq in Hs.
    repeat split; try assumption.
    + apply sortRows_perm.
    + apply sortRows_byNumber_sorted.
  - split; [reflexivity|]. split; [split; reflexivity|]. discriminate.
Qed.

(** A title that waits for approval is served by its slug. *)
Example getMangaBySlug_serves_pending :
  option_map m_approvalStatus (manga_findBySlug "c" storeC) = Some PENDING
  /\ exists d, fst (getMangaBySlug "c" storeC) = Ok d
               /\ m_approvalStatus (fm_manga (d_manga d)) = PENDING.
Proof. split; [reflexivity|]. eexists. split; reflexivity. Qed.

(** ** Title creation, continued *)

Section TitleCreated.
Context {X : Collaborators}.

Lemma manga_create_created (title slug : string) (alt : list string)
      (d : MangaData) (thumbnail coverImage : option string)
      (userId : Id) (userRole : Role) (a g : list string) (idOf : nat -> Id)
      (s : Store) :
  titleCreated userId userRole idOf s
    (bind (manga_create (newManga (idOf O) title slug alt d thumbnail coverImage
                                  userId userRole) a g idOf)
          (fun manga => ret (manga, createdMessage userRole)) s).
Proof.
  unfold titleCreated, bind, ret, manga_create.
  destruct (existsb (fun x => String.eqb (m_id x) _) (mangas s)) eqn:Hid;
    [reflexivity|].
  destruct (existsb (fun x => String.eqb (m_slug x) _) (mangas s)) eqn:Hslug;
    [reflexivity|].
  destruct (connectAll _ a idOf 1 (authors s) (mangaAuthors s))
    as [[[authors' joins'] k]|e]; [|reflexivity].
  destruct (connectAll _ g idOf k (genres s) (mangaGenres s))
    as [[[genres' joins2] k2]|e]; [|reflexivity].
  simpl. repeat split.
  - apply existsb_false_not_in. exact Hid.
  - exact Hslug.
Qed.

Lemma titleCreated_Err userId userRole idOf s (e : Error) :
  titleCreated userId userRole idOf s (Err e, s).
Proof. reflexivity. Qed.

Lemma createManga_created (d : MangaData) (files : option MangaFiles)
      (userId : Id) (userRole : Role) (idOf : nat -> Id) (s : Store) :
  titleCreated userId userRole idOf s (createManga d files userId userRole idOf s).
Proof.
  unfold createManga.
  unfold bind at 1.
  destruct (imageOf_state
              (match files with Some f => mf_thumbnail f | None => None end)
              (md_thumbnail d) s) as [r Hr].
  rewrite Hr. destruct r as [thumbnail|e]; [|apply titleCreated_Err].
  unfold bind at 1.
  destruct (imageOf_state
              (match files with Some f => mf_coverImage f | None => None end)
              (md_coverImage d) s) as [r Hc].
  rewrite Hc. destruct r as [coverImage|e]; [|apply titleCreated_Err].
  unfold bind at 1.
  assert (Hslug : exists r, createSlug_of (md_title d) s = (r, s)).
  { unfold createSlug_of, ret, throw. destruct (md_title d); eauto. }
  destruct Hslug as [r Hslug]. rewrite Hslug.
  destruct r as [slug|e]; [|apply titleCreated_Err].
  unfold bind at 1.
  destruct (parseNames_state (md_authorNames d) s) as [r Ha].
  rewrite Ha. destruct r as [authorsArray|e]; [|apply titleCreated_Err].
  unfold bind at 1.
  destruct (parseNames_state (md_genreNames d) s) as [r Hg].
  rewrite Hg. destruct r as [genresArray|e]; [|apply titleCreated_Err].
  unfold bind at 1.
  match goal with
  | |- context [match ?stage s with _ => _ end] =>
      assert (Hst : exists r, stage s = (r, s));
      [|destruct Hst as [r Hst]; rewrite Hst]
  end.
  { destruct (md_alternativeTitles d) as [|[|c text]|l]; unfold ret, throw, bind;
      eauto.
    - unfold parseNames, ret, throw. destruct (JSON_parse (String c text)); eauto.
    - unfold parseNames, ret. eauto. }
  destruct r as [altTitlesArray|e]; [|apply titleCreated_Err].
  destruct authorsArray as [authorsArray|]; [|apply titleCreated_Err].
  destruct genresArray as [genresArray|]; [|apply titleCreated_Err].
  apply manga_create_created.
Qed.

Lemma createManga_controller_created (d : MangaData) (files : option MangaFiles)
      (userId : Id) (userRole : Role) (idOf : nat -> Id) (s : Store) :
  titleCreated userId userRole idOf s
    (createManga_controller d files userId userRole idOf s).
Proof.
  unfold createManga_controller.
  unfold bind at 1.
  destruct (imageOf_state
              (match files with Some f => mf_thumbnail f | None => None end)
              (md_thumbnail d) s) as [r Hr].
  rewrite Hr. destruct r as [thumbnail|e]; [|apply titleCreated_Err].
  unfold bind at 1.
  destruct (imageOf_state
              (match files with Some f => mf_coverImage f | None => None end)
              (md_coverImage d) s) as [r Hc].
  rewrite Hc. destruct r as [coverImage|e]; [|apply titleCreated_Err].
  unfold bind at 1.
  assert (Hslug : exists r, createSlug_of (md_title d) s = (r, s)).
  { unfold createSlug_of, ret, throw. destruct (md_title d); eauto. }
  destruct Hslug as [r Hslug]. rewrite Hslug.
  destruct r as [slug|e]; [|apply titleCreated_Err].
  destruct (parseToArray (md_authorNames d)) as [authorsArray|];
    [|apply titleCreated_Err].
  destruct (parseToArray (md_genreNames d)) as [genresArray|];
    [|apply titleCreated_Err].
  destruct (parseToArray (md_alternativeTitles d)) as [altTitlesArray|];
    [|apply titleCreated_Err].
  apply manga_create_created.
Qed.

(** X19. Title creation is all or nothing, in the service and in the
    handler that repeats it.  A createManga that fails, at whatever stage,
    leaves the store as it was.  One that succeeds adds exactly one title,
    under an id and a slug no title had, owned by the caller, APPROVED when
    the caller is an ADMIN and PENDING otherwise, with totalChapters and
    totalViews at 0; chapters, bookmarks, progress records and views are
    untouched. *)
Theorem createManga_all_or_nothing :
  forall (d : MangaData) (files : option MangaFiles) (userId : Id)
         (userRole : Role) (idOf : nat -> Id) (s : Store),
    titleCreated userId userRole idOf s
      (createManga d files userId userRole idOf s)
    /\ titleCreated userId userRole idOf s
         (createManga_controller d files userId userRole idOf s).
Proof.
  intros. split; [apply createManga_created | apply createManga_controller_created].
Qed.

Lemma no_chapter_of_new_title (s : Store) (id : Id) :
  chapters_reference_titles s ->
  ~ In id (map m_id (mangas s)) ->
  filter (fun c => String.eqb (c_mangaId c) id) (chapters s) = [].
Proof.
  intros Hfk Hnew.
  assert (H : forall c, In c (chapters s) -> String.eqb (c_mangaId c) id = false).
  { intros c Hin. apply String.eqb_neq. intros Heq. apply Hnew.
    specialize (Hfk c Hin). unfold manga_findUnique in Hfk.
    destruct (find _ (mangas s)) as [m|] eqn:Hf; [|contradiction].
    apply find_some in Hf. destruct Hf as [Hm Hid]. apply String.eqb_eq in Hid.
    rewrite <- Heq, <- Hid. apply in_map, Hm. }
  induction (chapters s) as [|c r IH]; [reflexivity|].
  simpl. rewrite (H c (or_introl eq_refl)). apply IH.
  intros x Hx. apply H. right. exact Hx.
Qed.

Lemma titleCreated_chapterCount userId userRole idOf s r :
  titleCreated userId userRole idOf s r ->
  chapterCount_ok s -> chapters_reference_titles s ->
  chapterCount_ok (snd r).
Proof.
  unfold titleCreated. intros Hc Hok Hfk.
  destruct (fst r) as [[m msg]|e]; [|rewrite Hc; exact Hok].
  destruct Hc as (Hm & Hch & _ & _ & _ & _ & Hnew & _ & _ & _ & H0 & _).
  intros m' Hin. rewrite Hm in Hin. unfold chaptersOf. rewrite Hch.
  apply in_app_or in Hin. destruct Hin as [Hin|[<-|[]]].
  - apply Hok, Hin.
  - rewrite H0, (no_chapter_of_new_title s (m_id m) Hfk Hnew). reflexivity.
Qed.

(** X20. Creating a title keeps the chapter counters right.  In a store
    where every title's totalChapters counts its chapters and every chapter
    references a title, createManga (service or handler), completed or not,
    leaves a store where every title's totalChapters counts its chapters:
    the new title starts at 0 with no chapter of its own. *)
Theorem createManga_keeps_chapterCount :
  forall (d : MangaData) (files : option MangaFiles) (userId : Id)
         (userRole : Role) (idOf : nat -> Id) (s : Store),
    chapterCount_ok s -> chapters_reference_titles s ->
    chapterCount_ok (snd (createManga d files userId userRole idOf s))
    /\ chapterCount_ok
         (snd (createManga_controller d files userId userRole idOf s)).
Proof.
  intros d files userId userRole idOf s Hok Hfk. split.
  - exact (titleCreated_chapterCount _ _ _ _ _
             (createManga_created d files userId userRole idOf s) Hok Hfk).
  - exact (titleCreated_chapterCount _ _ _ _ _
             (createManga_controller_created d files userId userRole idOf s)
             Hok Hfk).
Qed.

(** X21. A title that createManga has stored is served under its slug:
    with every chapter referencing a title, getMangaBySlug of the new
    title's slug answers that title, pending or approved, with an empty
    chapter list, and writes nothing. *)
Theorem createManga_then_getMangaBySlug :
  forall (d : MangaData) (files : option MangaFiles) (userId : Id)
         (userRole : Role) (idOf : nat -> Id) (s s' : Store)
         (m : Manga) (msg : string),
    chapters_reference_titles s ->
    createManga d files userId userRole idOf s = (Ok (m, msg), s') ->
    exists detail,
      getMangaBySlug (m_slug m) s' = (Ok detail, s')
      /\ fm_manga (d_manga detail) = m
      /\ d_chapters detail = [].
Proof.
  intros d files userId userRole idOf s s' m msg Hfk Hrun.
  pose proof (createManga_created d files userId userRole idOf s) as Hc.
  unfold titleCreated in Hc. rewrite Hrun in Hc. simpl in Hc.
  destruct Hc as (Hm & Hch & _ & _ & _ & _ & Hnew & Hslug & _).
  unfold getMangaBySlug, bind, read, get, throw, ret.
  assert (Hfind : manga_findBySlug (m_slug m) s' = Some m).
  { unfold manga_findBySlug. rewrite Hm. rewrite find_app_none.
    - rewrite String.eqb_refl. reflexivity.
    - unfold slugUnused in Hslug. clear - Hslug.
      induction (mangas s) as [|x r IH]; [reflexivity|].
      simpl in *. apply orb_false_iff in Hslug. destruct Hslug as [H1 H2].
      rewrite H1. apply IH, H2. }
  rewrite Hfind. eexists. split; [reflexivity|]. split; [reflexivity|].
  simpl. rewrite Hch.
  assert (Hnone : filter (fun c => (String.eqb (c_mangaId c) (m_id m)
                                    && ChapterStatus_eqb (c_status c) PUBLISHED)%bool)
                         (chapters s) = []).
  { pose proof (no_chapter_of_new_title s (m_id m) Hfk Hnew) as Hn.
    clear - Hn. induction (chapters s) as [|c r IH]; [reflexivity|].
    simpl in *. destruct (String.eqb (c_mangaId c) (m_id m)); [discriminate|].
    simpl. apply IH, Hn. }
  rewrite Hnone. reflexivity.
Qed.

End TitleCreated.

Lemma chapters_reference_titles_storeA : chapters_reference_titles storeA.
Proof. intros c [<-|[]]. discriminate. Qed.

Lemma chapterCount_ok_storeA : chapterCount_ok storeA.
Proof. intros m [<-|[]]. reflexivity. Qed.

Lemma createManga_keeps_chapterCount_witness :
  chapterCount_ok storeA
  /\ chapters_reference_titles storeA
  /\ chapterCount_ok
       (snd (createManga (X := exampleCollaborators) narutoRequest None "carol"
                         UPLOADER exampleIds storeA)).
Proof.
  split; [exact chapterCount_ok_storeA|].
  split; [exact chapters_reference_titles_storeA|].
  exact (proj1 (createManga_keeps_chapterCount (X := exampleCollaborators)
                  narutoRequest None "carol" UPLOADER exampleIds storeA
                  chapterCount_ok_storeA chapters_reference_titles_storeA)).
Defined.

Lemma createManga_then_getMangaBySlug_witness :
  chapters_reference_titles storeA
  /\ exists detail,
       getMangaBySlug "naruto"
         (snd (createManga (X := exampleCollaborators) narutoRequest None "carol"
                           UPLOADER exampleIds storeA))
       = (Ok detail,
          snd (createManga (X := exampleCollaborators) narutoRequest None "carol"
                           UPLOADER exampleIds storeA))
       /\ m_title (fm_manga (d_manga detail)) = "Naruto"
       /\ m_approvalStatus (fm_manga (d_manga detail)) = PENDING
       /\ d_chapters detail = [].
Proof.
  split; [exact chapters_reference_titles_storeA|].
  destruct (createManga (X := exampleCollaborators) narutoRequest None "carol"
                        UPLOADER exampleIds storeA)
    as [[[m msg]|e] s'] eqn:E.
  - destruct (createManga_then_getMangaBySlug (X := exampleCollaborators)
                narutoRequest None "carol" UPLOADER exampleIds storeA s' m msg
                chapters_reference_titles_storeA E) as (detail & H1 & H2 & H3).
    vm_compute in E. injection E as Em Emsg Es.
    exists detail. cbn [snd]. rewrite H2. subst m. repeat split; assumption.
  - vm_compute in E. discriminate.
Defined.

(** ** Recently updated titles *)

Lemma lastChapterAt_desc_total (x y : Manga) :
  lastChapterAt_desc x y = false -> lastChapterAt_desc y x = true.
Proof.
  unfold lastChapterAt_desc.
  destruct (m_lastChapterAt x), (m_lastChapterAt y); try discriminate; auto.
  intros H. apply Z.leb_gt in H. apply Z.leb_le. lia.
Qed.

Lemma sortRows_recent_sorted (l : list Manga) :
  (forall m, In m l -> m_lastChapterAt m <> None) ->
  StronglySorted (fun a b => lastChapterAt_desc a b = true)
                 (sortRows lastChapterAt_desc l).
Proof.
  induction l as [|x r IH]; intros Hsome; simpl; [constructor|].
  assert (IH' := IH (fun m Hm => Hsome m (or_intror Hm))). clear IH.
  assert (Hx := Hsome x (or_introl eq_refl)).
  assert (Hr : forall m, In m (sortRows lastChapterAt_desc r) ->
                         m_lastChapterAt m <> None).
  { intros m Hm. apply Hsome. right. apply sortRows_In in Hm. exact Hm. }
  induction IH' as [|y t Ht IHt Hall]; simpl.
  - constructor; constructor.
  - destruct (lastChapterAt_desc x y) eqn:E.
    + constructor; [constructor; assumption|].
      constructor; [exact E|].
      apply Forall_forall. intros z Hz. rewrite Forall_forall in Hall.
      specialize (Hall z Hz). unfold lastChapterAt_desc in *.
      destruct (m_lastChapterAt x) as [a|]; [|contradiction].
      destruct (m_lastChapterAt y) as [b|] eqn:Ey;
        [|exfalso; apply (Hr y); [left; reflexivity | exact Ey]].
      destruct (m_lastChapterAt z) as [c|]; [|reflexivity].
      apply Z.leb_le in E, Hall. apply Z.leb_le. lia.
    + constructor.
      * apply IHt. intros m Hm. apply Hr. right. exact Hm.
      * apply Forall_forall. intros z Hz.
        apply (Permutation_in _ (insertBy_perm lastChapterAt_desc x t)) in Hz.
        destruct Hz as [<-|Hz]; [apply lastChapterAt_desc_total, E|].
        rewrite Forall_forall in Hall. apply Hall, Hz.
Qed.

Lemma StronglySorted_map {A B} (R : A -> A -> Prop) (R' : B -> B -> Prop)
      (f : A -> B) (l : list A) :
  (forall a b, In a l -> In b l -> R a b -> R' (f a) (f b)) ->
  StronglySorted R l -> StronglySorted R' (map f l).
Proof.
  intros HR Hs. induction Hs as [|x r Hr IH Hall]; simpl; constructor.
  - apply IH. intros a b Ha Hb. apply HR; right; assumption.
  - apply Forall_forall. intros z Hz. apply in_map_iff in Hz.
    destruct Hz as (y & <- & Hy). rewrite Forall_forall in Hall.
    apply HR; [left; reflexivity | right; exact Hy | apply Hall, Hy].
Qed.

Lemma sortRows_head_In {A} (before : A -> A -> bool) (l : list A) (x : A) :
  hd_error (sortRows before l) = Some x -> In x l.
Proof.
  intros H. apply (sortRows_In before l x).
  destruct (sortRows before l); [discriminate|].
  injection H as ->. left. reflexivity.
Qed.

Lemma sortRows_head_first {A} (before : A -> A -> bool) (l : list A) (x : A) :
  (forall a b, before a b = false -> before b a = true) ->
  (forall a b c, before a b = true -> before b c = true -> before a c = true) ->
  hd_error (sortRows before l) = Some x ->
  forall y, In y l -> before x y = true.
Proof.
  intros Htot Htr H y Hy.
  pose proof (sortRows_sorted before Htot Htr l) as Hs.
  apply (sortRows_In before l y) in Hy.
  destruct (sortRows before l) as [|h t]; [discriminate|].
  injection H as ->. inversion Hs as [|? ? _ Hall]; subst.
  destruct Hy as [<-|Hy].
  - destruct (before x x) eqn:E; [reflexivity|].
    pose proof (Htot x x E) as H'. congruence.
  - rewrite Forall_forall in Hall. apply Hall, Hy.
Qed.

(** X22. GetRecentManga lists only APPROVED titles that have received a
    chapter, the most recently updated first and at most [limit] of them,
    each a title of the store; a title's latestChapter is one of its own
    chapters and none of its chapters was published later, and it is null
    exactly when no chapter references the title. *)
Theorem getRecentManga_listing :
  forall (limit : nat) (s : Store),
    (List.length (getRecentManga limit s) <= limit)%nat
    /\ StronglySorted updatedNoEarlier (getRecentManga limit s)
    /\ forall r, In r (getRecentManga limit s) ->
         let m := fm_manga (rm_manga r) in
         In m (mangas s)
         /\ m_approvalStatus m = APPROVED
         /\ m_lastChapterAt m <> None
         /\ (rm_latestChapter r = None <-> chaptersOf (m_id m) s = [])
         /\ forall c, rm_latestChapter r = Some c ->
              In c (chaptersOf (m_id m) s)
              /\ forall c', In c' (chaptersOf (m_id m) s) ->
                            c_publishedAt c' <= c_publishedAt c.
Proof.
  intros limit s. unfold getRecentManga.
  set (rows := filter (fun m => (ApprovalStatus_eqb (m_approvalStatus m) APPROVED
                                 && match m_lastChapterAt m with
                                    | Some _ => true
                                    | None => false
                                    end)%bool) (mangas s)).
  assert (Hrows : forall m, In m rows ->
            In m (mangas s) /\ m_approvalStatus m = APPROVED
            /\ m_lastChapterAt m <> None).
  { intros m Hm. apply filter_In in Hm. destruct Hm as [Hin Hp].
    apply andb_true_iff in Hp. destruct Hp as [H1 H2].
    apply ApprovalStatus_eqb_eq in H1.
    destruct (m_lastChapterAt m); [|discriminate].
    repeat split; [assumption | assumption | discriminate]. }
  split; [|split].
  - rewrite length_map. apply firstn_le_length.
  - apply (StronglySorted_map (fun a b => lastChapterAt_desc a b = true)).
    + intros a b Ha Hb Hab. unfold updatedNoEarlier. simpl.
      apply firstn_In_inv, sortRows_In in Ha, Hb.
      destruct (Hrows a Ha) as (_ & _ & Ha3).
      destruct (Hrows b Hb) as (_ & _ & Hb3).
      unfold lastChapterAt_desc in Hab.
      destruct (m_lastChapterAt a); [|contradiction].
      destruct (m_lastChapterAt b); [|contradiction].
      apply Z.leb_le, Hab.
    + apply StronglySorted_firstn, sortRows_recent_sorted.
      intros m Hm. apply (Hrows m Hm).
  - intros r Hr. apply in_map_iff in Hr. destruct Hr as (m & <- & Hm).
    apply firstn_In_inv, sortRows_In in Hm.
    destruct (Hrows m Hm) as (H1 & H2 & H3). simpl.
    fold (chaptersOf (m_id m) s).
    split; [exact H1|]. split; [exact H2|]. split; [exact H3|]. split.
    + pose proof (sortRows_perm (byZ c_publishedAt Desc) (chaptersOf (m_id m) s))
        as Hp.
      destruct (sortRows (byZ c_publishedAt Desc) (chaptersOf (m_id m) s))
        as [|c t] eqn:Es; simpl.
      * apply Permutation_nil in Hp. split; auto.
      * split; [discriminate|]. intros Hnil. rewrite Hnil in Hp.
        apply Permutation_sym, Permutation_nil in Hp. discriminate.
    + intros c Hc. split; [eapply sortRows_head_In; exact Hc|].
      intros c' Hc'.
      pose proof (sortRows_head_first (byZ c_publishedAt Desc)
                    (chaptersOf (m_id m) s) c
                    (byZ_total c_publishedAt Desc)
                    (byZ_trans c_publishedAt Desc) Hc c' Hc') as Hle.
      apply Z.leb_le, Hle.
Qed.

Lemma sortRows_head_strict {A} (before : A -> A -> bool) (x : A) (l : list A) :
  In x l ->
  (forall y, In y l -> before x y = true) ->
  (forall y, In y l -> y = x \/ before y x = false) ->
  exists rest, sortRows before l = x :: rest.
Proof.
  induction l as [|a r IH]; intros Hin Hfirst Hstrict; [destruct Hin|].
  simpl.
  assert (Hhead : forall y t, sortRows before r = y :: t -> before x y = true).
  { intros y t Hs. apply Hfirst. right. apply (sortRows_In before r y).
    rewrite Hs. left. reflexivity. }
  destruct (Hstrict a (or_introl eq_refl)) as [->|Ha].
  - destruct (sortRows before r) as [|y t] eqn:Es; simpl.
    + exists []. reflexivity.
    + rewrite (Hhead y t eq_refl). eexists. reflexivity.
  - destruct Hin as [->|Hin].
    { rewrite (Hfirst x (or_introl eq_refl)) in Ha. discriminate. }
    destruct IH as (rest & Hrest); [exact Hin | | |].
    { intros y Hy. apply Hfirst. right. exact Hy. }
    { intros y Hy. apply Hstrict. right. exact Hy. }
    rewrite Hrest. simpl. rewrite Ha. eexists. reflexivity.
Qed.

Lemma manga_findUnique_unique (s : Store) (m : Manga) :
  mangaIds_unique s -> In m (mangas s) -> manga_findUnique (m_id m) s = Some m.
Proof.
  intros Hu Hin. unfold manga_findUnique.
  destruct (find _ (mangas s)) as [x|] eqn:Hf.
  - apply find_some in Hf. destruct Hf as [Hx Hid]. apply String.eqb_eq in Hid.
    f_equal. apply (NoDup_map_inj m_id (mangas s)); assumption.
  - pose proof (find_none _ _ Hf m Hin) as Hn. simpl in Hn.
    rewrite String.eqb_refl in Hn. discriminate.
Qed.

(** X23. A title that has just received a chapter heads the recently
    updated list.  With unique title ids, after createChapter has completed
    on an APPROVED title at an instant later than the last chapter of every
    other title, getRecentManga with a limit of at least one lists that
    title first, with the new instant as its lastChapterAt and a
    latestChapter. *)
Theorem createChapter_then_getRecentManga_first :
  forall (X : Collaborators) (mangaId : Id) (chapterData : ChapterData)
         (files : option (list File)) (userId : Id) (userRole : Role)
         (newId : Id) (now1 now2 : Date) (s s' : Store) (c : Chapter)
         (limit : nat),
    mangaIds_unique s ->
    option_map m_approvalStatus (manga_findUnique mangaId s) = Some APPROVED ->
    (forall m t, In m (mangas s) -> m_id m <> mangaId ->
                 m_lastChapterAt m = Some t -> t < now2) ->
    (1 <= limit)%nat ->
    createChapter mangaId chapterData files userId userRole newId now1 now2 s
    = (Ok c, s') ->
    exists first rest,
      getRecentManga limit s' = first :: rest
      /\ m_id (fm_manga (rm_manga first)) = mangaId
      /\ m_lastChapterAt (fm_manga (rm_manga first)) = Some now2
      /\ rm_latestChapter first <> None.
Proof.
  intros X mangaId chapterData files userId userRole newId now1 now2 s s' c limit
         Hu Happ Hold Hl Hrun.
  destruct (createChapter_created _ _ _ _ _ _ _ _ _ _ _ Hrun)
    as (manga & Hm & Hs & Hid & Hmid & Hst & Hpub & Hslug & Hfresh & Hsfresh).
  rewrite Hm in Happ. simpl in Happ. injection Happ as Happ.
  pose proof Hm as Hm0. unfold manga_findUnique in Hm0. apply find_some in Hm0.
  destruct Hm0 as [Hin0 Hid0]. apply String.eqb_eq in Hid0.
  set (upd_ := fun m => if String.eqb (m_id m) mangaId
                        then set_counters m (m_totalChapters m + 1)
                                          (m_totalViews m) (Some now2)
                        else m).
  set (x := set_counters manga (m_totalChapters manga + 1) (m_totalViews manga)
                         (Some now2)).
  set (recent := fun m => (ApprovalStatus_eqb (m_approvalStatus m) APPROVED
                           && match m_lastChapterAt m with
                              | Some _ => true
                              | None => false
                              end)%bool).
  assert (Hmangas : mangas s' = map upd_ (mangas s)) by (rewrite Hs; reflexivity).
  assert (Hx : In x (filter recent (mangas s'))).
  { apply filter_In. split.
    - rewrite Hmangas. apply in_map_iff. exists manga. split; [|exact Hin0].
      unfold upd_. rewrite Hid0, String.eqb_refl. reflexivity.
    - unfold recent, x. simpl. rewrite Happ. reflexivity. }
  assert (Hothers : forall y, In y (filter recent (mangas s')) ->
            y = x \/ exists t, m_lastChapterAt y = Some t /\ t < now2).
  { intros y Hy. apply filter_In in Hy. destruct Hy as [Hy Hrec].
    rewrite Hmangas in Hy. apply in_map_iff in Hy. destruct Hy as (z & Hz & Hzin).
    unfold upd_ in Hz. destruct (String.eqb (m_id z) mangaId) eqn:Ez.
    - left. apply String.eqb_eq in Ez.
      assert (z = manga).
      { apply (NoDup_map_inj m_id (mangas s)); try assumption. congruence. }
      subst z. symmetry. exact Hz.
    - right. subst y. apply String.eqb_neq in Ez.
      unfold recent in Hrec. apply andb_true_iff in Hrec. destruct Hrec as [_ Hrec].
      destruct (m_lastChapterAt z) as [t|] eqn:Et; [|discriminate].
      exists t. split; [reflexivity|]. apply (Hold z t Hzin Ez Et). }
  destruct (sortRows_head_strict lastChapterAt_desc x (filter recent (mangas s')) Hx)
    as (rest & Hrest).
  { intros y Hy. unfold lastChapterAt_desc. simpl.
    destruct (Hothers y Hy) as [->|(t & Ht & Hlt)]; simpl.
    - apply Z.leb_refl.
    - rewrite Ht. apply Z.leb_le. lia. }
  { intros y Hy. destruct (Hothers y Hy) as [->|(t & Ht & Hlt)]; [left; reflexivity|].
    right. unfold lastChapterAt_desc. rewrite Ht. simpl. apply Z.leb_gt. exact Hlt. }
  unfold getRecentManga. fold recent. rewrite Hrest.
  destruct limit as [|k]; [lia|]. simpl firstn. simpl map.
  eexists. eexists. split; [reflexivity|]. simpl.
  split; [exact Hid0|]. split; [reflexivity|].
  assert (Hc : In c (filter (fun c0 => String.eqb (c_mangaId c0) (m_id manga))
                            (chapters s'))).
  { apply filter_In. split.
    - rewrite Hs. simpl. apply in_or_app. right. left. reflexivity.
    - rewrite Hmid, Hid0. apply String.eqb_refl. }
  apply (sortRows_In (byZ c_publishedAt Desc)) in Hc.
  destruct (sortRows (byZ c_publishedAt Desc) _) as [|c0 t];
    [destruct Hc | discriminate].
Qed.

Lemma createChapter_then_getRecentManga_first_witness :
  mangaIds_unique storeA
  /\ option_map m_approvalStatus (manga_findUnique "m1" storeA) = Some APPROVED
  /\ (1 <= 3)%nat
  /\ exists first rest,
       getRecentManga 3
         (snd (createChapter (X := exampleCollaborators) "m1"
                 (mkChapterData "2" None (ImagesArray ["p1.png"])) None "alice"
                 UPLOADER "c2" 2000 2001 storeA))
       = first :: rest
       /\ m_id (fm_manga (rm_manga first)) = "m1"
       /\ m_lastChapterAt (fm_manga (rm_manga first)) = Some 2001.
Proof.
  assert (Hu : mangaIds_unique storeA).
  { unfold mangaIds_unique. simpl. repeat constructor. simpl. intuition. }
  split; [exact Hu|]. split; [reflexivity|]. split; [lia|].
  destruct (createChapter (X := exampleCollaborators) "m1"
              (mkChapterData "2" None (ImagesArray ["p1.png"])) None "alice"
              UPLOADER "c2" 2000 2001 storeA) as [[c|e] s'] eqn:E.
  - destruct (createChapter_then_getRecentManga_first exampleCollaborators
                "m1" (mkChapterData "2" None (ImagesArray ["p1.png"])) None "alice"
                UPLOADER "c2" 2000 2001 storeA s' c 3%nat Hu eq_refl)
      as (first & rest & H1 & H2 & H3 & _).
    + intros m t [<-|[]] Hne. exfalso. apply Hne. reflexivity.
    + lia.
    + exact E.
    + exists first, rest. cbn [snd]. repeat split; assumption.
  - vm_compute in E. discriminate.
Defined.

(** ** The guarded routes *)






(** ** Names in a creation request (parseToArray) *)

Lemma ltrim_noLeadingSpace (s : string) : noLeadingSpace (ltrim s).
Proof.
  induction s as [|c r IH]; simpl; [exact I|].
  destruct (is_space c) eqn:E; [exact IH | exact E].
Qed.

Lemma ltrim_fixed (s : string) : noLeadingSpace s -> ltrim s = s.
Proof.
  destruct s as [|c r]; simpl; [reflexivity|]. intros H. rewrite H. reflexivity.
Qed.

Lemma ltrim_suffix (s : string) : exists p, s = (p ++ ltrim s)%string.
Proof.
  induction s as [|c r IH]; simpl.
  - exists "". reflexivity.
  - destruct (is_space c).
    + destruct IH as (p & Hp). exists (String c p). simpl. rewrite <- Hp.
      reflexivity.
    + exists "". reflexivity.
Qed.

Lemma append_assoc (a b c : string) :
  ((a ++ b) ++ c)%string = (a ++ (b ++ c))%string.
Proof. induction a as [|x a IH]; simpl; [reflexivity|]. rewrite IH. reflexivity. Qed.

Lemma append_empty_r (a : string) : (a ++ "")%string = a.
Proof. induction a as [|x a IH]; simpl; [reflexivity|]. rewrite IH. reflexivity. Qed.

Lemma rev_string_acc (acc s : string) :
  rev_string acc s = (rev_string "" s ++ acc)%string.
Proof.
  revert acc. induction s as [|c r IH]; intros acc; simpl; [reflexivity|].
  rewrite (IH (String c acc)), (IH (String c "")), append_assoc. reflexivity.
Qed.

Lemma rev_string_append (acc p q : string) :
  rev_string acc (p ++ q)%string = rev_string (rev_string acc p) q.
Proof.
  revert acc. induction p as [|c r IH]; intros acc; simpl; [reflexivity|].
  apply IH.
Qed.

Lemma rev_string_involutive (s : string) :
  rev_string "" (rev_string "" s) = s.
Proof.
  induction s as [|c r IH]; simpl; [reflexivity|].
  rewrite (rev_string_acc (String c "")), rev_string_append. simpl.
  rewrite IH. reflexivity.
Qed.

Lemma trim_trimmed (s : string) :
  noLeadingSpace (trim s) /\ noLeadingSpace (rev_string "" (trim s)).
Proof.
  unfold trim. set (a := ltrim s). set (b := rev_string "" a).
  split.
  - destruct (ltrim_suffix b) as (p & Hp).
    assert (Ha : a = (rev_string "" (ltrim b) ++ rev_string "" p)%string).
    { rewrite <- (rev_string_involutive a). fold b. rewrite Hp at 1.
      rewrite rev_string_append. apply rev_string_acc. }
    pose proof (ltrim_noLeadingSpace s) as Hlead. fold a in Hlead.
    rewrite Ha in Hlead.
    destruct (rev_string "" (ltrim b)); [exact I | exact Hlead].
  - rewrite rev_string_involutive. apply ltrim_noLeadingSpace.
Qed.

Lemma trim_fixed (x : string) :
  noLeadingSpace x -> noLeadingSpace (rev_string "" x) -> trim x = x.
Proof.
  intros H1 H2. unfold trim. rewrite (ltrim_fixed x H1), (ltrim_fixed _ H2).
  apply rev_string_involutive.
Qed.

(** X25. The names the controller reads from a comma-separated field are
    clean.  For a text that does not open a JSON array, every name
    parseToArray returns is non-empty and carries no white space at either
    end (trimming it again changes nothing), so empty pieces between commas
    are dropped; an absent or empty field gives no name, and an array is
    passed on as it is. *)
Theorem parseToArray_names_trimmed :
  forall X : Collaborators,
  (forall text,
     String.prefix "[" (trim text) = false ->
     exists names,
       parseToArray (ArrText text) = Some names
       /\ forall x, In x names ->
                    x <> "" /\ trim x = x
                    /\ noLeadingSpace x /\ noLeadingSpace (rev_string "" x))
  /\ parseToArray ArrUndefined = Some []
  /\ parseToArray (ArrText "") = Some []
  /\ forall l, parseToArray (ArrArray l) = Some l.
Proof.
  intros X. split; [|repeat split].
  intros text Hp.
  destruct text as [|c t]; [exists []; split; [reflexivity | intros x []]|].
  unfold parseToArray. rewrite Hp. eexists. split; [reflexivity|].
  intros x Hin.
  apply filter_In in Hin. destruct Hin as [Hin Hne].
  apply in_map_iff in Hin. destruct Hin as (y & <- & _).
  destruct (trim_trimmed y) as [H1 H2].
  split; [|split; [apply trim_fixed; assumption | split; assumption]].
  intros He. rewrite He in Hne. discriminate.
Qed.

Lemma parseToArray_names_trimmed_witness :
  String.prefix "[" (trim " Oda , ,Toriyama  ") = false
  /\ parseToArray (X := exampleCollaborators) (ArrText " Oda , ,Toriyama  ")
     = Some ["Oda"; "Toriyama"]
  /\ forall x, In x ["Oda"; "Toriyama"] -> trim x = x.
Proof.
  split; [reflexivity|]. split; [reflexivity|].
  intros x Hin.
  destruct (proj1 (parseToArray_names_trimmed exampleCollaborators)
                  " Oda , ,Toriyama  " eq_refl) as (names & Hnames & Hclean).
  assert (E : names = ["Oda"; "Toriyama"]).
  { assert (Hrun : parseToArray (X := exampleCollaborators)
                                (ArrText " Oda , ,Toriyama  ")
                   = Some ["Oda"; "Toriyama"]) by reflexivity.
    rewrite Hrun in Hnames. inversion Hnames. reflexivity. }
  rewrite E in Hclean. exact (proj1 (proj2 (Hclean x Hin))).
Defined.

(** ** Uploads *)

Lemma rethrow_400 (message : string) :
  nonEmpty message = true ->
  UploadService.rethrow message (Some 400) = AppError message 400.
Proof. unfold UploadService.rethrow. intros ->. reflexivity. Qed.

Lemma firstOffence_400 (files : list UploadService.UploadFile) (e : Error) :
  UploadService.firstOffence files = Some e -> exists msg, e = AppError msg 400.
Proof.
  induction files as [|f r IH]; cbn [UploadService.firstOffence];
    [discriminate|].
  destruct (negb _); [intros [= <-]; eexists; reflexivity|].
  destruct (_ <? _); [intros [= <-]; eexists; reflexivity|].
  exact IH.
Qed.

Lemma filePaths_400 (files : list UploadService.UploadFile) (e : Error) :
  UploadService.filePaths files = Err e -> exists msg, e = AppError msg 400.
Proof.
  induction files as [|f r IH]; cbn [UploadService.filePaths]; [discriminate|].
  destruct (UploadService.fileData f); [|intros [= <-]; eexists; reflexivity].
  destruct (UploadService.filePaths r); [discriminate|].
  intros [= <-]. apply IH. reflexivity.
Qed.

Lemma valid_uploads_pass (files : list UploadService.UploadFile) :
  forallb validUpload files = true ->
  UploadService.firstOffence files = None
  /\ exists paths, UploadService.filePaths files = Ok paths
                   /\ List.length paths = List.length files.
Proof.
  induction files as [|f r IH];
    cbn [forallb UploadService.firstOffence UploadService.filePaths]; intros H.
  - split; [reflexivity|]. exists []. split; reflexivity.
  - apply andb_true_iff in H. destruct H as [Hf Hr].
    destruct (IH Hr) as (H1 & paths & H2 & H3).
    unfold validUpload in Hf.
    apply andb_true_iff in Hf. destruct Hf as [Hf Hd].
    apply andb_true_iff in Hf. destruct Hf as [Ht Hs].
    rewrite Ht. cbn [negb]. apply Z.leb_le in Hs.
    destruct (UploadService.maxSize <? UploadService.size f) eqn:E;
      [apply Z.ltb_lt in E; lia|].
    split; [exact H1|].
    destruct (UploadService.fileData f); [|discriminate].
    rewrite H2. eexists. split; [reflexivity|].
    cbn [List.length]. rewrite H3. reflexivity.
Qed.

Lemma invalid_upload_refused (files : list UploadService.UploadFile) :
  forallb validUpload files = false ->
  (exists e, UploadService.firstOffence files = Some e)
  \/ (UploadService.firstOffence files = None
      /\ exists e, UploadService.filePaths files = Err e).
Proof.
  induction files as [|f r IH];
    cbn [forallb UploadService.firstOffence UploadService.filePaths];
    [discriminate|].
  intros H.
  destruct (negb _) eqn:Et; [left; eauto|].
  destruct (_ <? _) eqn:Es; [left; eauto|].
  apply negb_false_iff in Et. apply Z.ltb_ge in Es.
  unfold validUpload in H. rewrite Et in H.
  replace (UploadService.size f <=? UploadService.maxSize) with true in H
    by (symmetry; apply Z.leb_le; exact Es).
  cbn [andb] in H.
  destruct (UploadService.fileData f) as [data|].
  - cbn [andb] in H. destruct (IH H) as [He|(Hn & e & He)]; [left; exact He|].
    right. split; [exact Hn|]. rewrite He. eauto.
  - destruct (UploadService.firstOffence r) as [e|]; [left; eauto|].
    right. split; [reflexivity|]. eauto.
Qed.

(** X26. UploadMultiple checks every file before it sends any.  With no
    file it fails with 400 'No files provided'.  If one of the files has a
    type that is not allowed, is larger than 10 MB or carries no data, the
    call fails with a 400 AppError that is the same whatever Cloudinary
    would have answered: nothing is asked of it.  If all files are valid the
    answer is Cloudinary's: its URLs, or its failure as a 500 AppError.  So
    every failure of uploadMultiple is an AppError of status 400 or 500. *)
Theorem uploadMultiple_validates_before_upload :
  forall (cloud : list string -> string -> list string + string)
         (files : list UploadService.UploadFile) (folder : option string),
    UploadService.uploadMultiple cloud None folder
    = Err (AppError "No files provided" 400)
    /\ UploadService.uploadMultiple cloud (Some []) folder
       = Err (AppError "No files provided" 400)
    /\ (forallb validUpload files = false ->
        exists msg, forall cloud',
          UploadService.uploadMultiple cloud' (Some files) folder
          = Err (AppError msg 400))
    /\ (files <> [] -> forallb validUpload files = true ->
        exists paths,
          UploadService.filePaths files = Ok paths
          /\ List.length paths = List.length files
          /\ UploadService.uploadMultiple cloud (Some files) folder
             = match cloud paths (match folder with Some f => f | None => "manga" end) with
               | inl urls => Ok urls
               | inr message =>
                   Err (AppError (if nonEmpty message then message
                                  else "Upload failed") 500)
               end)
    /\ (forall e, UploadService.uploadMultiple cloud (Some files) folder = Err e ->
                  exists msg, e = AppError msg 400 \/ e = AppError msg 500).
Proof.
  intros cloud files folder.
  split; [reflexivity|]. split; [reflexivity|]. split; [|split].
  - intros Hbad.
    destruct files as [|f r]; [discriminate|].
    destruct (invalid_upload_refused _ Hbad) as [(e & He)|(Hn & e & He)].
    + destruct (firstOffence_400 _ _ He) as (msg & ->).
      exists msg. intros cloud'. unfold UploadService.uploadMultiple.
      rewrite He. reflexivity.
    + destruct (filePaths_400 _ _ He) as (msg & ->).
      exists msg. intros cloud'. unfold UploadService.uploadMultiple.
      rewrite Hn, He. reflexivity.
  - intros Hne Hok. destruct files as [|f r]; [contradiction|].
    destruct (valid_uploads_pass _ Hok) as (H1 & paths & H2 & H3).
    exists paths. split; [exact H2|]. split; [exact H3|].
    unfold UploadService.uploadMultiple. rewrite H1, H2.
    destruct (cloud paths _); reflexivity.
  - intros e. destruct files as [|f r].
    + intros [= <-]. exists "No files provided". left. reflexivity.
    + unfold UploadService.uploadMultiple.
      destruct (UploadService.firstOffence (f :: r)) as [e0|] eqn:E1.
      { intros [= <-]. destruct (firstOffence_400 _ _ E1) as (msg & ->).
        exists msg. left. reflexivity. }
      destruct (UploadService.filePaths (f :: r)) as [paths|e0] eqn:E2.
      2:{ intros [= <-]. destruct (filePaths_400 _ _ E2) as (msg & ->).
          exists msg. left. reflexivity. }
      destruct (cloud paths _) as [urls|message]; [discriminate|].
      intros [= <-]. eexists. right. reflexivity.
Qed.

Lemma uploadMultiple_validates_before_upload_witness :
  forallb validUpload
    [examplePage "p1.png";
     UploadService.mkUploadFile "notes.txt" "text/plain" 10 None (Some "AAAA")]
  = false
  /\ exists msg, forall cloud',
       UploadService.uploadMultiple cloud'
         (Some [examplePage "p1.png";
                UploadService.mkUploadFile "notes.txt" "text/plain" 10 None
                                           (Some "AAAA")])
         None
       = Err (AppError msg 400).
Proof.
  split; [reflexivity|].
  apply (uploadMultiple_validates_before_upload
           (fun _ _ => inr "")
           [examplePage "p1.png";
            UploadService.mkUploadFile "notes.txt" "text/plain" 10 None (Some "AAAA")]
           None).
  reflexivity.
Defined.

(** ** The public id inside a Cloudinary URL *)

Lemma splitBy_piece (sep : ascii) (p : string) :
  noChar sep p = true -> UploadService.splitBy sep p = [p].
Proof.
  induction p as [|c r IH]; simpl; [reflexivity|]. intros H.
  apply andb_true_iff in H. destruct H as [Hc Hr].
  apply negb_true_iff in Hc. rewrite Hc, (IH Hr). reflexivity.
Qed.

Lemma splitBy_first (sep : ascii) (p rest : string) :
  noChar sep p = true ->
  UploadService.splitBy sep (p ++ String sep rest)
  = p :: UploadService.splitBy sep rest.
Proof.
  induction p as [|c r IH]; simpl; intros H.
  - rewrite Ascii.eqb_refl. reflexivity.
  - apply andb_true_iff in H. destruct H as [Hc Hr].
    apply negb_true_iff in Hc. rewrite Hc, (IH Hr). reflexivity.
Qed.

(** Splitting what was joined gives the pieces back. *)
Lemma splitBy_concat (sep : ascii) (pieces : list string) :
  pieces <> [] ->
  forallb (noChar sep) pieces = true ->
  UploadService.splitBy sep (String.concat (String sep "") pieces) = pieces.
Proof.
  induction pieces as [|p r IH]; intros Hne Hall; [contradiction|].
  simpl in Hall. apply andb_true_iff in Hall. destruct Hall as [Hp Hr].
  destruct r as [|q r'].
  - simpl. apply splitBy_piece, Hp.
  - change (String.concat (String sep "") (p :: q :: r'))
      with (p ++ String sep (String.concat (String sep "") (q :: r')))%string.
    rewrite (splitBy_first sep p _ Hp), IH; [reflexivity | discriminate | exact Hr].
Qed.

Lemma indexOf_first (x : string) (pre rest : list string) :
  ~ In x pre ->
  UploadService.indexOf x (pre ++ x :: rest) = Some (List.length pre).
Proof.
  induction pre as [|y r IH]; simpl; intros Hn.
  - rewrite String.eqb_refl. reflexivity.
  - destruct (String.eqb y x) eqn:E.
    + apply String.eqb_eq in E. exfalso. apply Hn. left. exact E.
    + rewrite IH; [reflexivity|]. intros H. apply Hn. right. exact H.
Qed.

Lemma skipn_past {A} (pre : list A) (a b : A) (rest : list A) :
  skipn (List.length pre + 2) (pre ++ a :: b :: rest) = rest.
Proof. induction pre as [|y r IH]; simpl; [reflexivity | exact IH]. Qed.

Lemma lastIndexOf_none (c : ascii) (s : string) :
  noChar c s = true -> UploadService.lastIndexOf c s = None.
Proof.
  induction s as [|a r IH]; simpl; [reflexivity|]. intros H.
  apply andb_true_iff in H. destruct H as [Ha Hr].
  apply negb_true_iff in Ha. rewrite (IH Hr), Ha. reflexivity.
Qed.

Lemma lastIndexOf_last (c : ascii) (x ext : string) :
  noChar c ext = true ->
  UploadService.lastIndexOf c (x ++ String c ext) = Some (String.length x).
Proof.
  intros H. induction x as [|a r IH]; simpl.
  - rewrite (lastIndexOf_none c ext H), Ascii.eqb_refl. reflexivity.
  - rewrite IH. reflexivity.
Qed.

Lemma substring_prefix (x y : string) :
  substring 0 (String.length x) (x ++ y) = x.
Proof.
  induction x as [|a r IH]; simpl.
  - destruct y; reflexivity.
  - rewrite IH. reflexivity.
Qed.

Lemma concat_last (sep : string) (front : list string) (name tail : string) :
  String.concat sep (front ++ [(name ++ tail)%string])
  = (String.concat sep (front ++ [name]) ++ tail)%string.
Proof.
  induction front as [|p r IH]; [reflexivity|].
  destruct r as [|q r'].
  - simpl. rewrite !append_assoc. reflexivity.
  - change (String.concat sep ((p :: q :: r') ++ [(name ++ tail)%string]))
      with (p ++ sep ++ String.concat sep ((q :: r') ++ [(name ++ tail)%string]))%string.
    rewrite IH.
    change (String.concat sep ((p :: q :: r') ++ [name]))
      with (p ++ sep ++ String.concat sep ((q :: r') ++ [name]))%string.
    rewrite !append_assoc. reflexivity.
Qed.

Lemma noChar_append (c : ascii) (a b : string) :
  noChar c (a ++ b) = (noChar c a && noChar c b)%bool.
Proof.
  induction a as [|x r IH]; simpl; [reflexivity|].
  rewrite IH, andb_assoc. reflexivity.
Qed.

(** X27. ExtractPublicId reads back the public id an upload URL was built
    from.  For a URL whose pieces between slashes are: any pieces none of
    which is 'upload', then 'upload', a version, the folders and the file
    name of the public id, and an extension after the last dot, it answers
    the public id (folders and name joined by slashes, without the
    extension); for a URL with no 'upload' piece it answers null. *)
Theorem extractPublicId_round_trip :
  forall (pre : list string) (version : string) (folders : list string)
         (name ext : string),
    forallb (noChar "/") (pre ++ version :: folders ++ [name]) = true ->
    noChar "/" ext = true -> noChar "." ext = true ->
    ~ In "upload" pre ->
    UploadService.extractPublicId
      (String.concat "/"
         (pre ++ "upload" :: version :: folders ++ [(name ++ "." ++ ext)%string]))
    = Some (String.concat "/" (folders ++ [name])).
Proof.
  intros pre version folders name ext Hparts Hext Hdot Hpre.
  unfold UploadService.extractPublicId.
  rewrite forallb_app in Hparts. apply andb_true_iff in Hparts.
  destruct Hparts as [Hp Hrest]. simpl in Hrest.
  apply andb_true_iff in Hrest. destruct Hrest as [Hv Hf].
  rewrite forallb_app in Hf. apply andb_true_iff in Hf.
  destruct Hf as [Hfo Hn]. simpl in Hn. rewrite andb_true_r in Hn.
  rewrite splitBy_concat.
  - rewrite (indexOf_first "upload" pre _ Hpre), skipn_past.
    rewrite (concat_last "/" folders name ("." ++ ext)).
    change ("." ++ ext)%string with (String "."%char ext).
    rewrite (lastIndexOf_last "."%char _ ext Hdot), substring_prefix.
    reflexivity.
  - destruct pre; discriminate.
  - rewrite forallb_app. rewrite Hp. simpl. rewrite Hv.
    rewrite forallb_app, Hfo. simpl.
    rewrite noChar_append, Hn. simpl. rewrite Hext. reflexivity.
Qed.

Lemma extractPublicId_round_trip_witness :
  forallb (noChar "/")
    (["https:"; ""; "res.cloudinary.com"; "demo"; "image"]
     ++ "v123" :: ["manga"; "covers"] ++ ["naruto"]) = true
  /\ UploadService.extractPublicId
       "https://res.cloudinary.com/demo/image/upload/v123/manga/covers/naruto.jpg"
     = Some "manga/covers/naruto".
Proof.
  split; [reflexivity|].
  apply (extractPublicId_round_trip
           ["https:"; ""; "res.cloudinary.com"; "demo"; "image"] "v123"
           ["manga"; "covers"] "naruto" "jpg" eq_refl eq_refl eq_refl).
  simpl. intuition discriminate.
Defined.

(** Without an 'upload' piece there is no public id; without a dot after
    it the answer is the empty text. *)
Example extractPublicId_edges :
  UploadService.extractPublicId "https://example.com/img/naruto.jpg" = None
  /\ UploadService.extractPublicId "https://x/upload/v1/manga/naruto" = Some "".
Proof. split; reflexivity. Qed.

(** ** incrementChapterViews *)

(** X28. IncrementChapterViews is not all or nothing.  When no chapter has
    the id it fails with P2025 and writes nothing.  When the chapter exists
    but no title has the mangaId passed, it fails with P2025 after the
    chapter's view has been counted: the chapter's totalViews is one higher
    and no title's is.  When both exist (the id of the view row being
    unused) it completes, both counters are one higher, and a
    ChapterView row is appended exactly when a user id is passed. *)
Theorem incrementChapterViews_outcome :
  forall (chapterId mangaId : Id) (userId : option Id) (newId : Id) (s : Store),
    let r := incrementChapterViews chapterId mangaId userId newId s in
    (chapter_findUnique chapterId s = None ->
     r = (Err (PrismaError "P2025"), s))
    /\ (forall c, chapter_findUnique chapterId s = Some c ->
          manga_findUnique mangaId s = None ->
          fst r = Err (PrismaError "P2025")
          /\ chapterViewsOf chapterId (snd r) = Some (c_totalViews c + 1)
          /\ mangas (snd r) = mangas s
          /\ chapterViews (snd r) = chapterViews s)
    /\ (forall c m, chapter_findUnique chapterId s = Some c ->
          manga_findUnique mangaId s = Some m ->
          existsb (fun v => String.eqb (v_id v) newId) (chapterViews s) = false ->
          fst r = Ok tt
          /\ chapterViewsOf chapterId (snd r) = Some (c_totalViews c + 1)
          /\ titleViewsOf mangaId (snd r) = Some (m_totalViews m + 1)
          /\ chapterViews (snd r)
             = (chapterViews s
                ++ match userId with
                   | Some u => [mkChapterView newId chapterId u]
                   | None => []
                   end)%list).
Proof.
  intros chapterId mangaId userId newId s. cbv zeta.
  unfold incrementChapterViews, bind.
  assert (Hviews : forall c, chapter_findUnique chapterId s = Some c ->
    forall s1, chapters s1
               = map (fun x => if String.eqb (c_id x) chapterId
                               then set_c_totalViews x (c_totalViews x + 1)
                               else x) (chapters s) ->
    chapterViewsOf chapterId s1 = Some (c_totalViews c + 1)).
  { intros c Hc s1 Hs1. unfold chapterViewsOf, chapter_findUnique. rewrite Hs1.
    rewrite (find_map_update (fun x => String.eqb (c_id x) chapterId)
               (fun x => set_c_totalViews x (c_totalViews x + 1))).
    - fold (chapter_findUnique chapterId s). rewrite Hc. reflexivity.
    - intros x Hx. exact Hx. }
  split; [|split].
  - intros Hc. unfold chapter_update. rewrite Hc. reflexivity.
  - intros c Hc Hm. unfold chapter_update. rewrite Hc.
    unfold manga_update.
    change (manga_findUnique mangaId (set_chapters s ?l))
      with (manga_findUnique mangaId s).
    rewrite Hm. simpl. repeat split.
    apply (Hviews c Hc). reflexivity.
  - intros c m Hc Hm Hnew. unfold chapter_update. rewrite Hc.
    unfold manga_update.
    change (manga_findUnique mangaId (set_chapters s ?l))
      with (manga_findUnique mangaId s).
    rewrite Hm.
    assert (Ht : forall s2,
      mangas s2 = map (fun x => if String.eqb (m_id x) mangaId
                                then set_counters x (m_totalChapters x)
                                                  (m_totalViews x + 1)
                                                  (m_lastChapterAt x)
                                else x) (mangas s) ->
      titleViewsOf mangaId s2 = Some (m_totalViews m + 1)).
    { intros s2 Hs2. unfold titleViewsOf, manga_findUnique in *. rewrite Hs2.
      rewrite (find_map_update (fun x => String.eqb (m_id x) mangaId)
                 (fun x => set_counters x (m_totalChapters x) (m_totalViews x + 1)
                                        (m_lastChapterAt x))).
      - rewrite Hm. reflexivity.
      - intros x Hx. exact Hx. }
    destruct userId as [u|].
    + unfold chapterView_create. simpl. rewrite Hnew. simpl.
      split; [reflexivity|]. split; [apply (Hviews c Hc); reflexivity|].
      split; [apply Ht; reflexivity | reflexivity].
    + simpl. split; [reflexivity|]. split; [apply (Hviews c Hc); reflexivity|].
      split; [apply Ht; reflexivity | rewrite app_nil_r; reflexivity].
Qed.

Lemma incrementChapterViews_outcome_witness :
  chapter_findUnique "c1" storeA
  = Some (exampleChapter "c1" "m1" (1 # 1) "one-piece-ch-1")
  /\ manga_findUnique "m9" storeA = None
  /\ fst (incrementChapterViews "c1" "m9" None "v1" storeA)
     = Err (PrismaError "P2025")
  /\ chapterViewsOf "c1" (snd (incrementChapterViews "c1" "m9" None "v1" storeA))
     = Some 1.
Proof.
  split; [reflexivity|]. split; [reflexivity|].
  destruct (proj1 (proj2 (incrementChapterViews_outcome "c1" "m9" None "v1" storeA))
              (exampleChapter "c1" "m1" (1 # 1) "one-piece-ch-1")
              eq_refl eq_refl) as (H1 & H2 & _).
  split; [exact H1 | exact H2].
Defined.

(** ** Catalog edits and the chapter counter *)







(** X30. UpdateManga stores the columns the caller names, unfiltered.  For
    a caller the ownership check lets through, on an existing title (slugs
    being unique) and with data that names no slug, updateManga completes
    and the stored title is the old one with every named column replaced:
    its totalChapters is the value the data names, whatever the number of its
    chapters, and its approvalStatus the one the data names, whatever the
    caller's role. *)
Theorem updateManga_writes_named_columns :
  forall (mangaId : Id) (manga : Manga) (updateData : MangaPatch)
         (userId : Id) (userRole : Role) (s : Store),
    mangaSlugs_unique s ->
    manga_findUnique mangaId s = Some manga ->
    mayMutate userId userRole (m_uploaderId manga) ->
    mp_slug updateData = None ->
    let r := updateManga mangaId updateData userId userRole s in
    fst r = Ok (patch_manga updateData manga)
    /\ manga_findUnique mangaId (snd r) = Some (patch_manga updateData manga)
    /\ (forall k, mp_totalChapters updateData = Some k ->
                  totalChaptersOf mangaId (snd r) = Some k)
    /\ (forall a, mp_approvalStatus updateData = Some a ->
                  option_map m_approvalStatus (manga_findUnique mangaId (snd r))
                  = Some a)
    /\ chapters (snd r) = chapters s.
Proof.
  intros mangaId manga p userId userRole s Hsl Hm Hmay Hslug. cbv zeta.
  destruct (guard_updateManga s mangaId manga p userId userRole Hm) as [Hyes _].
  rewrite (Hyes Hmay). clear Hyes.
  pose proof Hm as Hm0. unfold manga_findUnique in Hm0. apply find_some in Hm0.
  destruct Hm0 as [Hin0 Hid0]. apply String.eqb_eq in Hid0.
  assert (Hrun : manga_update_data mangaId p s
                 = (Ok (patch_manga p manga),
                    set_mangas s
                      (map (fun x => if String.eqb (m_id x) mangaId
                                     then patch_manga p x else x) (mangas s)))).
  { unfold manga_update_data. rewrite Hm.
    assert (Hno : existsb (fun x => (negb (String.eqb (m_id x) mangaId)
                                     && String.eqb (m_slug x)
                                          (m_slug (patch_manga p manga)))%bool)
                          (mangas s) = false).
    { unfold patch_manga. simpl. rewrite Hslug. simpl.
      destruct (existsb _ (mangas s)) eqn:E; [|reflexivity].
      apply existsb_exists in E. destruct E as (x & Hx & Hp).
      apply andb_true_iff in Hp. destruct Hp as [H1 H2].
      apply negb_true_iff, String.eqb_neq in H1. apply String.eqb_eq in H2.
      exfalso. apply H1.
      rewrite (NoDup_map_inj m_slug (mangas s) x manga Hsl Hx Hin0 H2).
      exact Hid0. }
    rewrite Hno. reflexivity. }
  rewrite Hrun. cbn [fst snd].
  assert (Hfound : manga_findUnique mangaId
                     (set_mangas s
                        (map (fun x => if String.eqb (m_id x) mangaId
                                       then patch_manga p x else x) (mangas s)))
                   = Some (patch_manga p manga)).
  { unfold manga_findUnique in *. simpl.
    rewrite (find_map_update (fun x => String.eqb (m_id x) mangaId)
               (patch_manga p)).
    - rewrite Hm. reflexivity.
    - intros x Hx. exact Hx. }
  split; [reflexivity|]. split; [exact Hfound|]. split; [|split].
  - intros k Hk. unfold totalChaptersOf. rewrite Hfound. simpl. rewrite Hk.
    reflexivity.
  - intros a Ha. rewrite Hfound. simpl. rewrite Ha. reflexivity.
  - reflexivity.
Qed.

(** The uploader of a pending title approves it. *)
Lemma updateManga_writes_named_columns_witness :
  mangaSlugs_unique storeC
  /\ manga_findUnique "m3" storeC
     = Some (exampleManga "m3" "C" "c" "alice" PENDING 0)
  /\ mayMutate "alice" UPLOADER "alice"
  /\ option_map m_approvalStatus
       (manga_findUnique "m3"
          (snd (updateManga "m3"
                  (mkMangaPatch None None None None None None None None
                                (Some APPROVED) None None None None)
                  "alice" UPLOADER storeC)))
     = Some APPROVED.
Proof.
  assert (Hsl : mangaSlugs_unique storeC).
  { unfold mangaSlugs_unique. simpl.
    repeat constructor; simpl; intuition discriminate. }
  assert (Hmay : mayMutate "alice" UPLOADER "alice") by (right; reflexivity).
  split; [exact Hsl|]. split; [reflexivity|]. split; [exact Hmay|].
  destruct (updateManga_writes_named_columns "m3"
              (exampleManga "m3" "C" "c" "alice" PENDING 0)
              (mkMangaPatch None None None None None None None None
                            (Some APPROVED) None None None None)
              "alice" UPLOADER storeC Hsl eq_refl Hmay eq_refl)
    as (_ & _ & _ & Ha & _).
  apply Ha. reflexivity.
Defined.

(** ** The chapter counter over the operations of the services *)















Section CounterOverOperations.
Context {X : Collaborators}.















End CounterOverOperations.



(** A run with edits of the title and of a chapter and with a second
    title. *)
Example chapter_counter_run_with_edits :
  let s' := @runOps exampleCollaborators
          [CreateChapter "m1" (mkChapterData "2" None (ImagesArray ["p1.png"]))
                         None "alice" UPLOADER "c2" 2000 2001;
           UpdateManga "m1" (retitle "Two Piece") "alice" UPLOADER;
           CreateManga narutoRequest None "alice" UPLOADER exampleIds;
           SaveProgress "bob" "c2" (mkProgressData 3 10 None) "h1" 2004;
           UpdateChapter "c2" (retitleChapter "Romance Dawn") "alice" UPLOADER;
           DeleteChapter "c1" "alice" UPLOADER]
          storeA in
  map (fun m => (m_id m, m_title m, m_totalChapters m)) (mangas s')
  = [("m1", "Two Piece", 1); ("A", "Naruto", 0)]
  /\ map (fun c => (c_id c, c_title c)) (chapters s') = [("c2", "Romance Dawn")].
Proof. cbv zeta. split; reflexivity. Qed.

